(** * WebSockets::WebSocket — a shallow embedding of src/src/WebSocket.cpp

    The protocol engine of the WebSocket class is embedded as executable
    Rocq definitions: octets are 8-bit characters, [size_t] and
    [unsigned int] values are binary naturals with every cast and
    wrap-around written out, the private [Impl] structure is a record that
    is threaded through a small monad, and the collaborators the class
    consumes (transport connection, diagnostics sender, random generator)
    are modelled by what the engine does to them. *)

From Stdlib Require Import List NArith ZArith Ascii String Bool Lia.
Import ListNotations.
Open Scope N_scope.

(** ** Octets and machine integers *)

(** [uint8_t] and [char]: eight bits. *)
Definition uint8_t : Type := ascii.

(** [std::string] and [std::vector<uint8_t>]: sequences of octets. *)
Definition bytes : Type := list uint8_t.

(** The cast [(uint8_t)n], which keeps the low eight bits. *)
Definition u8 (n : N) : uint8_t := ascii_of_N n.

(** The integer promotion of an octet, read as unsigned. *)
Definition val (b : uint8_t) : N := N_of_ascii b.

(** A string literal of the source. *)
Definition str (s : string) : bytes := list_ascii_of_string s.

(** [size()] / [length()] of a container. *)
Definition size {A : Type} (l : list A) : N := N.of_nat (List.length l).

(** [size_t] is 64 bits wide; sums and differences wrap. *)
Definition SIZE_MAX1 : N := 2 ^ 64.
Definition add64 (a b : N) : N := (a + b) mod SIZE_MAX1.
Definition sub64 (a b : N) : N := (a + SIZE_MAX1 - b mod SIZE_MAX1) mod SIZE_MAX1.

(** [a ^ b] on octets.  In the source one operand may be a (possibly signed)
    [char]; both are promoted to [int], and the store into a [uint8_t]
    keeps the low eight bits, on which sign extension has no effect. *)
Definition xor8 (a b : uint8_t) : uint8_t := u8 (N.lxor (val a) (val b)).

(** [v[i]] on a vector or string; [None] when [i] is out of range. *)
Definition at_ {A : Type} (l : list A) (i : N) : option A :=
  nth_error l (N.to_nat i).

(** ** Constants of the anonymous namespace *)

Definition CURRENTLY_SUPPORTED_WEBSOCKET_VERSION : bytes := str "13".
Definition REQUIRED_WEBSOCKET_KEY_LENGTH : N := 16.
Definition WEBSOCKET_KEY_SALT : bytes := str "258EAFA5-E914-47DA-95CA-C5AB0DC85B11".
Definition FIN : uint8_t := u8 0x80.
Definition MASK : uint8_t := u8 0x80.
Definition OPCODE_CONTINUATION : uint8_t := u8 0x00.
Definition OPCODE_TEXT : uint8_t := u8 0x01.
Definition OPCODE_BINARY : uint8_t := u8 0x02.
Definition OPCODE_CLOSE : uint8_t := u8 0x08.
Definition OPCODE_PING : uint8_t := u8 0x09.
Definition OPCODE_PONG : uint8_t := u8 0x0A.
Definition MAX_CONTROL_FRAME_DATA_LENGTH : N := 125.

(** ** Data model *)

(** [enum class FragmentedMessageType]. *)
Module FragmentedMessageType.
Inductive t : Set := None | Text | Binary.
End FragmentedMessageType.

(** [enum class Role] of WebSocket.hpp. *)
Module Role.
Inductive t : Set := Client | Server.
Definition eqb (a b : t) : bool :=
  match a, b with
  | Client, Client | Server, Server => true
  | _, _ => false
  end.
End Role.

(** [struct Event].  [closeCode] has no initialiser in the source and is
    assigned for close events only: [None] stands for "never assigned". *)
Module Event.
Inductive Type_ : Set := Unknown | Text | Binary | Ping | Pong | Close.
Record t : Type := Build {
  type : Type_;
  content : bytes;
  closeCode : option N
}.
End Event.

(** [struct Configuration] of WebSocket.hpp; [maxFrameSize] is a [size_t],
    zero meaning "no limit". *)
Record Configuration : Type := { maxFrameSize : N }.

(** What the engine can ask of its [Http::Connection]. *)
Inductive ConnectionCall : Type :=
| SendData (data : bytes)
| Break (clean : bool).

(** The object behind [std::shared_ptr<Http::Connection>]: it answers
    [GetPeerId] and records, in order, the calls made on it. *)
Record Connection : Type := {
  peerId : bytes;
  calls : list ConnectionCall
}.

(** [SystemAbstractions::CryptoRandom]: an unbounded supply of octets. *)
Definition CryptoRandom : Type := nat -> uint8_t.

(** [struct WebSocket::Impl].  [diagnosticsSender] holds the messages
    published so far (level and text); a null [connection] is [None].
    The mutex is left out.  The delegate table [delegates] is not a field
    of the record: only [SetDelegates] assigns it and only
    [ProcessEventQueue] reads it, so [ProcessEventQueue] and the operations
    which end with it take its value as a parameter. *)
Record Impl : Type := {
  configuration : Configuration;
  diagnosticsSender : list (N * bytes);
  eventQueue : list Event.t;
  connection : option Connection;
  role : Role.t;
  key : bytes;
  closeSent : bool;
  closeReceived : bool;
  sending : FragmentedMessageType.t;
  receiving : FragmentedMessageType.t;
  delegatesSet : bool;
  frameReassemblyBuffer : bytes;
  messageReassemblyBuffer : bytes;
  rng : CryptoRandom
}.

(** Assignments to single members. *)
Definition set_configuration (v : Configuration) (s : Impl) : Impl :=
  {| configuration := v; diagnosticsSender := diagnosticsSender s;
     eventQueue := eventQueue s; connection := connection s; role := role s;
     key := key s; closeSent := closeSent s; closeReceived := closeReceived s;
     sending := sending s; receiving := receiving s;
     delegatesSet := delegatesSet s;
     frameReassemblyBuffer := frameReassemblyBuffer s;
     messageReassemblyBuffer := messageReassemblyBuffer s; rng := rng s |}.
Definition set_diagnosticsSender (v : list (N * bytes)) (s : Impl) : Impl :=
  {| configuration := configuration s; diagnosticsSender := v;
     eventQueue := eventQueue s; connection := connection s; role := role s;
     key := key s; closeSent := closeSent s; closeReceived := closeReceived s;
     sending := sending s; receiving := receiving s;
     delegatesSet := delegatesSet s;
     frameReassemblyBuffer := frameReassemblyBuffer s;
     messageReassemblyBuffer := messageReassemblyBuffer s; rng := rng s |}.
Definition set_eventQueue (v : list Event.t) (s : Impl) : Impl :=
  {| configuration := configuration s;
     diagnosticsSender := diagnosticsSender s;
     eventQueue := v; connection := connection s; role := role s;
     key := key s; closeSent := closeSent s; closeReceived := closeReceived s;
     sending := sending s; receiving := receiving s;
     delegatesSet := delegatesSet s;
     frameReassemblyBuffer := frameReassemblyBuffer s;
     messageReassemblyBuffer := messageReassemblyBuffer s; rng := rng s |}.
Definition set_connection (v : option Connection) (s : Impl) : Impl :=
  {| configuration := configuration s;
     diagnosticsSender := diagnosticsSender s;
     eventQueue := eventQueue s; connection := v; role := role s;
     key := key s; closeSent := closeSent s; closeReceived := closeReceived s;
     sending := sending s; receiving := receiving s;
     delegatesSet := delegatesSet s;
     frameReassemblyBuffer := frameReassemblyBuffer s;
     messageReassemblyBuffer := messageReassemblyBuffer s; rng := rng s |}.
Definition set_role (v : Role.t) (s : Impl) : Impl :=
  {| configuration := configuration s;
     diagnosticsSender := diagnosticsSender s;
     eventQueue := eventQueue s; connection := connection s; role := v;
     key := key s; closeSent := closeSent s; closeReceived := closeReceived s;
     sending := sending s; receiving := receiving s;
     delegatesSet := delegatesSet s;
     frameReassemblyBuffer := frameReassemblyBuffer s;
     messageReassemblyBuffer := messageReassemblyBuffer s; rng := rng s |}.
Definition set_key (v : bytes) (s : Impl) : Impl :=
  {| configuration := configuration s;
     diagnosticsSender := diagnosticsSender s;
     eventQueue := eventQueue s; connection := connection s; role := role s;
     key := v; closeSent := closeSent s; closeReceived := closeReceived s;
     sending := sending s; receiving := receiving s;
     delegatesSet := delegatesSet s;
     frameReassemblyBuffer := frameReassemblyBuffer s;
     messageReassemblyBuffer := messageReassemblyBuffer s; rng := rng s |}.
Definition set_closeSent (v : bool) (s : Impl) : Impl :=
  {| configuration := configuration s;
     diagnosticsSender := diagnosticsSender s;
     eventQueue := eventQueue s; connection := connection s; role := role s;
     key := key s; closeSent := v; closeReceived := closeReceived s;
     sending := sending s; receiving := receiving s;
     delegatesSet := delegatesSet s;
     frameReassemblyBuffer := frameReassemblyBuffer s;
     messageReassemblyBuffer := messageReassemblyBuffer s; rng := rng s |}.
Definition set_closeReceived (v : bool) (s : Impl) : Impl :=
  {| configuration := configuration s;
     diagnosticsSender := diagnosticsSender s;
     eventQueue := eventQueue s; connection := connection s; role := role s;
     key := key s; closeSent := closeSent s; closeReceived := v;
     sending := sending s; receiving := receiving s;
     delegatesSet := delegatesSet s;
     frameReassemblyBuffer := frameReassemblyBuffer s;
     messageReassemblyBuffer := messageReassemblyBuffer s; rng := rng s |}.
Definition set_sending (v : FragmentedMessageType.t) (s : Impl) : Impl :=
  {| configuration := configuration s;
     diagnosticsSender := diagnosticsSender s;
     eventQueue := eventQueue s; connection := connection s; role := role s;
     key := key s; closeSent := closeSent s; closeReceived := closeReceived s;
     sending := v; receiving := receiving s;
     delegatesSet := delegatesSet s;
     frameReassemblyBuffer := frameReassemblyBuffer s;
     messageReassemblyBuffer := messageReassemblyBuffer s; rng := rng s |}.
Definition set_receiving (v : FragmentedMessageType.t) (s : Impl) : Impl :=
  {| configuration := configuration s;
     diagnosticsSender := diagnosticsSender s;
     eventQueue := eventQueue s; connection := connection s; role := role s;
     key := key s; closeSent := closeSent s; closeReceived := closeReceived s;
     sending := sending s; receiving := v;
     delegatesSet := delegatesSet s;
     frameReassemblyBuffer := frameReassemblyBuffer s;
     messageReassemblyBuffer := messageReassemblyBuffer s; rng := rng s |}.
Definition set_frameReassemblyBuffer (v : bytes) (s : Impl) : Impl :=
  {| configuration := configuration s;
     diagnosticsSender := diagnosticsSender s;
     eventQueue := eventQueue s; connection := connection s; role := role s;
     key := key s; closeSent := closeSent s; closeReceived := closeReceived s;
     sending := sending s; receiving := receiving s;
     delegatesSet := delegatesSet s;
     frameReassemblyBuffer := v;
     messageReassemblyBuffer := messageReassemblyBuffer s; rng := rng s |}.
Definition set_messageReassemblyBuffer (v : bytes) (s : Impl) : Impl :=
  {| configuration := configuration s;
     diagnosticsSender := diagnosticsSender s;
     eventQueue := eventQueue s; connection := connection s; role := role s;
     key := key s; closeSent := closeSent s; closeReceived := closeReceived s;
     sending := sending s; receiving := receiving s;
     delegatesSet := delegatesSet s;
     frameReassemblyBuffer := frameReassemblyBuffer s;
     messageReassemblyBuffer := v; rng := rng s |}.
Definition set_rng (v : CryptoRandom) (s : Impl) : Impl :=
  {| configuration := configuration s;
     diagnosticsSender := diagnosticsSender s;
     eventQueue := eventQueue s; connection := connection s; role := role s;
     key := key s; closeSent := closeSent s; closeReceived := closeReceived s;
     sending := sending s; receiving := receiving s;
     delegatesSet := delegatesSet s;
     frameReassemblyBuffer := frameReassemblyBuffer s;
     messageReassemblyBuffer := messageReassemblyBuffer s; rng := v |}.

(** ** The monad of the member functions

    A member function of [Impl] reads and writes the structure.  It may
    also run into behaviour the language leaves undefined (a null
    [connection] dereferenced, a buffer indexed out of range), and the
    frame loop of [ReceiveData] is run on a step budget. *)
Inductive result (A : Type) : Type :=
| Ok (a : A) (s : Impl)
| Undefined
| OutOfFuel.
Arguments Ok {A} a s.
Arguments Undefined {A}.
Arguments OutOfFuel {A}.

Definition M (A : Type) : Type := Impl -> result A.

Definition ret {A : Type} (a : A) : M A := fun s => Ok a s.
Definition bind {A B : Type} (m : M A) (f : A -> M B) : M B :=
  fun s => match m s with
           | Ok a s' => f a s'
           | Undefined => Undefined
           | OutOfFuel => OutOfFuel
           end.
Definition undefined {A : Type} : M A := fun _ => Undefined.
Definition timeout {A : Type} : M A := fun _ => OutOfFuel.
Definition get {A : Type} (field : Impl -> A) : M A := fun s => Ok (field s) s.
Definition modify (f : Impl -> Impl) : M unit := fun s => Ok tt (f s).
Definition lift {A : Type} (o : option A) : M A :=
  match o with Some a => ret a | None => undefined end.

Declare Scope impl_scope.
Delimit Scope impl_scope with impl.
Notation "x <- m ;; k" := (bind m (fun x => k))
  (at level 61, m at next level, right associativity) : impl_scope.
Notation "m ;; k" := (bind m (fun _ => k))
  (at level 61, right associativity) : impl_scope.
Open Scope impl_scope.

(** The state an [Ok] result carries, for statements about members after a
    call. *)
Definition state_of {A : Type} (r : result A) (default : Impl) : Impl :=
  match r with Ok _ s => s | _ => default end.

(** The value an [Ok] result carries. *)
Definition value_of {A : Type} (r : result A) (default : A) : A :=
  match r with Ok a _ => a | _ => default end.

(** ** Collaborators *)

(** [connection->SendData(frame)]. *)
Definition connection_SendData (frame : bytes) : M unit :=
  c <- get connection;;
  match c with
  | Some c =>
      modify (set_connection
                (Some {| peerId := peerId c;
                         calls := calls c ++ [SendData frame] |}))
  | None => undefined
  end.

(** [connection->Break(clean)]. *)
Definition connection_Break (clean : bool) : M unit :=
  c <- get connection;;
  match c with
  | Some c =>
      modify (set_connection
                (Some {| peerId := peerId c;
                         calls := calls c ++ [Break clean] |}))
  | None => undefined
  end.

(** [connection->GetPeerId()]. *)
Definition connection_GetPeerId : M bytes :=
  c <- get connection;;
  match c with
  | Some c => ret (peerId c)
  | None => undefined
  end.

(** [s.c_str()] as read by a [%s] conversion: up to the first NUL. *)
Fixpoint c_str (s : bytes) : bytes :=
  match s with
  | [] => []
  | c :: rest => if (val c =? 0) then [] else c :: c_str rest
  end.

(** [diagnosticsSender.SendDiagnosticInformationFormatted(level, ...)] with
    the format already expanded to [message]. *)
Definition SendDiagnosticInformationFormatted (level : N) (message : bytes)
  : M unit :=
  modify (fun s =>
            set_diagnosticsSender (diagnosticsSender s ++ [(level, message)]) s).

(** [rng.Generate(buffer, n)]: the next [n] octets of the supply. *)
Definition rng_Generate (n : nat) : M bytes :=
  r <- get rng;;
  modify (set_rng (fun i => r (n + i)%nat));;
  ret (map r (seq 0 n)).

(** [eventQueue.push(event)]. *)
Definition eventQueue_push (event : Event.t) : M unit :=
  modify (fun s => set_eventQueue (eventQueue s ++ [event]) s).

(** ** Member functions of [WebSocket::Impl] *)

Section Engine.

(** [Utf8::Utf8::IsValidEncoding], a primitive the engine consumes. *)
Variable IsValidEncoding : bytes -> bool.

(** [Impl::OnClose] (lines 364-378). *)
Definition OnClose (code : N) (reason : bytes) : M unit :=
  closeSentEarlier <- get closeSent;;
  modify (set_closeReceived true);;
  eventQueue_push (Event.Build Event.Close reason (Some code));;
  if (closeSentEarlier : bool) then connection_Break false else ret tt.

(** The masking loop of [SendFrame] (lines 512-514), entered at index [i]:
    [frame.push_back(payload[i] ^ maskingKey[i % 4])]. *)
Fixpoint mask_payload (maskingKey : bytes) (i : N) (payload : bytes) : bytes :=
  match payload with
  | [] => []
  | c :: rest =>
      xor8 c (nth (N.to_nat (i mod 4)) maskingKey zero)
      :: mask_payload maskingKey (i + 1) rest
  end.

(** [Impl::SendFrame] (lines 472-517).  Each [push_back] stores a
    [uint8_t], so the [int] sums are cast on the way in. *)
Definition SendFrame (fin : bool) (opcode : uint8_t) (payload : bytes)
  : M unit :=
  let frame : bytes := [] in
  let frame := frame ++ [u8 ((if fin then val FIN else 0) + val opcode)] in
  role_ <- get role;;
  let mask : uint8_t := if Role.eqb role_ Role.Client then MASK else u8 0 in
  let frame :=
    if size payload <? 126 then
      frame ++ [u8 (val (u8 (size payload)) + val mask)]
    else if size payload <? 65536 then
      frame ++ [u8 (0x7E + val mask);
                u8 (N.shiftr (size payload) 8);
                u8 (N.land (size payload) 0xFF)]
    else
      frame ++ [u8 (0x7F + val mask);
                u8 (N.shiftr (size payload) 56);
                u8 (N.land (N.shiftr (size payload) 48) 0xFF);
                u8 (N.land (N.shiftr (size payload) 40) 0xFF);
                u8 (N.land (N.shiftr (size payload) 32) 0xFF);
                u8 (N.land (N.shiftr (size payload) 24) 0xFF);
                u8 (N.land (N.shiftr (size payload) 16) 0xFF);
                u8 (N.land (N.shiftr (size payload) 8) 0xFF);
                u8 (N.land (size payload) 0xFF)] in
  frame <- (if val mask =? 0 then
              ret (frame ++ payload)
            else
              maskingKey <- rng_Generate 4;;
              let frame := frame ++ maskingKey in
              ret (frame ++ mask_payload maskingKey 0 payload));;
  connection_SendData frame.

(** [Impl::Close] (lines 427-458). *)
Definition Close (code : N) (reason : bytes) (fail : bool) : M unit :=
  closeSent_ <- get closeSent;;
  if (closeSent_ : bool) then ret tt
  else
    modify (set_closeSent true);;
    if code =? 1006 then OnClose code reason
    else
      let data : bytes := [] in
      let data :=
        if negb (code =? 1005) then
          (data ++ [u8 (N.shiftr code 8)] ++ [u8 (N.land code 0xFF)])
          ++ reason
        else data in
      SendFrame true OPCODE_CLOSE data;;
      (if fail then OnClose code reason
       else
         closeReceived_ <- get closeReceived;;
         if (closeReceived_ : bool) then connection_Break true else ret tt);;
      peer <- connection_GetPeerId;;
      SendDiagnosticInformationFormatted 1
        (str "Connection to " ++ c_str peer ++ str " closed ("
         ++ c_str reason ++ str ")").

(** [Impl::OnTextMessage] (lines 386-396). *)
Definition OnTextMessage (message : bytes) : M unit :=
  if IsValidEncoding message then
    eventQueue_push (Event.Build Event.Text message None)
  else
    Close 1007 (str "invalid UTF-8 encoding in text message") true.

(** [Impl::OnBinaryMessage] (lines 404-409). *)
Definition OnBinaryMessage (message : bytes) : M unit :=
  eventQueue_push (Event.Build Event.Binary message None).

(** The unmasking loop of [ReceiveFrame] (lines 558-563), with [n]
    iterations left and index [i]:
    [data[i] = buffer[headerLength + i] ^ buffer[headerLength - 4 + (i % 4)]]. *)
Fixpoint unmask_payload (buffer : bytes) (headerLength : N) (n : nat) (i : N)
  : option bytes :=
  match n with
  | O => Some []
  | S n' =>
      match at_ buffer (add64 headerLength i),
            at_ buffer (add64 (sub64 headerLength 4) (i mod 4)) with
      | Some c, Some k =>
          match unmask_payload buffer headerLength n' (i + 1) with
          | Some rest => Some (xor8 c k :: rest)
          | None => None
          end
      | _, _ => None
      end
  end.

(** [data.assign(buffer.begin() + headerLength,
                 buffer.begin() + headerLength + payloadLength)]
    (lines 565-568); the range has to lie inside the buffer. *)
Definition assign_payload (buffer : bytes) (headerLength payloadLength : N)
  : option bytes :=
  if headerLength + payloadLength <=? size buffer then
    Some (firstn (N.to_nat payloadLength) (skipn (N.to_nat headerLength) buffer))
  else None.

(** The payload [data] which [ReceiveFrame] takes out of the buffer (lines
    555-569): unmasked with the four octets before the payload by a
    server, copied by a client.  [None] where the source reads outside the
    buffer. *)
Definition frame_payload (role_ : Role.t) (buffer : bytes)
           (headerLength payloadLength : N) : option bytes :=
  if Role.eqb role_ Role.Server then
    unmask_payload buffer headerLength (N.to_nat payloadLength) 0
  else
    assign_payload buffer headerLength payloadLength.

(** The [switch] of [ReceiveFrame] on the opcode (lines 570-667), with the
    FIN flag and the payload already taken from the frame. *)
Definition ReceiveFrame_switch (fin : bool) (opcode : uint8_t) (data : bytes)
  : M unit :=
  if (opcode =? OPCODE_CONTINUATION)%char then
    modify (fun s => set_messageReassemblyBuffer
                       (messageReassemblyBuffer s ++ data) s);;
    receiving_ <- get receiving;;
    match receiving_ with
    | FragmentedMessageType.Text =>
        if fin then
          message <- get messageReassemblyBuffer;;
          OnTextMessage message
        else ret tt
    | FragmentedMessageType.Binary =>
        if fin then
          message <- get messageReassemblyBuffer;;
          OnBinaryMessage message
        else ret tt
    | FragmentedMessageType.None =>
        modify (set_messageReassemblyBuffer []);;
        Close 1002 (str "unexpected continuation frame") true
    end;;
    if fin then
      modify (set_receiving FragmentedMessageType.None);;
      modify (set_messageReassemblyBuffer [])
    else ret tt
  else if (opcode =? OPCODE_TEXT)%char then
    receiving_ <- get receiving;;
    match receiving_ with
    | FragmentedMessageType.None =>
        if fin then OnTextMessage data
        else
          modify (set_receiving FragmentedMessageType.Text);;
          modify (set_messageReassemblyBuffer data)
    | _ => Close 1002 (str "last message incomplete") true
    end
  else if (opcode =? OPCODE_BINARY)%char then
    receiving_ <- get receiving;;
    match receiving_ with
    | FragmentedMessageType.None =>
        if fin then OnBinaryMessage data
        else
          modify (set_receiving FragmentedMessageType.Binary);;
          modify (set_messageReassemblyBuffer data)
    | _ => Close 1002 (str "last message incomplete") true
    end
  else if (opcode =? OPCODE_CLOSE)%char then
    let code := 1005 in
    let reason : bytes := [] in
    let fail := false in
    r <- (if 2 <=? size data then
            let code :=
              N.land (N.shiftl (val (nth 0 data zero)) 8) 0xFF00
              + N.land (val (nth 1 data zero)) 0x00FF in
            let reason := skipn 2 data in
            if negb (IsValidEncoding reason) then
              Close 1007 (str "invalid UTF-8 encoding in close reason")
                    true;;
              ret (code, reason, true)
            else ret (code, reason, fail)
          else ret (code, reason, fail));;
    let '(code, reason, fail) := r in
    if negb fail then
      OnClose code reason;;
      peer <- connection_GetPeerId;;
      SendDiagnosticInformationFormatted 1
        (str "Connection to " ++ c_str peer ++ str " closed by peer")
    else ret tt
  else if (opcode =? OPCODE_PING)%char then
    SendFrame true OPCODE_PONG data;;
    eventQueue_push (Event.Build Event.Ping data None)
  else if (opcode =? OPCODE_PONG)%char then
    eventQueue_push (Event.Build Event.Pong data None)
  else
    Close 1002 (str "unknown opcode") true.

(** [Impl::ReceiveFrame] (lines 529-668): the checks on the two leading
    octets, the payload, and then the [switch] above. *)
Definition ReceiveFrame (headerLength payloadLength : N) : M unit :=
  closeReceived_ <- get closeReceived;;
  if (closeReceived_ : bool) then ret tt
  else
    buffer <- get frameReassemblyBuffer;;
    b0 <- lift (at_ buffer 0);;
    let fin := negb (N.land (val b0) (val FIN) =? 0) in
    let reservedBits := u8 (N.land (N.shiftr (val b0) 4) 0x07) in
    if negb (val reservedBits =? 0) then
      Close 1002 (str "reserved bits set") true
    else
      b1 <- lift (at_ buffer 1);;
      let mask := negb (N.land (val b1) (val MASK) =? 0) in
      role_ <- get role;;
      if mask && Role.eqb role_ Role.Client then
        Close 1002 (str "masked frame") true
      else if negb mask && Role.eqb role_ Role.Server then
        Close 1002 (str "unmasked frame") true
      else
        let opcode := u8 (N.land (val b0) 0x0F) in
        data <- lift (frame_payload role_ buffer headerLength payloadLength);;
        ReceiveFrame_switch fin opcode data.

(** The header arithmetic of [ReceiveData] (lines 703-735) on a buffer of
    at least two octets: the header and payload lengths announced by the
    frame at the head of the buffer, or [None] where the function returns to
    wait for the rest of an extended length.  [~MASK] is the complement of
    the promoted [int]. *)
Definition frame_lengths (buffer : bytes) : option (N * N) :=
  let octet (i : nat) : N := val (nth i buffer zero) in
  let lengthFirstOctet := N.land (octet 1%nat) (N.lnot (val MASK) 32) in
  let lengths :=
    if lengthFirstOctet =? 0x7E then
      let headerLength := 4 in
      if size buffer <? headerLength then None
      else Some (headerLength,
                 N.shiftl (octet 2%nat) 8 + octet 3%nat)
    else if lengthFirstOctet =? 0x7F then
      let headerLength := 10 in
      if size buffer <? headerLength then None
      else Some (headerLength,
                 N.shiftl (octet 2%nat) 56
                 + N.shiftl (octet 3%nat) 48
                 + N.shiftl (octet 4%nat) 40
                 + N.shiftl (octet 5%nat) 32
                 + N.shiftl (octet 6%nat) 24
                 + N.shiftl (octet 7%nat) 16
                 + N.shiftl (octet 8%nat) 8
                 + octet 9%nat)
    else Some (2, lengthFirstOctet) in
  match lengths with
  | Some (headerLength, payloadLength) =>
      if negb (N.land (octet 1%nat) (val MASK) =? 0) then
        Some (headerLength + 4, payloadLength)
      else Some (headerLength, payloadLength)
  | None => None
  end.

(** The [for(;;)] loop of [ReceiveData] (lines 699-744), run for at most
    [fuel] iterations. *)
Fixpoint ReceiveData_loop (fuel : nat) : M unit :=
  match fuel with
  | O => timeout
  | S fuel' =>
      buffer <- get frameReassemblyBuffer;;
      if size buffer <? 2 then ret tt
      else
        match frame_lengths buffer with
        | None => ret tt
        | Some (headerLength, payloadLength) =>
            if size buffer <? add64 headerLength payloadLength then ret tt
            else
              ReceiveFrame headerLength payloadLength;;
              modify (fun s =>
                        set_frameReassemblyBuffer
                          (skipn (N.to_nat (add64 headerLength payloadLength))
                                 (frameReassemblyBuffer s)) s);;
              ReceiveData_loop fuel'
        end
  end.

(** [Impl::ReceiveData] (lines 677-745).  Every iteration of the loop but
    the last erases the frame it handled, so one iteration per buffered
    octet and one more are allowed; the budget runs out only where a
    wrapped [headerLength + payloadLength] of zero keeps the source
    looping. *)
Definition ReceiveData (data : bytes) : M unit :=
  c <- get connection;;
  match c with
  | None => ret tt
  | Some _ =>
      maxFrameSize_ <- get (fun s => maxFrameSize (configuration s));;
      buffer <- get frameReassemblyBuffer;;
      if (0 <? maxFrameSize_)
         && (maxFrameSize_ <? add64 (size buffer) (size data)) then
        Close 1009 (str "frame too large") true
      else
        modify (set_frameReassemblyBuffer (buffer ++ data));;
        ReceiveData_loop (S (List.length (buffer ++ data)))
  end.

(** [Impl::ConnectionBroken] (lines 751-762). *)
Definition ConnectionBroken : M unit :=
  c <- get connection;;
  match c with
  | None => ret tt
  | Some _ =>
      Close 1006 (str "connection broken by peer") true;;
      peer <- connection_GetPeerId;;
      SendDiagnosticInformationFormatted 1
        (str "Connection to " ++ c_str peer ++ str " broken by peer")
  end.

(** ** The dispatcher

    The delegate table is the one member of [Impl] which the protocol logic
    never reads; it is carried beside the record and handed to the
    functions which dispatch.  A delegate is a [std::function] which is
    null or not, and calling it is recorded, as for the connection. *)

(** [struct Delegates] of WebSocket.hpp: which of the five delegates are
    set. *)
Record Delegates : Type := {
  text : bool;
  binary : bool;
  ping : bool;
  pong : bool;
  close : bool
}.

(** A call of a delegate with its arguments; the close delegate is handed
    [event.closeCode] as the event holds it. *)
Inductive DelegateCall : Type :=
| CallText (data : bytes)
| CallBinary (data : bytes)
| CallPing (data : bytes)
| CallPong (data : bytes)
| CallClose (code : option N) (reason : bytes).

(** The [while] loop of [ProcessEventQueue] (lines 313-352) over the
    offloaded events. *)
Fixpoint deliver (delegatesCopy : Delegates) (offloadedEvents : list Event.t)
  : list DelegateCall :=
  match offloadedEvents with
  | [] => []
  | event :: rest =>
      (match Event.type event with
       | Event.Text =>
           if text delegatesCopy then [CallText (Event.content event)]
           else []
       | Event.Binary =>
           if binary delegatesCopy then [CallBinary (Event.content event)]
           else []
       | Event.Ping =>
           if ping delegatesCopy then [CallPing (Event.content event)]
           else []
       | Event.Pong =>
           if pong delegatesCopy then [CallPong (Event.content event)]
           else []
       | Event.Close =>
           if close delegatesCopy
           then [CallClose (Event.closeCode event) (Event.content event)]
           else []
       | Event.Unknown => []
       end) ++ deliver delegatesCopy rest
  end.

(** [Impl::ProcessEventQueue] (lines 304-353); the result is the list of
    delegate calls made. *)
Definition ProcessEventQueue (delegates : Delegates) : M (list DelegateCall) :=
  delegatesSet_ <- get delegatesSet;;
  if negb delegatesSet_ then ret []
  else
    let delegatesCopy := delegates in
    offloadedEvents <- get eventQueue;;
    modify (set_eventQueue []);;
    ret (deliver delegatesCopy offloadedEvents).

(** ** The public operations of [WebSocket]

    Every operation ends with [ProcessEventQueue], called once the mutex is
    released; the result is the list of delegate calls made.  A [return]
    before that point makes none. *)

(** [WebSocket::Configure] (lines 781-784). *)
Definition Configure (configuration_ : Configuration) : M unit :=
  modify (set_configuration configuration_).

(** [WebSocket::Open] (lines 870-897); the two delegates it registers on
    the connection are [DataReceivedDelegate] and [BrokenDelegate] below. *)
Definition Open (connection_ : Connection) (role_ : Role.t) : M unit :=
  modify (set_connection (Some connection_));;
  modify (set_role role_).

(** The delegate registered with [SetDataReceivedDelegate] (lines 877-886),
    which the connection calls with the data it received. *)
Definition DataReceivedDelegate (delegates : Delegates) (data : bytes)
  : M (list DelegateCall) :=
  ReceiveData data;;
  ProcessEventQueue delegates.

(** The delegate registered with [SetBrokenDelegate] (lines 887-896), which
    the connection calls when it is broken. *)
Definition BrokenDelegate (delegates : Delegates) : M (list DelegateCall) :=
  ConnectionBroken;;
  ProcessEventQueue delegates.

(** [WebSocket::Close] (lines 899-910). *)
Definition WebSocket_Close (delegates : Delegates) (code : N) (reason : bytes)
  : M (list DelegateCall) :=
  c <- get connection;;
  match c with
  | None => ret []
  | Some _ =>
      Close code reason false;;
      ProcessEventQueue delegates
  end.

(** [WebSocket::Ping] (lines 912-926). *)
Definition Ping (delegates : Delegates) (data : bytes)
  : M (list DelegateCall) :=
  c <- get connection;;
  match c with
  | None => ret []
  | Some _ =>
      closeSent_ <- get closeSent;;
      if (closeSent_ : bool) then ret []
      else if MAX_CONTROL_FRAME_DATA_LENGTH <? size data then ret []
      else
        SendFrame true OPCODE_PING data;;
        ProcessEventQueue delegates
  end.

(** [WebSocket::Pong] (lines 928-942). *)
Definition Pong (delegates : Delegates) (data : bytes)
  : M (list DelegateCall) :=
  c <- get connection;;
  match c with
  | None => ret []
  | Some _ =>
      closeSent_ <- get closeSent;;
      if (closeSent_ : bool) then ret []
      else if MAX_CONTROL_FRAME_DATA_LENGTH <? size data then ret []
      else
        SendFrame true OPCODE_PONG data;;
        ProcessEventQueue delegates
  end.

(** [WebSocket::SendText] (lines 944-971). *)
Definition SendText (delegates : Delegates) (data : bytes)
           (lastFragment : bool) : M (list DelegateCall) :=
  c <- get connection;;
  match c with
  | None => ret []
  | Some _ =>
      closeSent_ <- get closeSent;;
      if (closeSent_ : bool) then ret []
      else
        sending_ <- get sending;;
        match sending_ with
        | FragmentedMessageType.Binary => ret []
        | _ =>
            let opcode :=
              match sending_ with
              | FragmentedMessageType.Text => OPCODE_CONTINUATION
              | _ => OPCODE_TEXT
              end in
            SendFrame lastFragment opcode data;;
            modify (set_sending (if lastFragment
                                 then FragmentedMessageType.None
                                 else FragmentedMessageType.Text));;
            ProcessEventQueue delegates
        end
  end.

(** [WebSocket::SendBinary] (lines 973-1000). *)
Definition SendBinary (delegates : Delegates) (data : bytes)
           (lastFragment : bool) : M (list DelegateCall) :=
  c <- get connection;;
  match c with
  | None => ret []
  | Some _ =>
      closeSent_ <- get closeSent;;
      if (closeSent_ : bool) then ret []
      else
        sending_ <- get sending;;
        match sending_ with
        | FragmentedMessageType.Text => ret []
        | _ =>
            let opcode :=
              match sending_ with
              | FragmentedMessageType.Binary => OPCODE_CONTINUATION
              | _ => OPCODE_BINARY
              end in
            SendFrame lastFragment opcode data;;
            modify (set_sending (if lastFragment
                                 then FragmentedMessageType.None
                                 else FragmentedMessageType.Binary));;
            ProcessEventQueue delegates
        end
  end.

(** The assignment to [delegatesSet]. *)
Definition set_delegatesSet (v : bool) (s : Impl) : Impl :=
  {| configuration := configuration s;
     diagnosticsSender := diagnosticsSender s;
     eventQueue := eventQueue s; connection := connection s; role := role s;
     key := key s; closeSent := closeSent s; closeReceived := closeReceived s;
     sending := sending s; receiving := receiving s;
     delegatesSet := v;
     frameReassemblyBuffer := frameReassemblyBuffer s;
     messageReassemblyBuffer := messageReassemblyBuffer s; rng := rng s |}.


End Engine.

(** ** Traces of operations

    What can happen to an opened engine: the application calls one of the
    public operations, or the connection calls one of the two delegates
    which [Open] registered, with data or to report that it is broken.
    The delegate calls of a trace are collected in order. *)
Inductive Operation : Type :=
| DoClose (code : N) (reason : bytes)
| DoPing (data : bytes)
| DoPong (data : bytes)
| DoSendText (data : bytes) (lastFragment : bool)
| DoSendBinary (data : bytes) (lastFragment : bool)
| DataReceived (data : bytes)
| Broken.

(** The operations the application calls. *)
Definition by_application (op : Operation) : bool :=
  match op with
  | DataReceived _ | Broken => false
  | _ => true
  end.

Definition perform (IsValidEncoding : bytes -> bool) (delegates : Delegates)
           (op : Operation) : M (list DelegateCall) :=
  match op with
  | DoClose code reason => WebSocket_Close delegates code reason
  | DoPing data => Ping delegates data
  | DoPong data => Pong delegates data
  | DoSendText data lastFragment => SendText delegates data lastFragment
  | DoSendBinary data lastFragment => SendBinary delegates data lastFragment
  | DataReceived data => DataReceivedDelegate IsValidEncoding delegates data
  | Broken => BrokenDelegate delegates
  end.

Fixpoint perform_all (IsValidEncoding : bytes -> bool) (delegates : Delegates)
         (ops : list Operation) : M (list DelegateCall) :=
  match ops with
  | [] => ret []
  | op :: rest =>
      calls <- perform IsValidEncoding delegates op;;
      more <- perform_all IsValidEncoding delegates rest;;
      ret (calls ++ more)
  end.

(** ** Sequences of frames *)

(** Frames handled one after the other by the [switch] of [ReceiveFrame],
    each given by its FIN flag, opcode and payload. *)
Fixpoint receive_frames (IsValidEncoding : bytes -> bool)
         (frames : list (bool * uint8_t * bytes)) : M unit :=
  match frames with
  | [] => ret tt
  | (fin, opcode, data) :: rest =>
      ReceiveFrame_switch IsValidEncoding fin opcode data;;
      receive_frames IsValidEncoding rest
  end.

(** The frames of a message cut into a first fragment, fragments in the
    middle and a last one. *)
Definition fragmented (text : bool) (first : bytes) (middle : list bytes)
           (last : bytes) : list (bool * uint8_t * bytes) :=
  (false, if text then OPCODE_TEXT else OPCODE_BINARY, first)
  :: map (fun d => (false, OPCODE_CONTINUATION, d)) middle
  ++ [(true, OPCODE_CONTINUATION, last)].

(** ** The opening handshake *)

(** [SystemAbstractions::ToLower]: the upper-case Latin letters are
    replaced by their lower-case forms. *)
Definition ToLower (s : bytes) : bytes :=
  map (fun c => if (0x41 <=? val c) && (val c <=? 0x5A)
                then u8 (val c + 0x20) else c) s.

(** The operations of [MessageHeaders::MessageHeaders] which the handshake
    uses, as an interface; member functions that change the headers return
    the new headers. *)
Class MessageHeaders (H : Type) : Type := {
  GetHeaderValue : H -> bytes -> bytes;
  GetHeaderTokens : H -> bytes -> list bytes;
  HasHeaderToken : H -> bytes -> bytes -> bool;
  SetHeader : H -> bytes -> bytes -> H;
  SetHeaderValues : H -> bytes -> list bytes -> bool -> H
}.

(** What the handshake relies on: header names are told apart at least up
    to letter case, setting one header leaves the others alone, a value
    that was set is read back, and a token set last in a one-line list is
    found again. *)
Class MessageHeadersLaws (H : Type) `{MessageHeaders H} : Prop := {
  get_set : forall h n v, GetHeaderValue (SetHeader h n v) n = v;
  get_set_other : forall h n n' v,
    ToLower n <> ToLower n' ->
    GetHeaderValue (SetHeader h n v) n' = GetHeaderValue h n';
  get_values_other : forall h n n' vs b,
    ToLower n <> ToLower n' ->
    GetHeaderValue (SetHeaderValues h n vs b) n' = GetHeaderValue h n';
  tokens_set_other : forall h n n' v,
    ToLower n <> ToLower n' ->
    GetHeaderTokens (SetHeader h n v) n' = GetHeaderTokens h n';
  tokens_values_other : forall h n n' vs b,
    ToLower n <> ToLower n' ->
    GetHeaderTokens (SetHeaderValues h n vs b) n' = GetHeaderTokens h n';
  has_set_other : forall h n n' v t,
    ToLower n <> ToLower n' ->
    HasHeaderToken (SetHeader h n v) n' t = HasHeaderToken h n' t;
  has_upgrade : forall h n vs,
    HasHeaderToken (SetHeaderValues h n (vs ++ [str "upgrade"]) true)
                   n (str "upgrade") = true
}.

(** [Http::Request] and [Http::Response], with the members the handshake
    reads or writes. *)
Record Request (H : Type) : Type := {
  method : bytes;
  request_headers : H
}.
Arguments method {H} _.
Arguments request_headers {H} _.

Record Response (H : Type) : Type := {
  statusCode : N;
  reasonPhrase : bytes;
  response_headers : H
}.
Arguments statusCode {H} _.
Arguments reasonPhrase {H} _.
Arguments response_headers {H} _.

(** [bytes] compared with [==] / [!=]. *)
Definition bytes_eqb (a b : bytes) : bool :=
  if list_eq_dec ascii_dec a b then true else false.

Section Handshake.

Context {H : Type} `{MessageHeaders H}.

(** [Base64::Encode], [Base64::Decode] and [Hash::StringToBytes<Hash::Sha1>],
    primitives the handshake consumes. *)
Variable Base64_Encode : bytes -> bytes.
Variable Base64_Decode : bytes -> bytes.
Variable Sha1 : bytes -> bytes.

(** [ComputeKeyAnswer] (lines 176-180). *)
Definition ComputeKeyAnswer (key_ : bytes) : bytes :=
  Base64_Encode (Sha1 (key_ ++ WEBSOCKET_KEY_SALT)).

(** [WebSocket::StartOpenAsClient] (lines 786-800); the request is passed
    by reference and returned here. *)
Definition StartOpenAsClient (request : Request H) : M (Request H) :=
  let headers := request_headers request in
  let headers :=
    SetHeader headers (str "Sec-WebSocket-Version")
              CURRENTLY_SUPPORTED_WEBSOCKET_VERSION in
  nonce <- rng_Generate 16;;
  modify (set_key (Base64_Encode nonce));;
  key_ <- get key;;
  let headers := SetHeader headers (str "Sec-WebSocket-Key") key_ in
  let headers := SetHeader headers (str "Upgrade") (str "websocket") in
  let connectionTokens := GetHeaderTokens headers (str "Connection") in
  let connectionTokens := connectionTokens ++ [str "upgrade"] in
  let headers :=
    SetHeaderValues headers (str "Connection") connectionTokens true in
  ret {| method := method request; request_headers := headers |}.

(** [WebSocket::FinishOpenAsClient] (lines 802-826). *)
Definition FinishOpenAsClient (connection_ : Connection)
           (response : Response H) : M bool :=
  if negb (statusCode response =? 101) then ret false
  else if negb (HasHeaderToken (response_headers response)
                               (str "Connection") (str "upgrade")) then
    ret false
  else if negb (bytes_eqb
                  (ToLower (GetHeaderValue (response_headers response)
                                           (str "Upgrade")))
                  (str "websocket")) then
    ret false
  else
    key_ <- get key;;
    if negb (bytes_eqb
               (GetHeaderValue (response_headers response)
                               (str "Sec-WebSocket-Accept"))
               (ComputeKeyAnswer key_)) then
      ret false
    else if negb (size (GetHeaderTokens (response_headers response)
                                        (str "Sec-WebSocket-Extensions"))
                  =? 0) then
      ret false
    else if negb (size (GetHeaderTokens (response_headers response)
                                        (str "Sec-WebSocket-Protocol"))
                  =? 0) then
      ret false
    else
      Open connection_ Role.Client;;
      ret true.

(** [WebSocket::OpenAsServer] (lines 828-868); the response is passed by
    reference and returned next to the result. *)
Definition OpenAsServer (connection_ : Connection) (request : Request H)
           (response : Response H) (trailer : bytes)
  : M (bool * Response H) :=
  let bad_request :=
    {| statusCode := 400; reasonPhrase := str "Bad Request";
       response_headers := response_headers response |} in
  if negb (bytes_eqb (method request) (str "GET")) then
    ret (false, response)
  else if negb (HasHeaderToken (request_headers request)
                               (str "Connection") (str "upgrade")) then
    ret (false, response)
  else if negb (bytes_eqb
                  (ToLower (GetHeaderValue (request_headers request)
                                           (str "Upgrade")))
                  (str "websocket")) then
    ret (false, response)
  else if negb (bytes_eqb
                  (GetHeaderValue (request_headers request)
                                  (str "Sec-WebSocket-Version"))
                  CURRENTLY_SUPPORTED_WEBSOCKET_VERSION) then
    ret (false, bad_request)
  else if negb (size trailer =? 0) then
    ret (false, bad_request)
  else
    modify (set_key (GetHeaderValue (request_headers request)
                                    (str "Sec-WebSocket-Key")));;
    key_ <- get key;;
    if negb (size (Base64_Decode key_) =? REQUIRED_WEBSOCKET_KEY_LENGTH) then
      ret (false, bad_request)
    else
      let headers := response_headers response in
      let connectionTokens := GetHeaderTokens headers (str "Connection") in
      let connectionTokens := connectionTokens ++ [str "upgrade"] in
      let headers :=
        SetHeaderValues headers (str "Connection") connectionTokens true in
      let headers := SetHeader headers (str "Upgrade") (str "websocket") in
      let headers :=
        SetHeader headers (str "Sec-WebSocket-Accept")
                  (ComputeKeyAnswer key_) in
      Open connection_ Role.Server;;
      ret (true, {| statusCode := 101;
                    reasonPhrase := str "Switching Protocols";
                    response_headers := headers |}).

End Handshake.

(** ** Reference instances of the consumed primitives

    The engine is verified for every UTF-8 validator, Base64 codec, hash
    and header container that meet the interfaces above.  The instances
    below follow RFC 3629, RFC 4648 and FIPS 180-4; they let the model run
    on concrete inputs. *)
Module Reference.

(** A scanner for well-formed UTF-8 (RFC 3629, section 4): [need] is the
    number of continuation octets still owed, [lo]..[hi] the range allowed
    for the next one. *)
Fixpoint utf8_scan (s : bytes) (need : nat) (lo hi : N) : bool :=
  match s with
  | [] => match need with O => true | S _ => false end
  | c :: rest =>
      let v := val c in
      match need with
      | O =>
          if v <? 0x80 then utf8_scan rest 0 0x80 0xBF
          else if (0xC2 <=? v) && (v <=? 0xDF) then utf8_scan rest 1 0x80 0xBF
          else if v =? 0xE0 then utf8_scan rest 2 0xA0 0xBF
          else if v =? 0xED then utf8_scan rest 2 0x80 0x9F
          else if (0xE1 <=? v) && (v <=? 0xEF) then utf8_scan rest 2 0x80 0xBF
          else if v =? 0xF0 then utf8_scan rest 3 0x90 0xBF
          else if (0xF1 <=? v) && (v <=? 0xF3) then utf8_scan rest 3 0x80 0xBF
          else if v =? 0xF4 then utf8_scan rest 3 0x80 0x8F
          else false
      | S n =>
          if (lo <=? v) && (v <=? hi) then utf8_scan rest n 0x80 0xBF
          else false
      end
  end.

Definition IsValidEncoding (s : bytes) : bool := utf8_scan s 0 0x80 0xBF.

(** Base64 (RFC 4648, section 4). *)
Definition alphabet : bytes :=
  str "ABCDEFGHIJKLMNOPQRSTUVWXYZabcdefghijklmnopqrstuvwxyz0123456789+/".

Definition digit (i : N) : uint8_t := nth (N.to_nat i) alphabet zero.

Fixpoint index_of (c : uint8_t) (l : bytes) (i : N) : option N :=
  match l with
  | [] => None
  | d :: rest => if (c =? d)%char then Some i else index_of c rest (i + 1)
  end.

Fixpoint Encode (s : bytes) : bytes :=
  match s with
  | [] => []
  | [a] =>
      let n := val a * 65536 in
      [digit (n / 262144); digit (n / 4096 mod 64); u8 0x3D; u8 0x3D]
  | [a; b] =>
      let n := val a * 65536 + val b * 256 in
      [digit (n / 262144); digit (n / 4096 mod 64); digit (n / 64 mod 64);
       u8 0x3D]
  | a :: b :: c :: rest =>
      let n := val a * 65536 + val b * 256 + val c in
      [digit (n / 262144); digit (n / 4096 mod 64); digit (n / 64 mod 64);
       digit (n mod 64)] ++ Encode rest
  end.

(** The sextets of an encoding, up to the first character outside the
    alphabet (the padding, in a well-formed encoding). *)
Fixpoint sextets (s : bytes) : list N :=
  match s with
  | [] => []
  | c :: rest =>
      match index_of c alphabet 0 with
      | Some i => i :: sextets rest
      | None => []
      end
  end.

Fixpoint group (v : list N) : bytes :=
  match v with
  | a :: b :: c :: d :: rest =>
      let n := a * 262144 + b * 4096 + c * 64 + d in
      [u8 (n / 65536); u8 (n / 256); u8 n] ++ group rest
  | [a; b; c] =>
      let n := a * 262144 + b * 4096 + c * 64 in
      [u8 (n / 65536); u8 (n / 256)]
  | [a; b] => [u8 ((a * 64 + b) / 16)]
  | _ => []
  end.

Definition Decode (s : bytes) : bytes := group (sextets s).

(** SHA-1 (FIPS 180-4) on 32-bit words. *)
Definition w32 (n : N) : N := n mod 2 ^ 32.

Definition rotl (k x : N) : N :=
  w32 (N.lor (N.shiftl x k) (N.shiftr x (32 - k))).

Definition be32 (b : bytes) : N :=
  fold_left (fun acc c => acc * 256 + val c) b 0.

Definition bytes_of_word (n : N) : bytes :=
  [u8 (N.shiftr n 24); u8 (N.shiftr n 16); u8 (N.shiftr n 8); u8 n].

Fixpoint words (n : nat) (b : bytes) : list N :=
  match n with
  | O => []
  | S n' => be32 (firstn 4 b) :: words n' (skipn 4 b)
  end.

(** The message schedule, newest word first. *)
Fixpoint schedule (n : nat) (w : list N) : list N :=
  match n with
  | O => w
  | S n' =>
      schedule n'
        (rotl 1 (N.lxor (N.lxor (nth 2 w 0) (nth 7 w 0))
                        (N.lxor (nth 13 w 0) (nth 15 w 0))) :: w)
  end.

Definition round (t : nat) (h : N * N * N * N * N) (w : N)
  : N * N * N * N * N :=
  let '(a, b, c, d, e) := h in
  let '(f, k) :=
    if Nat.ltb t 20 then
      (N.lor (N.land b c) (N.land (N.lnot b 32) d), 0x5A827999)
    else if Nat.ltb t 40 then
      (N.lxor (N.lxor b c) d, 0x6ED9EBA1)
    else if Nat.ltb t 60 then
      (N.lor (N.lor (N.land b c) (N.land b d)) (N.land c d), 0x8F1BBCDC)
    else
      (N.lxor (N.lxor b c) d, 0xCA62C1D6) in
  (w32 (rotl 5 a + f + e + k + w), a, rotl 30 b, c, d).

Fixpoint rounds (t : nat) (ws : list N) (h : N * N * N * N * N)
  : N * N * N * N * N :=
  match ws with
  | [] => h
  | w :: ws' => rounds (S t) ws' (round t h w)
  end.

Definition block (h : N * N * N * N * N) (b : bytes) : N * N * N * N * N :=
  let ws := rev (schedule 64 (rev (words 16 b))) in
  let '(h0, h1, h2, h3, h4) := h in
  let '(a, b', c, d, e) := rounds 0 ws h in
  (w32 (h0 + a), w32 (h1 + b'), w32 (h2 + c), w32 (h3 + d), w32 (h4 + e)).

Fixpoint blocks (n : nat) (b : bytes) (h : N * N * N * N * N)
  : N * N * N * N * N :=
  match n with
  | O => h
  | S n' => blocks n' (skipn 64 b) (block h (firstn 64 b))
  end.

Definition pad (m : bytes) : bytes :=
  let l := List.length m in
  let z := Nat.modulo (64 - Nat.modulo (l + 9) 64) 64 in
  let bits := 8 * N.of_nat l in
  m ++ [u8 0x80] ++ repeat zero z
    ++ bytes_of_word (N.shiftr bits 32) ++ bytes_of_word bits.

Definition Sha1 (m : bytes) : bytes :=
  let p := pad m in
  let '(a, b, c, d, e) :=
    blocks (Nat.div (List.length p) 64) p
           (0x67452301, 0xEFCDAB89, 0x98BADCFE, 0x10325476, 0xC3D2E1F0) in
  bytes_of_word a ++ bytes_of_word b ++ bytes_of_word c ++ bytes_of_word d
    ++ bytes_of_word e.

(** Message headers as a list of name and value lines.  Names are
    compared without regard to letter case; tokens are the pieces of a
    value between commas, lower-cased, without surrounding blanks. *)
Definition Headers : Type := list (bytes * bytes).

Definition same_name (a b : bytes) : bool := bytes_eqb (ToLower a) (ToLower b).

Fixpoint get_value (h : Headers) (n : bytes) : bytes :=
  match h with
  | [] => []
  | (n', v) :: rest => if same_name n' n then v else get_value rest n
  end.

Fixpoint set_value (h : Headers) (n v : bytes) : Headers :=
  match h with
  | [] => [(n, v)]
  | (n', v') :: rest =>
      if same_name n' n then (n', v) :: rest
      else (n', v') :: set_value rest n v
  end.

Fixpoint split (s : bytes) : list bytes :=
  match s with
  | [] => [[]]
  | c :: rest =>
      if val c =? 0x2C then [] :: split rest
      else match split rest with
           | [] => [[c]]
           | w :: ws => (c :: w) :: ws
           end
  end.

Fixpoint join (vs : list bytes) : bytes :=
  match vs with
  | [] => []
  | [v] => v
  | v :: rest => v ++ u8 0x2C :: join rest
  end.

Definition blank (c : uint8_t) : bool := (val c =? 0x20) || (val c =? 0x09).

Fixpoint drop_blanks (s : bytes) : bytes :=
  match s with
  | [] => []
  | c :: rest => if blank c then drop_blanks rest else s
  end.

Definition trim (s : bytes) : bytes :=
  rev (drop_blanks (rev (drop_blanks s))).

Definition nonempty (s : bytes) : bool :=
  match s with [] => false | _ :: _ => true end.

Definition tokens (v : bytes) : list bytes :=
  filter nonempty (map (fun w => ToLower (trim w)) (split v)).

#[global] Instance headers : MessageHeaders Headers := {
  GetHeaderValue := get_value;
  GetHeaderTokens := fun h n => tokens (get_value h n);
  HasHeaderToken := fun h n t => existsb (bytes_eqb t) (tokens (get_value h n));
  SetHeader := set_value;
  SetHeaderValues := fun h n vs _ => set_value h n (join vs)
}.

End Reference.

(** ** The frame layout in the words of the specification

    Section 4.1: octet 0 is FIN, RSV1..3 and the opcode; octet 1 is MASK and
    a 7-bit length; an extended length of 2 or 8 octets, big-endian,
    follows the markers 126 and 127; then the masking key, if any, and the
    payload, XOR-ed with [key[i mod 4]] when masked. *)

(** The [n] low octets of [v], most significant first. *)
Fixpoint big_endian (n : nat) (v : N) : bytes :=
  match n with
  | O => []
  | S n' => u8 (N.shiftr v (8 * N.of_nat n')) :: big_endian n' v
  end.

(** The shortest length field for a payload of [L] octets. *)
Definition wire_length (masked : bool) (L : N) : bytes :=
  let m := if masked then 0x80 else 0 in
  if L <? 126 then [u8 (m + L)]
  else if L <? 65536 then u8 (m + 126) :: big_endian 2 L
  else u8 (m + 127) :: big_endian 8 L.

(** A whole frame. *)
Definition wire_frame (fin : bool) (opcode : uint8_t)
           (maskingKey : option bytes) (payload : bytes) : bytes :=
  [u8 ((if fin then 0x80 else 0) + val opcode)]
  ++ wire_length (match maskingKey with Some _ => true | None => false end)
                 (size payload)
  ++ match maskingKey with
     | Some k => k ++ mask_payload k 0 payload
     | None => payload
     end.

(** The masking key the next [SendFrame] of a client draws. *)
Definition next_key (s : Impl) : bytes := map (rng s) (seq 0 4).

(** The frame the next [SendFrame] puts on the wire. *)
Definition next_frame (s : Impl) (fin : bool) (opcode : uint8_t)
           (payload : bytes) : bytes :=
  wire_frame fin opcode
             (if Role.eqb (role s) Role.Client then Some (next_key s)
              else None)
             payload.

(** The calls made on the connection so far; none on a null connection. *)
Definition calls_of (s : Impl) : list ConnectionCall :=
  match connection s with
  | Some c => calls c
  | None => []
  end.

(** ** Views used to state the properties *)

(** The state after [connection->SendData(frame)]. *)
Definition after_SendData (frame : bytes) (s : Impl) : Impl :=
  match connection s with
  | Some c =>
      set_connection (Some {| peerId := peerId c;
                              calls := calls c ++ [SendData frame] |}) s
  | None => s
  end.

(** The state after [SendFrame(fin, opcode, payload)]: a client has drawn
    four octets from the generator. *)
Definition after_SendFrame (fin : bool) (opcode : uint8_t) (payload : bytes)
           (s : Impl) : Impl :=
  after_SendData (next_frame s fin opcode payload)
                 (if Role.eqb (role s) Role.Client
                  then set_rng (fun i => rng s (4 + i)%nat) s else s).

(** The payload of the close frame which [Close(code, reason)] sends. *)
Definition close_payload (code : N) (reason : bytes) : bytes :=
  if code =? 1005 then []
  else u8 (N.shiftr code 8) :: u8 (N.land code 0xFF) :: reason.

(** The state after [connection->Break(clean)]. *)
Definition after_Break (clean : bool) (s : Impl) : Impl :=
  match connection s with
  | Some c =>
      set_connection (Some {| peerId := peerId c;
                              calls := calls c ++ [Break clean] |}) s
  | None => s
  end.

(** The state after [OnClose(code, reason)]. *)
Definition after_OnClose (code : N) (reason : bytes) (s : Impl) : Impl :=
  let s1 :=
    set_eventQueue
      (eventQueue s ++ [Event.Build Event.Close reason (Some code)])
      (set_closeReceived true s) in
  if closeSent s then after_Break false s1 else s1.

(** The state after a first [Close(code, reason, fail)] on a bound
    connection. *)
Definition after_Close (code : N) (reason : bytes) (fail : bool) (s : Impl)
  : Impl :=
  let s1 := set_closeSent true s in
  if code =? 1006 then after_OnClose code reason s1
  else
    let s2 :=
      after_SendFrame true OPCODE_CLOSE (close_payload code reason) s1 in
    let s3 :=
      if fail then after_OnClose code reason s2
      else if closeReceived s2 then after_Break true s2 else s2 in
    set_diagnosticsSender
      (diagnosticsSender s3
       ++ [(1, str "Connection to "
               ++ c_str (match connection s with
                         | Some c => peerId c
                         | None => []
                         end)
               ++ str " closed (" ++ c_str reason ++ str ")")])
      s3.

(** The frame at the head of the buffer as [ReceiveFrame] reads it, when it
    gets as far as the [switch]: close not yet received, reserved bits
    clear, masked exactly when the engine is the server.  The result is the
    FIN flag, the opcode and the payload. *)
Definition received_frame (s : Impl) (headerLength payloadLength : N)
  : option (bool * uint8_t * bytes) :=
  if closeReceived s then None
  else
    match at_ (frameReassemblyBuffer s) 0, at_ (frameReassemblyBuffer s) 1 with
    | Some b0, Some b1 =>
        if negb (N.land (N.shiftr (val b0) 4) 0x07 =? 0) then None
        else if Bool.eqb (negb (N.land (val b1) (val MASK) =? 0))
                         (Role.eqb (role s) Role.Server) then
          match frame_payload (role s) (frameReassemblyBuffer s)
                              headerLength payloadLength with
          | Some data =>
              Some (negb (N.land (val b0) (val FIN) =? 0),
                    u8 (N.land (val b0) 0x0F), data)
          | None => None
          end
        else None
    | _, _ => None
    end.

(** What a first [Close(code, reason, true)] with a code other than 1006
    does, seen from outside: the close frame goes out, the close is
    reported at once, and the transport is broken without a clean
    shutdown. *)
Definition closed_with (code : N) (reason : bytes) (s s' : Impl) : Prop :=
  closeSent s' = true
  /\ closeReceived s' = true
  /\ eventQueue s'
     = eventQueue s ++ [Event.Build Event.Close reason (Some code)]
  /\ calls_of s'
     = calls_of s
       ++ [SendData (next_frame s true OPCODE_CLOSE (close_payload code reason));
           Break false]
  /\ (exists c, connection s = Some c
       /\ diagnosticsSender s'
          = diagnosticsSender s
            ++ [(1, str "Connection to " ++ c_str (peerId c)
                    ++ str " closed (" ++ c_str reason ++ str ")")]).

(** A change of the state applied to the outcome of a call. *)
Definition map_state {A : Type} (f : Impl -> Impl) (r : result A) : result A :=
  match r with
  | Ok a s => Ok a (f s)
  | Undefined => Undefined
  | OutOfFuel => OutOfFuel
  end.

(** The error rows of the receive table of section 4.3: a Text or Binary
    frame while a message is being received, and a Continuation frame while
    none is.  The result is the diagnostic and the state in which the
    engine closes (a stray continuation has just been dropped from the
    message buffer). *)
Definition receive_error (s : Impl) (opcode : uint8_t)
  : option (bytes * Impl) :=
  match receiving s with
  | FragmentedMessageType.None =>
      if (opcode =? OPCODE_CONTINUATION)%char then
        Some (str "unexpected continuation frame",
              set_messageReassemblyBuffer [] s)
      else None
  | _ =>
      if (opcode =? OPCODE_TEXT)%char || (opcode =? OPCODE_BINARY)%char then
        Some (str "last message incomplete", s)
      else None
  end.

(** The text message which a final frame completes: the payload of an
    unfragmented Text frame, or the fragments gathered so far followed by
    the payload of the closing Continuation frame.  The state is the one the
    message is handed over in, the assembler being reset in the second
    case. *)
Definition completed_text (s : Impl) (opcode : uint8_t) (data : bytes)
  : option (bytes * Impl) :=
  if (opcode =? OPCODE_TEXT)%char then
    match receiving s with
    | FragmentedMessageType.None => Some (data, s)
    | _ => None
    end
  else if (opcode =? OPCODE_CONTINUATION)%char then
    match receiving s with
    | FragmentedMessageType.Text =>
        Some (messageReassemblyBuffer s ++ data,
              set_messageReassemblyBuffer []
                (set_receiving FragmentedMessageType.None s))
    | _ => None
    end
  else None.

(** What every operation of the engine keeps: the configuration, the role
    and the handshake key stay as they are, a close flag once set stays
    set, the event queue, the calls on the connection and the published
    diagnostics only grow, and the connection stays bound to the same
    peer, or null. *)
Definition extends (s s' : Impl) : Prop :=
  configuration s' = configuration s
  /\ role s' = role s
  /\ key s' = key s
  /\ delegatesSet s' = delegatesSet s
  /\ (closeSent s = true -> closeSent s' = true)
  /\ (closeReceived s = true -> closeReceived s' = true)
  /\ (exists events, eventQueue s' = eventQueue s ++ events)
  /\ (exists made, calls_of s' = calls_of s ++ made)
  /\ (exists published,
         diagnosticsSender s' = diagnosticsSender s ++ published)
  /\ match connection s with
     | Some c => exists c', connection s' = Some c' /\ peerId c' = peerId c
     | None => connection s' = None
     end.

(** A member function preserves a relation when every state it returns in
    is related to the one it started in. *)
Definition preserves {A : Type} (R : Impl -> Impl -> Prop) (m : M A) : Prop :=
  forall s a s', m s = Ok a s' -> R s s'.

(** A member function keeps [extends] when every state it reaches extends
    the one it started in. *)
Definition keeps {A : Type} (m : M A) : Prop :=
  forall s a s', m s = Ok a s' -> extends s s'.

(** The frame buffer is left alone. *)
Definition same_buffer (s s' : Impl) : Prop :=
  frameReassemblyBuffer s' = frameReassemblyBuffer s.

(** What every member function but [ReceiveData] keeps. *)
Definition extends_in_place (s s' : Impl) : Prop :=
  extends s s' /\ same_buffer s s'.

(** Where the loop of [ReceiveData] returns at once: fewer than two octets,
    an extended length not yet complete, or a frame not yet complete. *)
Definition incomplete (buffer : bytes) : bool :=
  (size buffer <? 2)
  || match frame_lengths buffer with
     | None => true
     | Some (headerLength, payloadLength) =>
         size buffer <? add64 headerLength payloadLength
     end.

(** The test of [ReceiveData] against [maxFrameSize] (lines 684-690). *)
Definition too_large (s : Impl) (data : bytes) : bool :=
  (0 <? maxFrameSize (configuration s))
  && (maxFrameSize (configuration s)
      <? add64 (size (frameReassemblyBuffer s)) (size data)).

(** Whether a queued event is a [Close] event, and not one of the kinds a
    received message or control frame gives rise to. *)
Definition is_close (event : Event.t) : bool :=
  match Event.type event with
  | Event.Close => true
  | _ => false
  end.

(** Once the peer's close has been received, it stays received and every
    event queued from then on is a close event. *)
Definition after_peer_close (s s' : Impl) : Prop :=
  closeReceived s = true ->
  closeReceived s' = true
  /\ exists events,
      eventQueue s' = eventQueue s ++ events
      /\ forallb is_close events = true.

(** The status code and the reason which [ReceiveFrame] takes from the
    payload of a close frame (lines 624-632). *)
Definition received_close (data : bytes) : N * bytes :=
  if 2 <=? size data then
    (N.land (N.shiftl (val (nth 0 data zero)) 8) 0xFF00
     + N.land (val (nth 1 data zero)) 0x00FF,
     skipn 2 data)
  else (1005, []).

(** An operation is defined on a bound engine: it returns, and leaves the
    engine bound. *)
Definition defined {A : Type} (m : M A) : Prop :=
  forall s c, connection s = Some c ->
              exists a s' c', m s = Ok a s' /\ connection s' = Some c'.

(** A frame header which announces, behind its first octet, in the 64-bit
    form, a payload of [2^64 - 10] octets: with the 10 octets of the header
    the length of the frame comes to zero in [size_t]. *)
Definition wrapping_header (b0 : uint8_t) : bytes :=
  b0 :: u8 0x7F :: big_endian 8 (SIZE_MAX1 - 10).

(** An operation does not look at the frame buffer: with another buffer it
    does the same and leaves that buffer in place. *)
Definition ignores_buffer {A : Type} (m : M A) : Prop :=
  forall b s, m (set_frameReassemblyBuffer b s)
              = map_state (set_frameReassemblyBuffer b) (m s).

(** An event that may be handed to the text delegate: a [Text] event is
    well formed when its content is valid UTF-8. *)
Definition well_formed (IsValidEncoding : bytes -> bool) (event : Event.t)
  : bool :=
  match Event.type event with
  | Event.Text => IsValidEncoding (Event.content event)
  | _ => true
  end.

(** From [s] to [s'] events were only added to the queue, all of them well
    formed. *)
Definition queues_well_formed (IsValidEncoding : bytes -> bool)
           (s s' : Impl) : Prop :=
  exists events,
    eventQueue s' = eventQueue s ++ events
    /\ forallb (well_formed IsValidEncoding) events = true.

(** What the engine may still do to its connection once it has sent its
    close: answer a ping with a pong frame (first octet [0x8A]), and break
    the transport with [Break(false)]. *)
Definition pong_or_break (call : ConnectionCall) : bool :=
  match call with
  | SendData frame =>
      match frame with
      | b0 :: _ => val b0 =? 0x8A
      | [] => false
      end
  | Break clean => negb clean
  end.

(** Once the engine's close has been sent, it stays sent and every call
    made on the connection from then on is one of those. *)
Definition after_own_close (s s' : Impl) : Prop :=
  closeSent s = true ->
  closeSent s' = true
  /\ exists made,
      calls_of s' = calls_of s ++ made
      /\ forallb pong_or_break made = true.

(** *** The critical sections

    What each public operation does while it holds the mutex, without the
    dispatch that follows.  These are views for the proofs: an operation is
    its critical section followed, unless it returned early, by
    [ProcessEventQueue]. *)

(** [WebSocket::Close] up to [lock.unlock()] (lines 903-908). *)
Definition WebSocket_Close_locked (code : N) (reason : bytes) : M unit :=
  c <- get connection;;
  match c with
  | None => ret tt
  | Some _ => Close code reason false
  end.

(** [WebSocket::Ping] up to [lock.unlock()] (lines 913-924). *)
Definition Ping_locked (data : bytes) : M unit :=
  c <- get connection;;
  match c with
  | None => ret tt
  | Some _ =>
      closeSent_ <- get closeSent;;
      if (closeSent_ : bool) then ret tt
      else if MAX_CONTROL_FRAME_DATA_LENGTH <? size data then ret tt
      else SendFrame true OPCODE_PING data
  end.

(** [WebSocket::Pong] up to [lock.unlock()] (lines 929-940). *)
Definition Pong_locked (data : bytes) : M unit :=
  c <- get connection;;
  match c with
  | None => ret tt
  | Some _ =>
      closeSent_ <- get closeSent;;
      if (closeSent_ : bool) then ret tt
      else if MAX_CONTROL_FRAME_DATA_LENGTH <? size data then ret tt
      else SendFrame true OPCODE_PONG data
  end.

(** [WebSocket::SendText] up to [lock.unlock()] (lines 948-969). *)
Definition SendText_locked (data : bytes) (lastFragment : bool) : M unit :=
  c <- get connection;;
  match c with
  | None => ret tt
  | Some _ =>
      closeSent_ <- get closeSent;;
      if (closeSent_ : bool) then ret tt
      else
        sending_ <- get sending;;
        match sending_ with
        | FragmentedMessageType.Binary => ret tt
        | _ =>
            let opcode :=
              match sending_ with
              | FragmentedMessageType.Text => OPCODE_CONTINUATION
              | _ => OPCODE_TEXT
              end in
            SendFrame lastFragment opcode data;;
            modify (set_sending (if lastFragment
                                 then FragmentedMessageType.None
                                 else FragmentedMessageType.Text))
        end
  end.

(** [WebSocket::SendBinary] up to [lock.unlock()] (lines 977-998). *)
Definition SendBinary_locked (data : bytes) (lastFragment : bool) : M unit :=
  c <- get connection;;
  match c with
  | None => ret tt
  | Some _ =>
      closeSent_ <- get closeSent;;
      if (closeSent_ : bool) then ret tt
      else
        sending_ <- get sending;;
        match sending_ with
        | FragmentedMessageType.Text => ret tt
        | _ =>
            let opcode :=
              match sending_ with
              | FragmentedMessageType.Binary => OPCODE_CONTINUATION
              | _ => OPCODE_BINARY
              end in
            SendFrame lastFragment opcode data;;
            modify (set_sending (if lastFragment
                                 then FragmentedMessageType.None
                                 else FragmentedMessageType.Binary))
        end
  end.

Definition perform_locked (IsValidEncoding : bytes -> bool) (op : Operation)
  : M unit :=
  match op with
  | DoClose code reason => WebSocket_Close_locked code reason
  | DoPing data => Ping_locked data
  | DoPong data => Pong_locked data
  | DoSendText data lastFragment => SendText_locked data lastFragment
  | DoSendBinary data lastFragment => SendBinary_locked data lastFragment
  | DataReceived data => ReceiveData IsValidEncoding data
  | Broken => ConnectionBroken
  end.

(** Whether an operation started in [s] gets as far as the dispatch. *)
Definition dispatches (op : Operation) (s : Impl) : bool :=
  match connection s, op with
  | _, DataReceived _ | _, Broken => true
  | None, _ => false
  | Some _, DoClose _ _ => true
  | Some _, DoPing data | Some _, DoPong data =>
      negb (closeSent s) && negb (MAX_CONTROL_FRAME_DATA_LENGTH <? size data)
  | Some _, DoSendText _ _ =>
      negb (closeSent s)
      && match sending s with
         | FragmentedMessageType.Binary => false
         | _ => true
         end
  | Some _, DoSendBinary _ _ =>
      negb (closeSent s)
      && match sending s with
         | FragmentedMessageType.Text => false
         | _ => true
         end
  end.

(** The dispatch after a critical section which ended in [r]. *)
Definition then_dispatch (reached : bool) (delegates : Delegates)
           (r : result unit) : result (list DelegateCall) :=
  match r with
  | Ok _ s => if reached then ProcessEventQueue delegates s else Ok [] s
  | Undefined => Undefined
  | OutOfFuel => OutOfFuel
  end.

(** What a dispatch makes of the state [s1] in which the critical section
    ended: nothing, or the whole queue is handed over. *)
Definition dispatched (delegates : Delegates) (s1 : Impl)
           (calls : list DelegateCall) (s' : Impl) : Prop :=
  (calls = [] /\ s' = s1)
  \/ (delegatesSet s1 = true
      /\ calls = deliver delegates (eventQueue s1)
      /\ s' = set_eventQueue [] s1).

(** *** Traces with dispatch *)


(** The events of a trace from [s] to [s']: [events] were queued behind
    those the queue held; the ones in front were handed to the
    delegates, in queue order, which made the calls [calls], and the others
    are still queued.  Nothing is handed over while [delegatesSet] is
    false. *)
Definition delivers (delegates : Delegates) (s : Impl)
           (events : list Event.t) (calls : list DelegateCall) (s' : Impl)
  : Prop :=
  exists delivered,
    delivered ++ eventQueue s' = eventQueue s ++ events
    /\ calls = deliver delegates delivered
    /\ (delegatesSet s = false -> delivered = []).

(** ** Example states *)

Module Example.

Definition peer : Connection := {| peerId := str "peer"; calls := [] |}.

(** A freshly opened engine whose generator counts up from 0x37. *)
Definition opened (role_ : Role.t) : Impl :=
  {| configuration := {| maxFrameSize := 0 |};
     diagnosticsSender := [];
     eventQueue := [];
     connection := Some peer;
     role := role_;
     key := [];
     closeSent := false;
     closeReceived := false;
     sending := FragmentedMessageType.None;
     receiving := FragmentedMessageType.None;
     delegatesSet := false;
     frameReassemblyBuffer := [];
     messageReassemblyBuffer := [];
     rng := fun i => u8 (0x37 + N.of_nat i) |}.

(** The same engine with a frame in its buffer. *)
Definition holding (role_ : Role.t) (frame : list N) : Impl :=
  set_frameReassemblyBuffer (map u8 frame) (opened role_).

(** A request and a response without headers. *)
Definition request0 : Request Reference.Headers :=
  {| method := str "GET"; request_headers := [] |}.

Definition response0 : Response Reference.Headers :=
  {| statusCode := 0; reasonPhrase := []; response_headers := [] |}.

(** An engine in the middle of a fragmented text message, with an
    unfragmented Text frame in its buffer. *)
Definition mid_text : Impl :=
  set_receiving FragmentedMessageType.Text (holding Role.Client [0x01; 0x00]).

(** A client holding a close frame with status 1000 and no reason. *)
Definition closing : Impl := holding Role.Client [0x88; 0x02; 0x03; 0xE8].

(** A client holding a text frame whose payload, C3 28, is not UTF-8. *)
Definition bad_text : Impl := holding Role.Client [0x81; 0x02; 0xC3; 0x28].

(** A server which accepts at most 100 buffered octets. *)
Definition capped : Impl :=
  set_configuration {| maxFrameSize := 100 |} (opened Role.Server).

(** A server holding a masked Ping frame with FIN clear: the key is
    01 02 03 04 and the three masked octets 60 60 60 stand for "abc". *)
Definition masked_ping : Impl :=
  holding Role.Server [0x09; 0x83; 0x01; 0x02; 0x03; 0x04; 0x60; 0x60; 0x60].

(** The octets 0, 1, ..., 125. *)
Definition counting : list N := map N.of_nat (seq 0 126).

(** A client holding an unmasked Ping frame with FIN clear and 126 octets
    of payload, more than a control frame may carry. *)
Definition long_ping : Impl :=
  holding Role.Client ([0x09; 0x7E; 0x00; 0x7E] ++ counting).

(** A client whose generator yields the 16 octets of the nonce of RFC 6455,
    section 1.3, "the sample nonce". *)
Definition rfc_client : Impl :=
  set_rng (fun i => nth i (str "the sample nonce") zero) (opened Role.Client).

(** A server which has received the peer's close and not yet sent its
    own. *)
Definition peer_closed : Impl := set_closeReceived true (opened Role.Server).

(** A client which has sent its close and now holds the peer's close
    frame, without payload. *)
Definition close_sent : Impl :=
  set_closeSent true (holding Role.Client [0x88; 0x00]).


(** Every delegate set. *)
Definition all_delegates : Delegates :=
  {| text := true; binary := true; ping := true; pong := true;
     close := true |}.

(** A session of a server: it starts a fragmented text message, is pinged,
    finishes the message, closes, receives the peer's close and is told
    that the connection is gone. *)
Definition session : list Operation :=
  [DoSendText (str "Hel") false;
   DataReceived (next_frame (opened Role.Client) true OPCODE_PING (str "abc"));
   DoSendText (str "lo") true;
   DoClose 1000 (str "bye");
   DataReceived (next_frame (opened Role.Client) true OPCODE_CLOSE
                            (close_payload 1000 []));
   Broken].

(** What may still happen once the peer has closed: more data arrives, and
    the application sends and closes. *)
Definition late_session : list Operation :=
  [DataReceived (next_frame (opened Role.Client) true OPCODE_TEXT (str "late"));
   DoSendText (str "x") true;
   DoClose 1000 []].

(** An engine whose delegates are set while one event is still queued. *)
Definition listening (role_ : Role.t) : Impl :=
  set_delegatesSet true
    (set_eventQueue [Event.Build Event.Text (str "hi") None] (opened role_)).

(** What a client receives from a peer that sends one text message and
    then one which is not UTF-8. *)
Definition chat : list Operation :=
  [DataReceived (map u8 [0x81; 0x02; 0x68; 0x69]);
   DataReceived (map u8 [0x81; 0x02; 0xC3; 0x28])].

(** A client which has sent its close, and what may still happen to it:
    a ping arrives, the application pings, the peer's close arrives, and
    the connection breaks. *)
Definition closed : Impl := set_closeSent true (opened Role.Client).

Definition closed_session : list Operation :=
  [DataReceived (map u8 [0x89; 0x01; 0x61]);
   DoPing (str "x");
   DataReceived (map u8 [0x88; 0x00]);
   Broken].

End Example.
(** * Properties *)

Ltac Zify.zify_post_hook ::= Z.to_euclidean_division_equations.

(** ** Octets *)

Lemma u8_testbit (n : N) :
  u8 n = Ascii (N.testbit n 0) (N.testbit n 1) (N.testbit n 2) (N.testbit n 3)
               (N.testbit n 4) (N.testbit n 5) (N.testbit n 6) (N.testbit n 7).
Proof.
  destruct n as [|p]; [reflexivity|].
  unfold u8, ascii_of_N.
  do 8 (destruct p as [p|p|]; try reflexivity).
Qed.

Lemma u8_mod (n : N) : u8 (n mod 256) = u8 n.
Proof.
  rewrite (u8_testbit n), (u8_testbit (n mod 256)).
  change 256 with (2 ^ 8).
  rewrite !N.mod_pow2_bits_low by lia. reflexivity.
Qed.

Lemma val_lt (a : uint8_t) : val a < 256.
Proof. apply N_ascii_bounded. Qed.

Lemma val_u8 (n : N) : val (u8 n) = n mod 256.
Proof.
  rewrite <- u8_mod. apply N_ascii_embedding. apply N.mod_lt. lia.
Qed.

Lemma val_u8_small (n : N) : n < 256 -> val (u8 n) = n.
Proof. intro. rewrite val_u8. apply N.mod_small. assumption. Qed.

Lemma u8_val (a : uint8_t) : u8 (val a) = a.
Proof. apply ascii_N_embedding. Qed.

Lemma land_255 (n : N) : N.land n 0xFF = n mod 256.
Proof. change 0xFF with (N.ones 8). rewrite N.land_ones. reflexivity. Qed.

Lemma u8_land_255 (n : N) : u8 (N.land n 0xFF) = u8 n.
Proof. rewrite land_255. apply u8_mod. Qed.

Lemma lxor_lt_256 (a b : N) : a < 256 -> b < 256 -> N.lxor a b < 256.
Proof.
  intros Ha Hb.
  assert (E : N.lxor a b mod 2 ^ 8 = N.lxor a b).
  { apply N.bits_inj. intro i.
    destruct (N.lt_ge_cases i 8) as [Hi|Hi].
    - rewrite N.mod_pow2_bits_low by assumption. reflexivity.
    - rewrite N.mod_pow2_bits_high by assumption.
      rewrite N.lxor_spec.
      rewrite <- (N.mod_small a (2 ^ 8)), <- (N.mod_small b (2 ^ 8))
        by assumption.
      rewrite !N.mod_pow2_bits_high by assumption. reflexivity. }
  rewrite <- E. apply N.mod_lt. discriminate.
Qed.

Lemma xor8_involutive (a k : uint8_t) : xor8 (xor8 a k) k = a.
Proof.
  unfold xor8.
  rewrite val_u8_small by (apply lxor_lt_256; apply val_lt).
  rewrite N.lxor_assoc, N.lxor_nilpotent, N.lxor_0_r. apply u8_val.
Qed.

Lemma mask_payload_involutive (k p : bytes) :
  forall i, mask_payload k i (mask_payload k i p) = p.
Proof.
  induction p as [|c p IH]; intro i; simpl; [reflexivity|].
  rewrite xor8_involutive, IH. reflexivity.
Qed.

Lemma mask_payload_length (k p : bytes) :
  forall i, List.length (mask_payload k i p) = List.length p.
Proof.
  induction p as [|c p IH]; intro i; simpl; [|rewrite IH]; reflexivity.
Qed.

(** ** Running the monad *)

Ltac run :=
  cbv beta iota zeta delta
    [bind ret get modify lift undefined timeout
     connection_SendData connection_Break connection_GetPeerId
     SendDiagnosticInformationFormatted rng_Generate eventQueue_push].

Ltac fields :=
  cbn [configuration diagnosticsSender eventQueue connection role key closeSent
       closeReceived sending receiving delegatesSet frameReassemblyBuffer
       messageReassemblyBuffer rng peerId calls
       set_configuration set_diagnosticsSender set_eventQueue set_connection
       set_role set_key set_closeSent set_closeReceived set_sending
       set_receiving set_frameReassemblyBuffer set_messageReassemblyBuffer
       set_rng].

(** ** [SendFrame] and [Close] in closed form *)

Lemma SendFrame_spec (fin : bool) (opcode : uint8_t) (payload : bytes)
      (s : Impl) (c : Connection) :
  connection s = Some c ->
  SendFrame fin opcode payload s = Ok tt (after_SendFrame fin opcode payload s).
Proof.
  intro Hc.
  unfold SendFrame, after_SendFrame, after_SendData, next_frame, wire_frame,
    wire_length, next_key.
  run.
  destruct (role s) eqn:Hr; cbn [Role.eqb].
  - change (val MASK =? 0) with false. cbv beta iota.
    cbn [connection set_rng]. rewrite Hc.
    destruct (size payload <? 126) eqn:H1;
      [|destruct (size payload <? 65536) eqn:H2].
    + apply N.ltb_lt in H1.
      rewrite (val_u8_small (size payload)) by lia.
      rewrite (N.add_comm (size payload)). reflexivity.
    + cbn [big_endian]. rewrite !u8_land_255. reflexivity.
    + cbn [big_endian]. rewrite !u8_land_255. reflexivity.
  - change (val (u8 0) =? 0) with true. cbv beta iota.
    rewrite Hc.
    destruct (size payload <? 126) eqn:H1;
      [|destruct (size payload <? 65536) eqn:H2].
    + apply N.ltb_lt in H1.
      rewrite (val_u8_small (size payload)) by lia.
      rewrite N.add_0_r. reflexivity.
    + cbn [big_endian]. rewrite !u8_land_255. reflexivity.
    + cbn [big_endian]. rewrite !u8_land_255. reflexivity.
Qed.

Lemma SendFrame_null (fin : bool) (opcode : uint8_t) (payload : bytes)
      (s : Impl) :
  connection s = None -> SendFrame fin opcode payload s = Undefined.
Proof.
  intro Hc. unfold SendFrame. run.
  destruct (role s); cbn [Role.eqb].
  - change (val MASK =? 0) with false. cbv beta iota.
    cbn [connection set_rng]. rewrite Hc. reflexivity.
  - change (val (u8 0) =? 0) with true. cbv beta iota.
    rewrite Hc. reflexivity.
Qed.

Lemma after_SendFrame_fields fin opcode payload s c :
  connection s = Some c ->
  connection (after_SendFrame fin opcode payload s)
  = Some {| peerId := peerId c;
            calls := calls c ++ [SendData (next_frame s fin opcode payload)] |}
  /\ closeSent (after_SendFrame fin opcode payload s) = closeSent s
  /\ closeReceived (after_SendFrame fin opcode payload s) = closeReceived s
  /\ eventQueue (after_SendFrame fin opcode payload s) = eventQueue s
  /\ diagnosticsSender (after_SendFrame fin opcode payload s)
     = diagnosticsSender s.
Proof.
  intro Hc. unfold after_SendFrame, after_SendData.
  destruct (Role.eqb (role s) Role.Client); fields; rewrite Hc; fields; auto.
Qed.

Lemma close_payload_eq (code : N) (reason : bytes) :
  (if negb (code =? 1005)
   then ([] ++ [u8 (N.shiftr code 8)] ++ [u8 (N.land code 255)]) ++ reason
   else []) = close_payload code reason.
Proof. unfold close_payload. destruct (code =? 1005); reflexivity. Qed.

Lemma Close_again (code : N) (reason : bytes) (fail : bool) (s : Impl) :
  closeSent s = true -> Close code reason fail s = Ok tt s.
Proof. intro E. unfold Close. run. rewrite E. reflexivity. Qed.

Lemma Close_fail_spec (code : N) (reason : bytes) (s : Impl) (c : Connection) :
  connection s = Some c -> closeSent s = false -> code <> 1006 ->
  exists s', Close code reason true s = Ok tt s'
             /\ closed_with code reason s s'
             /\ receiving s' = receiving s
             /\ sending s' = sending s
             /\ messageReassemblyBuffer s' = messageReassemblyBuffer s
             /\ frameReassemblyBuffer s' = frameReassemblyBuffer s.
Proof.
  intros Hc Hs Hcode.
  unfold Close. run. rewrite Hs. cbv beta iota.
  apply N.eqb_neq in Hcode. rewrite Hcode. cbv beta iota.
  rewrite close_payload_eq.
  rewrite (SendFrame_spec _ _ _ _ c) by (fields; exact Hc).
  cbv beta iota.
  unfold OnClose. run.
  unfold after_SendFrame, after_SendData.
  destruct (Role.eqb (role (set_closeSent true s)) Role.Client) eqn:Hr;
    fields; rewrite Hc; fields; cbv beta iota; fields.
  all: eexists; split; [reflexivity|].
  all: unfold closed_with, calls_of; fields; rewrite ?Hc.
  all: rewrite <- app_assoc; cbn [app].
  all: repeat split; eauto.
Qed.

(** ** [Close] does not look at the message assembler *)

Ltac close_cases s :=
  unfold Close, OnClose, SendFrame; run; fields;
  destruct (closeSent s); [reflexivity|]; cbv beta iota;
  match goal with |- context [?c =? 1006] => destruct (c =? 1006) end;
  cbv beta iota; fields;
  destruct (role s); cbn [Role.eqb];
  try change (val MASK =? 0) with false;
  try change (val (u8 0) =? 0) with true;
  cbv beta iota; fields;
  destruct (connection s); cbv beta iota; fields; try reflexivity;
  match goal with |- context [if ?f then _ else _] => destruct f end;
  cbv beta iota; fields; try reflexivity;
  destruct (closeReceived s); cbv beta iota; fields; reflexivity.

Lemma Close_set_messageReassemblyBuffer code reason fail v s :
  Close code reason fail (set_messageReassemblyBuffer v s)
  = map_state (set_messageReassemblyBuffer v) (Close code reason fail s).
Proof. unfold map_state. close_cases s. Qed.

Lemma Close_set_receiving code reason fail v s :
  Close code reason fail (set_receiving v s)
  = map_state (set_receiving v) (Close code reason fail s).
Proof. unfold map_state. close_cases s. Qed.

Lemma land_7 (n : N) : N.land n 0x07 = n mod 8.
Proof. change 0x07 with (N.ones 3). rewrite N.land_ones. reflexivity. Qed.

Lemma ReceiveFrame_received IsValid (s : Impl) (hl pl : N) fin opcode data :
  received_frame s hl pl = Some (fin, opcode, data) ->
  ReceiveFrame IsValid hl pl s = ReceiveFrame_switch IsValid fin opcode data s.
Proof.
  unfold received_frame, ReceiveFrame. run.
  destruct (closeReceived s); [discriminate|].
  destruct (at_ (frameReassemblyBuffer s) 0) as [b0|]; [|discriminate].
  destruct (at_ (frameReassemblyBuffer s) 1) as [b1|]; [|discriminate].
  cbv beta iota.
  rewrite val_u8_small
    by (rewrite land_7; pose proof (N.mod_lt (N.shiftr (val b0) 4) 8); lia).
  destruct (negb (N.land (N.shiftr (val b0) 4) 7 =? 0)); [discriminate|].
  destruct (negb (N.land (val b1) (val MASK) =? 0)), (role s);
    cbn [Bool.eqb Role.eqb andb negb]; try discriminate;
    (destruct (frame_payload _ _ hl pl); [|discriminate]);
    intro E; inversion E; subst; reflexivity.
Qed.

Lemma OnClose_run (code : N) (reason : bytes) (s : Impl) :
  OnClose code reason s
  = if closeSent s && match connection s with None => true | _ => false end
    then Undefined else Ok tt (after_OnClose code reason s).
Proof.
  unfold OnClose, after_OnClose, after_Break. run. fields.
  destruct (closeSent s); cbv beta iota; fields;
    destruct (connection s); reflexivity.
Qed.

Lemma after_OnClose_peer (code : N) (reason : bytes) (s : Impl) (c : Connection) :
  connection s = Some c ->
  exists c', connection (after_OnClose code reason s) = Some c'
             /\ peerId c' = peerId c.
Proof.
  intro Hc. unfold after_OnClose, after_Break. fields.
  destruct (closeSent s); fields; rewrite Hc; fields; eauto.
Qed.

Lemma Close_run (code : N) (reason : bytes) (fail : bool) (s : Impl) :
  Close code reason fail s
  = if closeSent s then Ok tt s
    else match connection s with
         | Some _ => Ok tt (after_Close code reason fail s)
         | None => Undefined
         end.
Proof.
  unfold Close. run.
  destruct (closeSent s) eqn:Hs; [reflexivity|]. cbv beta iota.
  unfold after_Close.
  destruct (code =? 1006) eqn:H6; cbv beta iota zeta.
  - rewrite OnClose_run. fields. destruct (connection s); reflexivity.
  - rewrite close_payload_eq.
    destruct (connection s) as [c|] eqn:Hc.
    + rewrite (SendFrame_spec _ _ _ _ c) by (fields; exact Hc).
      cbv beta iota.
      destruct (after_SendFrame_fields true OPCODE_CLOSE
                  (close_payload code reason) (set_closeSent true s) c Hc)
        as (Hc' & Hs' & Hr' & _ & _).
      destruct fail; cbv beta iota.
      * rewrite OnClose_run. rewrite Hc', Hs'. fields. cbv beta iota.
        destruct (after_OnClose_peer code reason _ _ Hc') as (c' & Hc'' & Hp).
        cbn [andb]. cbv beta iota. rewrite Hc''. cbv beta iota. rewrite Hp. reflexivity.
      * rewrite Hr'. fields. destruct (closeReceived s); cbv beta iota.
        -- unfold after_Break. rewrite Hc'. fields. reflexivity.
        -- rewrite Hc'. reflexivity.
    + rewrite SendFrame_null by (fields; exact Hc). reflexivity.
Qed.

Lemma bind_ret_tt (m : M unit) (s : Impl) : bind m (fun _ => ret tt) s = m s.
Proof. unfold bind, ret. destruct (m s) as [[] ?| |]; reflexivity. Qed.

Ltac fields_in H :=
  cbn [configuration diagnosticsSender eventQueue connection role key closeSent
       closeReceived sending receiving delegatesSet frameReassemblyBuffer
       messageReassemblyBuffer rng peerId calls
       set_configuration set_diagnosticsSender set_eventQueue set_connection
       set_role set_key set_closeSent set_closeReceived set_sending
       set_receiving set_frameReassemblyBuffer set_messageReassemblyBuffer
       set_rng] in H.

Ltac after_fields :=
  unfold after_Close, after_OnClose, after_SendFrame, after_SendData,
    after_Break;
  fields;
  repeat (match goal with
          | |- context [if ?b then _ else _] => destruct b
          | |- context [match connection ?s with _ => _ end] =>
              destruct (connection s)
          end; fields);
  try reflexivity.

Lemma after_Close_assembler (code : N) (reason : bytes) (fail : bool) (s : Impl) :
  receiving (after_Close code reason fail s) = receiving s
  /\ messageReassemblyBuffer (after_Close code reason fail s)
     = messageReassemblyBuffer s
  /\ frameReassemblyBuffer (after_Close code reason fail s)
     = frameReassemblyBuffer s
  /\ sending (after_Close code reason fail s) = sending s.
Proof. repeat split; after_fields. Qed.

Lemma Close_keeps_assembler code reason fail s a s' :
  Close code reason fail s = Ok a s' ->
  receiving s' = receiving s
  /\ messageReassemblyBuffer s' = messageReassemblyBuffer s.
Proof.
  rewrite Close_run.
  destruct (closeSent s); [|destruct (connection s)]; intro E;
    [apply (f_equal (fun r => state_of r s)) in E; cbn [state_of] in E; subst s'..
    |discriminate E].
  - auto.
  - destruct (after_Close_assembler code reason fail s) as (? & ? & _). auto.
Qed.

Lemma after_Close_fail_closed_with (code : N) (reason : bytes) (s : Impl)
      (c : Connection) :
  connection s = Some c -> closeSent s = false -> code <> 1006 ->
  closed_with code reason s (after_Close code reason true s).
Proof.
  intros Hc Hs H6. apply N.eqb_neq in H6.
  unfold closed_with, calls_of, after_Close. rewrite H6. cbv zeta iota.
  unfold after_OnClose, after_SendFrame, after_SendData, after_Break.
  fields.
  destruct (Role.eqb (role s) Role.Client); fields; rewrite Hc; fields;
    rewrite <- app_assoc; cbn [app]; repeat split; eauto.
Qed.

Lemma closed_with_same_outside (code : N) (reason : bytes) (s0 s s' : Impl) :
  eventQueue s0 = eventQueue s -> connection s0 = connection s ->
  role s0 = role s -> rng s0 = rng s ->
  diagnosticsSender s0 = diagnosticsSender s ->
  closed_with code reason s0 s' -> closed_with code reason s s'.
Proof.
  unfold closed_with, calls_of, next_frame, next_key.
  intros -> -> -> -> ->. exact (fun H => H).
Qed.

Lemma receive_error_outside (s : Impl) (opcode : uint8_t) (message : bytes)
      (s0 : Impl) :
  receive_error s opcode = Some (message, s0) ->
  eventQueue s0 = eventQueue s /\ connection s0 = connection s
  /\ role s0 = role s /\ rng s0 = rng s
  /\ diagnosticsSender s0 = diagnosticsSender s
  /\ closeSent s0 = closeSent s.
Proof.
  unfold receive_error.
  destruct (receiving s);
    [destruct (opcode =? OPCODE_CONTINUATION)%char
    |destruct ((opcode =? OPCODE_TEXT)%char || (opcode =? OPCODE_BINARY)%char)..];
    intro E; try discriminate E;
    injection E as _ <-; fields; repeat split.
Qed.

(** ** The claims *)

(** C3.  A Text or Binary frame which arrives while a fragmented message is
    being received makes the engine close with 1002 "last message
    incomplete", and a Continuation frame which arrives while none is being
    received makes it close with 1002 "unexpected continuation frame",
    whatever the FIN flag: [ReceiveFrame] is the call
    [Close(1002, message, true)], and when that is the first close on a
    bound connection the close frame is sent, the close is reported and the
    transport is broken. *)
Theorem C3_receive_errors (IsValidEncoding : bytes -> bool) (s : Impl)
        (headerLength payloadLength : N) (fin : bool) (opcode : uint8_t)
        (data message : bytes) (s0 : Impl) :
  received_frame s headerLength payloadLength = Some (fin, opcode, data) ->
  receive_error s opcode = Some (message, s0) ->
  ReceiveFrame IsValidEncoding headerLength payloadLength s
  = Close 1002 message true s0
  /\ (forall c, connection s = Some c -> closeSent s = false ->
      exists s', ReceiveFrame IsValidEncoding headerLength payloadLength s
                 = Ok tt s'
                 /\ closed_with 1002 message s s').
Proof.
  intros Hf He.
  rewrite (ReceiveFrame_received _ _ _ _ _ _ _ Hf).
  assert (E : ReceiveFrame_switch IsValidEncoding fin opcode data s
              = Close 1002 message true s0).
  { unfold receive_error in He. unfold ReceiveFrame_switch.
    destruct (receiving s) eqn:Hr.
    - destruct (opcode =? OPCODE_CONTINUATION)%char eqn:Ho; [|discriminate].
      assert (Hm : message = str "unexpected continuation frame"
                   /\ s0 = set_messageReassemblyBuffer [] s)
        by (split; congruence).
      destruct Hm; subst message s0; clear He.
      run. fields. rewrite Hr. cbv beta iota. fields.
      change (set_messageReassemblyBuffer []
                (set_messageReassemblyBuffer
                   (messageReassemblyBuffer s ++ data) s))
        with (set_messageReassemblyBuffer [] s).
      destruct (Close 1002 (str "unexpected continuation frame") true
                  (set_messageReassemblyBuffer [] s)) as [[] s1| |] eqn:Hc;
        [|destruct fin; reflexivity..].
      destruct fin; [|reflexivity]. cbv beta iota.
      apply Close_keeps_assembler in Hc. destruct Hc as [Hc1 Hc2].
      fields_in Hc1. fields_in Hc2. rewrite Hr in Hc1.
      f_equal. destruct s1. fields_in Hc1. fields_in Hc2. fields.
      subst. reflexivity.
    - assert (Ho : (opcode =? OPCODE_CONTINUATION)%char = false).
      { destruct (opcode =? OPCODE_TEXT)%char eqn:H1.
        - apply Ascii.eqb_eq in H1. subst. reflexivity.
        - destruct (opcode =? OPCODE_BINARY)%char eqn:H2; [|discriminate].
          apply Ascii.eqb_eq in H2. subst. reflexivity. }
      rewrite Ho.
      destruct (opcode =? OPCODE_TEXT)%char; cbn [orb] in He.
      + assert (Hm : message = str "last message incomplete" /\ s0 = s)
          by (split; congruence).
        destruct Hm; subst message s0. run. rewrite Hr. reflexivity.
      + destruct (opcode =? OPCODE_BINARY)%char; [|discriminate].
        assert (Hm : message = str "last message incomplete" /\ s0 = s)
          by (split; congruence).
        destruct Hm; subst message s0. run. rewrite Hr. reflexivity.
    - assert (Ho : (opcode =? OPCODE_CONTINUATION)%char = false).
      { destruct (opcode =? OPCODE_TEXT)%char eqn:H1.
        - apply Ascii.eqb_eq in H1. subst. reflexivity.
        - destruct (opcode =? OPCODE_BINARY)%char eqn:H2; [|discriminate].
          apply Ascii.eqb_eq in H2. subst. reflexivity. }
      rewrite Ho.
      destruct (opcode =? OPCODE_TEXT)%char; cbn [orb] in He.
      + assert (Hm : message = str "last message incomplete" /\ s0 = s)
          by (split; congruence).
        destruct Hm; subst message s0. run. rewrite Hr. reflexivity.
      + destruct (opcode =? OPCODE_BINARY)%char; [|discriminate].
        assert (Hm : message = str "last message incomplete" /\ s0 = s)
          by (split; congruence).
        destruct Hm; subst message s0. run. rewrite Hr. reflexivity. }
  split; [exact E|].
  intros c Hc Hs. rewrite E.
  destruct (receive_error_outside _ _ _ _ He) as (Hq & Hc0 & Hro & Hrn & Hd & Hs0).
  rewrite Close_run, Hs0, Hs, Hc0, Hc.
  eexists; split; [reflexivity|].
  apply (closed_with_same_outside _ _ s0); auto.
  apply (after_Close_fail_closed_with _ _ _ c); [congruence|congruence|discriminate].
Qed.

Lemma C3_receive_errors_witness :
  ReceiveFrame Reference.IsValidEncoding 2 0 Example.mid_text
  = Close 1002 (str "last message incomplete") true Example.mid_text
  /\ exists s',
      ReceiveFrame Reference.IsValidEncoding 2 0 Example.mid_text = Ok tt s'
      /\ closed_with 1002 (str "last message incomplete")
                      Example.mid_text s'.
Proof.
  destruct (C3_receive_errors Reference.IsValidEncoding Example.mid_text 2 0
              false OPCODE_TEXT [] (str "last message incomplete")
              Example.mid_text eq_refl eq_refl) as [H1 H2].
  split; [exact H1|].
  apply (H2 Example.peer); reflexivity.
Defined.

Lemma completed_text_outside (s : Impl) (opcode : uint8_t) (data message : bytes)
      (s0 : Impl) :
  completed_text s opcode data = Some (message, s0) ->
  eventQueue s0 = eventQueue s /\ connection s0 = connection s
  /\ role s0 = role s /\ rng s0 = rng s
  /\ diagnosticsSender s0 = diagnosticsSender s
  /\ closeSent s0 = closeSent s.
Proof.
  unfold completed_text.
  destruct (opcode =? OPCODE_TEXT)%char;
    [|destruct (opcode =? OPCODE_CONTINUATION)%char];
    destruct (receiving s); intro E; try discriminate E;
    assert (E' : snd (message, s0) = s0) by reflexivity;
    injection E as _ <-; fields; repeat split.
Qed.

(** C4.  A final frame which completes a text message, alone or as the
    last fragment, has the whole assembled payload validated as UTF-8: a
    Text event is queued exactly when the validation succeeds, and
    otherwise the engine closes with 1007 "invalid UTF-8 encoding in text
    message" and queues no Text event. *)
Theorem C4_text_validation (IsValidEncoding : bytes -> bool) (s : Impl)
        (headerLength payloadLength : N) (opcode : uint8_t)
        (data message : bytes) (s0 : Impl) :
  received_frame s headerLength payloadLength = Some (true, opcode, data) ->
  completed_text s opcode data = Some (message, s0) ->
  ReceiveFrame IsValidEncoding headerLength payloadLength s
  = (if IsValidEncoding message then
       Ok tt (set_eventQueue
                (eventQueue s0 ++ [Event.Build Event.Text message None]) s0)
     else
       Close 1007 (str "invalid UTF-8 encoding in text message") true s0)
  /\ (IsValidEncoding message = false ->
      (forall s', ReceiveFrame IsValidEncoding headerLength payloadLength s
                  = Ok tt s' ->
                  eventQueue s' = eventQueue s
                  \/ eventQueue s'
                     = eventQueue s
                       ++ [Event.Build Event.Close
                             (str "invalid UTF-8 encoding in text message")
                             (Some 1007)])
      /\ (forall c, connection s = Some c -> closeSent s = false ->
          exists s', ReceiveFrame IsValidEncoding headerLength payloadLength s
                     = Ok tt s'
                     /\ closed_with 1007
                          (str "invalid UTF-8 encoding in text message")
                          s s')).
Proof.
  intros Hf Ht.
  rewrite (ReceiveFrame_received _ _ _ _ _ _ _ Hf).
  assert (E : ReceiveFrame_switch IsValidEncoding true opcode data s
              = (if IsValidEncoding message then
                   Ok tt (set_eventQueue
                            (eventQueue s0
                             ++ [Event.Build Event.Text message None]) s0)
                 else
                   Close 1007 (str "invalid UTF-8 encoding in text message")
                         true s0)).
  { unfold completed_text in Ht. unfold ReceiveFrame_switch.
    destruct (opcode =? OPCODE_TEXT)%char eqn:H1.
    - apply Ascii.eqb_eq in H1. subst opcode.
      change (OPCODE_TEXT =? OPCODE_CONTINUATION)%char with false.
      cbv iota. run.
      destruct (receiving s); try discriminate Ht.
      assert (Hm : message = data /\ s0 = s) by (split; congruence).
      destruct Hm; subst message s0. unfold OnTextMessage. run.
      destruct (IsValidEncoding data); reflexivity.
    - destruct (opcode =? OPCODE_CONTINUATION)%char; [|discriminate Ht].
      destruct (receiving s) eqn:Hr; try discriminate Ht.
      assert (Hm : message = messageReassemblyBuffer s ++ data
                   /\ s0 = set_messageReassemblyBuffer []
                             (set_receiving FragmentedMessageType.None s))
        by (split; congruence).
      destruct Hm; subst message s0. clear Ht.
      run. fields. rewrite Hr. cbv beta iota. fields.
      unfold OnTextMessage. run.
      destruct (IsValidEncoding (messageReassemblyBuffer s ++ data)).
      + reflexivity.
      + rewrite !Close_set_messageReassemblyBuffer, Close_set_receiving.
        destruct (Close 1007 (str "invalid UTF-8 encoding in text message")
                        true s) as [[] s1| |]; reflexivity. }
  split; [exact E|].
  intro Hv. rewrite E, Hv.
  destruct (completed_text_outside _ _ _ _ _ Ht)
    as (Hq & Hc0 & Hro & Hrn & Hd & Hs0).
  rewrite Close_run, Hs0, Hc0. split.
  - intros s' Hs'.
    destruct (closeSent s) eqn:Hcs.
    + left. apply (f_equal (fun r => state_of r s)) in Hs'.
      cbn [state_of] in Hs'. subst s'. exact Hq.
    + destruct (connection s) as [c|] eqn:Hc; [|discriminate Hs'].
      right. apply (f_equal (fun r => state_of r s)) in Hs'.
      cbn [state_of] in Hs'. subst s'.
      assert (Hcw : closed_with 1007
                      (str "invalid UTF-8 encoding in text message") s0
                      (after_Close 1007
                         (str "invalid UTF-8 encoding in text message")
                         true s0)).
      { apply (after_Close_fail_closed_with _ _ _ c);
          [congruence|congruence|discriminate]. }
      destruct Hcw as (_ & _ & Hev & _). rewrite Hev, Hq. reflexivity.
  - intros c Hc Hs. rewrite Hs, Hc.
    eexists; split; [reflexivity|].
    apply (closed_with_same_outside _ _ s0); auto.
    apply (after_Close_fail_closed_with _ _ _ c);
      [congruence|congruence|discriminate].
Qed.

Lemma after_SendFrame_calls fin opcode payload s c :
  connection s = Some c ->
  calls_of (after_SendFrame fin opcode payload s)
  = calls c ++ [SendData (next_frame s fin opcode payload)].
Proof.
  intro Hc. unfold calls_of.
  destruct (after_SendFrame_fields fin opcode payload s c Hc) as (-> & _).
  reflexivity.
Qed.

Lemma ping_answered (IsValidEncoding : bytes -> bool) (s : Impl)
        (headerLength payloadLength : N) (fin : bool) (data : bytes)
        (c : Connection) :
  received_frame s headerLength payloadLength = Some (fin, OPCODE_PING, data) ->
  connection s = Some c ->
  exists s',
    ReceiveFrame IsValidEncoding headerLength payloadLength s = Ok tt s'
    /\ calls_of s'
       = calls c ++ [SendData (next_frame s true OPCODE_PONG data)]
    /\ nth 0 (next_frame s true OPCODE_PONG data) zero = u8 0x8A
    /\ eventQueue s'
       = eventQueue s ++ [Event.Build Event.Ping data None]
    /\ closeSent s' = closeSent s
    /\ closeReceived s' = false.
Proof.
  intros Hf Hc.
  rewrite (ReceiveFrame_received _ _ _ _ _ _ _ Hf).
  assert (Hcr : closeReceived s = false).
  { unfold received_frame in Hf. destruct (closeReceived s);
      [discriminate Hf|reflexivity]. }
  unfold ReceiveFrame_switch.
  change (OPCODE_PING =? OPCODE_CONTINUATION)%char with false.
  change (OPCODE_PING =? OPCODE_TEXT)%char with false.
  change (OPCODE_PING =? OPCODE_BINARY)%char with false.
  change (OPCODE_PING =? OPCODE_CLOSE)%char with false.
  change (OPCODE_PING =? OPCODE_PING)%char with true.
  cbv iota. unfold bind at 1.
  rewrite (SendFrame_spec _ _ _ _ c Hc). run.
  destruct (after_SendFrame_fields true OPCODE_PONG data s c Hc)
    as (Hc' & Hs' & Hr' & Hq' & _).
  eexists; split; [reflexivity|].
  unfold calls_of. fields. rewrite Hc', Hs', Hr', Hq'. fields.
  repeat split; auto.
Qed.

Lemma after_OnClose_fields (code : N) (reason : bytes) (s : Impl)
      (c : Connection) :
  connection s = Some c ->
  eventQueue (after_OnClose code reason s)
  = eventQueue s ++ [Event.Build Event.Close reason (Some code)]
  /\ closeReceived (after_OnClose code reason s) = true
  /\ closeSent (after_OnClose code reason s) = closeSent s
  /\ calls_of (after_OnClose code reason s)
     = calls c ++ (if closeSent s then [Break false] else [])
  /\ diagnosticsSender (after_OnClose code reason s) = diagnosticsSender s.
Proof.
  intro Hc. unfold calls_of, after_OnClose, after_Break. fields.
  destruct (closeSent s) eqn:Hs; fields; rewrite Hc; fields;
    rewrite ?app_nil_r; repeat split; auto.
Qed.

Lemma be16_code (hi lo : uint8_t) :
  N.land (N.shiftl (val hi) 8) 0xFF00 + N.land (val lo) 0x00FF
  = 256 * val hi + val lo.
Proof.
  change 0xFF00 with (N.shiftl 0xFF 8).
  rewrite <- N.shiftl_land, !land_255, N.shiftl_mul_pow2.
  pose proof (val_lt hi). pose proof (val_lt lo).
  rewrite !N.mod_small by assumption. change (2 ^ 8) with 256. lia.
Qed.

Lemma switch_close (IsValidEncoding : bytes -> bool) (fin : bool)
      (data : bytes) (s : Impl) (c : Connection) :
  connection s = Some c ->
  ReceiveFrame_switch IsValidEncoding fin OPCODE_CLOSE data s
  = if (2 <=? size data) && negb (IsValidEncoding (skipn 2 data)) then
      Close 1007 (str "invalid UTF-8 encoding in close reason") true s
    else
      Ok tt (set_diagnosticsSender
               (diagnosticsSender s
                ++ [(1, str "Connection to " ++ c_str (peerId c)
                        ++ str " closed by peer")])
               (after_OnClose (fst (received_close data))
                              (snd (received_close data)) s)).
Proof.
  intro Hc. unfold ReceiveFrame_switch, received_close.
  change (OPCODE_CLOSE =? OPCODE_CONTINUATION)%char with false.
  change (OPCODE_CLOSE =? OPCODE_TEXT)%char with false.
  change (OPCODE_CLOSE =? OPCODE_BINARY)%char with false.
  change (OPCODE_CLOSE =? OPCODE_CLOSE)%char with true.
  cbv iota zeta.
  assert (Hrun : forall code reason,
             bind (OnClose code reason)
               (fun _ => bind connection_GetPeerId
                  (fun peer => SendDiagnosticInformationFormatted 1
                     (str "Connection to " ++ c_str peer
                      ++ str " closed by peer"))) s
             = Ok tt (set_diagnosticsSender
                        (diagnosticsSender s
                         ++ [(1, str "Connection to " ++ c_str (peerId c)
                                 ++ str " closed by peer")])
                        (after_OnClose code reason s))).
  { intros code reason. unfold bind at 1. rewrite OnClose_run, Hc.
    rewrite andb_false_r. run.
    destruct (after_OnClose_peer code reason s c Hc) as (c' & Hc' & Hp).
    rewrite Hc'. cbv beta iota. rewrite Hp.
    destruct (after_OnClose_fields code reason s c Hc) as (_ & _ & _ & _ & ->).
    reflexivity. }
  destruct (2 <=? size data); cbn [andb fst snd].
  - destruct (IsValidEncoding (skipn 2 data)); cbn [negb].
    + unfold bind at 1. unfold ret at 1. cbv beta iota. cbn [negb].
      apply Hrun.
    + unfold bind at 1 2. unfold ret.
      destruct (Close 1007 (str "invalid UTF-8 encoding in close reason")
                      true s) as [[] s1| |]; reflexivity.
  - unfold bind at 1. unfold ret at 1. cbv beta iota. cbn [negb].
    apply Hrun.
Qed.

Lemma received_frame_open (s : Impl) (hl pl : N) (r : bool * uint8_t * bytes) :
  received_frame s hl pl = Some r -> closeReceived s = false.
Proof.
  unfold received_frame. destruct (closeReceived s);
    [discriminate|reflexivity].
Qed.

Lemma next_frame_empty (s : Impl) (fin : bool) (opcode : uint8_t) :
  next_frame s fin opcode []
  = u8 ((if fin then 0x80 else 0) + val opcode)
    :: (if Role.eqb (role s) Role.Client then u8 0x80 :: next_key s
        else [u8 0x00]).
Proof.
  unfold next_frame, wire_frame, wire_length.
  destruct (Role.eqb (role s) Role.Client); cbn [size List.length app];
    change (N.of_nat 0 <? 126) with true; cbv iota;
    cbn [mask_payload app]; rewrite ?app_nil_r; reflexivity.
Qed.

(** C2.  A received close frame with an empty payload is surfaced as a
    Close event with code 1005 and an empty reason; with a payload of two
    octets or more the code is the big-endian value of the first two and
    the reason is the rest, unless the reason is not valid UTF-8, in which
    case the engine closes with 1007 "invalid UTF-8 encoding in close
    reason".  A close sent with code 1005 carries no payload: the frame is
    the two header octets, followed by the masking key on a client. *)
Theorem C2_close_codes (IsValidEncoding : bytes -> bool) (s : Impl)
        (c : Connection) :
  connection s = Some c ->
  (forall headerLength payloadLength fin data,
      received_frame s headerLength payloadLength
      = Some (fin, OPCODE_CLOSE, data) ->
      (data = [] ->
       exists s', ReceiveFrame IsValidEncoding headerLength payloadLength s
                  = Ok tt s'
                  /\ eventQueue s'
                     = eventQueue s
                       ++ [Event.Build Event.Close [] (Some 1005)])
      /\ (forall hi lo reason, data = hi :: lo :: reason ->
          (IsValidEncoding reason = true ->
           exists s', ReceiveFrame IsValidEncoding headerLength payloadLength s
                      = Ok tt s'
                      /\ eventQueue s'
                         = eventQueue s
                           ++ [Event.Build Event.Close reason
                                 (Some (256 * val hi + val lo))])
          /\ (IsValidEncoding reason = false ->
              ReceiveFrame IsValidEncoding headerLength payloadLength s
              = Close 1007 (str "invalid UTF-8 encoding in close reason")
                      true s
              /\ (closeSent s = false ->
                  exists s',
                    ReceiveFrame IsValidEncoding headerLength payloadLength s
                    = Ok tt s'
                    /\ closed_with 1007
                         (str "invalid UTF-8 encoding in close reason")
                         s s'))))
  /\ (forall reason fail, closeSent s = false ->
      exists s' rest,
        Close 1005 reason fail s = Ok tt s'
        /\ calls_of s'
           = calls c ++ SendData (next_frame s true OPCODE_CLOSE []) :: rest
        /\ next_frame s true OPCODE_CLOSE []
           = u8 0x88 :: (if Role.eqb (role s) Role.Client
                         then u8 0x80 :: next_key s else [u8 0x00])).
Proof.
  intro Hc. split.
  - intros hl pl fin data Hf.
    rewrite (ReceiveFrame_received _ _ _ _ _ _ _ Hf).
    rewrite (switch_close _ _ _ _ c Hc).
    split.
    + intros ->. cbn [size List.length]. change (2 <=? N.of_nat 0) with false.
      cbn [andb]. eexists; split; [reflexivity|]. fields.
      destruct (after_OnClose_fields
                  (fst (received_close [])) (snd (received_close [])) s c Hc)
        as (-> & _). reflexivity.
    + intros hi lo reason ->.
      assert (H2 : (2 <=? size (hi :: lo :: reason)) = true).
      { apply N.leb_le. unfold size. cbn [List.length]. lia. }
      assert (Hrc : received_close (hi :: lo :: reason)
                    = (256 * val hi + val lo, reason)).
      { unfold received_close. rewrite H2. cbn [nth skipn].
        rewrite be16_code. reflexivity. }
      rewrite H2, Hrc. cbn [skipn andb fst snd]. split.
      * intros ->. cbn [negb]. eexists; split; [reflexivity|]. fields.
        destruct (after_OnClose_fields (256 * val hi + val lo) reason s c Hc)
          as (-> & _). reflexivity.
      * intros ->. cbn [negb]. split; [reflexivity|].
        intro Hs. rewrite Close_run, Hs, Hc.
        eexists; split; [reflexivity|].
        apply (after_Close_fail_closed_with _ _ _ c); auto. discriminate.
  - intros reason fail Hs. rewrite Close_run, Hs, Hc.
    unfold after_Close. change (1005 =? 1006) with false. cbv iota zeta.
    unfold close_payload. change (1005 =? 1005) with true. cbv iota.
    assert (Hn : next_frame (set_closeSent true s) true OPCODE_CLOSE []
                 = next_frame s true OPCODE_CLOSE []) by reflexivity.
    destruct (after_SendFrame_fields true OPCODE_CLOSE []
                (set_closeSent true s) c Hc) as (Hc' & Hs' & Hr' & _ & _).
    rewrite Hn in Hc'.
    eexists. 
    exists (if fail then [Break false]
            else if closeReceived s then [Break true] else []).
    split; [reflexivity|]. split; [|apply next_frame_empty].
    unfold calls_of. fields.
    destruct fail.
    + destruct (after_OnClose_fields 1005 reason _ _ Hc') as (_ & _ & _ & Hk & _).
      unfold calls_of in Hk. rewrite Hk, Hs'. fields.
      rewrite <- app_assoc. reflexivity.
    + rewrite Hr'. fields. destruct (closeReceived s).
      * unfold after_Break. rewrite Hc'. fields.
        rewrite <- app_assoc. reflexivity.
      * rewrite Hc'. fields. reflexivity.
Qed.

(** C1, as amended.  On a bound connection, a [Close] which is not a
    failure and whose code is not 1006, called after the peer's close was
    received, sends the close frame and breaks the transport with
    [Break(true)]; a close frame with a well-formed payload received after
    a close was sent breaks the transport with [Break(false)]. *)
Theorem C1_teardown_amended (IsValidEncoding : bytes -> bool) (s : Impl)
        (c : Connection) :
  connection s = Some c ->
  (forall code reason,
      closeSent s = false -> closeReceived s = true -> code <> 1006 ->
      exists s', Close code reason false s = Ok tt s'
                 /\ closeSent s' = true
                 /\ calls_of s'
                    = calls c
                      ++ [SendData (next_frame s true OPCODE_CLOSE
                                               (close_payload code reason));
                          Break true])
  /\ (forall headerLength payloadLength fin data,
      closeSent s = true ->
      received_frame s headerLength payloadLength
      = Some (fin, OPCODE_CLOSE, data) ->
      (2 <=? size data) && negb (IsValidEncoding (skipn 2 data)) = false ->
      exists s', ReceiveFrame IsValidEncoding headerLength payloadLength s
                 = Ok tt s'
                 /\ closeReceived s' = true
                 /\ calls_of s' = calls c ++ [Break false]).
Proof.
  intro Hc. split.
  - intros code reason Hs Hr H6. apply N.eqb_neq in H6.
    rewrite Close_run, Hs, Hc. eexists; split; [reflexivity|].
    unfold after_Close. rewrite H6. cbv iota zeta.
    destruct (after_SendFrame_fields true OPCODE_CLOSE
                (close_payload code reason) (set_closeSent true s) c Hc)
      as (Hc' & Hs' & Hr' & _ & _).
    unfold calls_of. fields. rewrite Hr'. fields. rewrite Hr.
    unfold after_Break. rewrite Hc'. fields. rewrite Hs'. fields.
    rewrite <- app_assoc. split; reflexivity.
  - intros hl pl fin data Hs Hf Hv.
    rewrite (ReceiveFrame_received _ _ _ _ _ _ _ Hf).
    rewrite (switch_close _ _ _ _ c Hc), Hv.
    eexists; split; [reflexivity|].
    unfold calls_of. fields.
    destruct (after_OnClose_fields
                (fst (received_close data)) (snd (received_close data))
                s c Hc) as (_ & Hr & _ & Hk & _).
    unfold calls_of in Hk. rewrite Hr, Hk, Hs. split; reflexivity.
Qed.

(** C5.  With a positive [maxFrameSize], a chunk which would take the
    buffered octets above the limit makes the engine close with 1009
    "frame too large"; the chunk is not appended to the buffer.  The limit
    is compared with the octets buffered, whatever frames they belong to. *)
Theorem C5_frame_size_cap (IsValidEncoding : bytes -> bool) (s : Impl)
        (data : bytes) (c : Connection) :
  connection s = Some c ->
  0 < maxFrameSize (configuration s) ->
  size (frameReassemblyBuffer s) + size data < 2 ^ 64 ->
  maxFrameSize (configuration s) < size (frameReassemblyBuffer s) + size data ->
  ReceiveData IsValidEncoding data s
  = Close 1009 (str "frame too large") true s
  /\ (forall s', ReceiveData IsValidEncoding data s = Ok tt s' ->
      frameReassemblyBuffer s' = frameReassemblyBuffer s)
  /\ (closeSent s = false ->
      exists s', ReceiveData IsValidEncoding data s = Ok tt s'
                 /\ closed_with 1009 (str "frame too large") s s').
Proof.
  intros Hc Hpos Hwrap Hbig.
  assert (E : ReceiveData IsValidEncoding data s
              = Close 1009 (str "frame too large") true s).
  { unfold ReceiveData. run. rewrite Hc. cbv beta iota.
    unfold add64, SIZE_MAX1. rewrite (N.mod_small _ _ Hwrap).
    apply N.ltb_lt in Hpos. apply N.ltb_lt in Hbig.
    rewrite Hpos, Hbig. reflexivity. }
  rewrite E, Close_run, Hc. split; [reflexivity|split].
  - intros s' Hs'. destruct (closeSent s);
      apply (f_equal (fun r => state_of r s)) in Hs';
      cbn [state_of] in Hs'; subst s'; [reflexivity|].
    apply after_Close_assembler.
  - intro Hs. rewrite Hs. eexists; split; [reflexivity|].
    apply (after_Close_fail_closed_with _ _ _ c); auto. discriminate.
Qed.

(** ** The wire format *)

Lemma forall_below (n : nat) (P : N -> bool) :
  forallb P (map N.of_nat (seq 0 n)) = true ->
  forall x, x < N.of_nat n -> P x = true.
Proof.
  intros H x Hx. rewrite forallb_forall in H. apply H.
  rewrite <- (N2Nat.id x). apply in_map. apply in_seq. lia.
Qed.

Lemma len7_bits (x : N) :
  x < 128 ->
  N.land x (N.lnot (val MASK) 32) = x
  /\ N.land (128 + x) (N.lnot (val MASK) 32) = x
  /\ N.land x (val MASK) = 0
  /\ N.land (128 + x) (val MASK) = 128.
Proof.
  intro Hx.
  pose proof (forall_below 128
    (fun x => (N.land x (N.lnot (val MASK) 32) =? x)
              && (N.land (128 + x) (N.lnot (val MASK) 32) =? x)
              && (N.land x (val MASK) =? 0)
              && (N.land (128 + x) (val MASK) =? 128))
    eq_refl x Hx) as H.
  cbv beta in H. rewrite !andb_true_iff, !N.eqb_eq in H. tauto.
Qed.

Lemma size_cons {A : Type} (a : A) (l : list A) : size (a :: l) = 1 + size l.
Proof. unfold size. cbn [List.length]. lia. Qed.

Lemma size_app {A : Type} (l l' : list A) : size (l ++ l') = size l + size l'.
Proof. unfold size. rewrite length_app. lia. Qed.

Lemma size_nil {A : Type} : size (@nil A) = 0.
Proof. reflexivity. Qed.

(** The header which [frame_lengths] reads back from a frame laid out as
    section 4.1 says. *)
Lemma frame_lengths_wire (b0 : uint8_t) (masked : bool) (L : N) (rest : bytes) :
  L < 2 ^ 64 ->
  frame_lengths (b0 :: wire_length masked L ++ rest)
  = Some ((if L <? 126 then 2 else if L <? 65536 then 4 else 10)
          + (if masked then 4 else 0), L).
Proof.
  intro HL. unfold frame_lengths, wire_length.
  destruct (L <? 126) eqn:H1; [|destruct (L <? 65536) eqn:H2].
  - apply N.ltb_lt in H1. cbn [app nth].
    destruct (len7_bits L ltac:(lia)) as (E1 & E2 & E3 & E4).
    destruct masked.
    + rewrite val_u8_small by lia. rewrite E2, E4.
      destruct (L =? 126) eqn:Ha; [apply N.eqb_eq in Ha; lia|].
      destruct (L =? 127) eqn:Hb; [apply N.eqb_eq in Hb; lia|].
      reflexivity.
    + rewrite val_u8_small by lia. cbn [N.add]. rewrite E1, E3.
      destruct (L =? 126) eqn:Ha; [apply N.eqb_eq in Ha; lia|].
      destruct (L =? 127) eqn:Hb; [apply N.eqb_eq in Hb; lia|].
      reflexivity.
  - apply N.ltb_ge in H1. apply N.ltb_lt in H2.
    cbn [big_endian app nth].
    assert (Hsz : (size (b0 :: u8 ((if masked then 128 else 0) + 126)
                      :: u8 (N.shiftr L (8 * N.of_nat 1))
                      :: u8 (N.shiftr L (8 * N.of_nat 0)) :: rest) <? 4)
                  = false).
    { apply N.ltb_ge. rewrite !size_cons. lia. }
    rewrite Hsz. clear Hsz.
    rewrite !(val_u8 (N.shiftr _ _)), !N.shiftr_div_pow2, N.shiftl_mul_pow2.
    change (8 * N.of_nat 1) with 8. change (8 * N.of_nat 0) with 0.
    change (2 ^ 8) with 256. change (2 ^ 0) with 1.
    assert (HLe : L / 256 mod 256 * 256 + L / 1 mod 256 = L) by lia.
    rewrite HLe.
    destruct masked.
    + change (val (u8 (128 + 126))) with (128 + 126).
      destruct (len7_bits 126 ltac:(lia)) as (_ & E2 & _ & E4).
      rewrite E2, E4. reflexivity.
    + change (val (u8 (0 + 126))) with 126.
      destruct (len7_bits 126 ltac:(lia)) as (E1 & _ & E3 & _).
      rewrite E1, E3. reflexivity.
  - apply N.ltb_ge in H1. apply N.ltb_ge in H2.
    cbn [big_endian app nth].
    match goal with
    | |- context [size ?l <? 10] =>
        assert (Hsz : (size l <? 10) = false)
          by (apply N.ltb_ge; rewrite !size_cons; lia);
        rewrite Hsz; clear Hsz
    end.
    rewrite !(val_u8 (N.shiftr _ _)), !N.shiftr_div_pow2, !N.shiftl_mul_pow2.
    change (8 * N.of_nat 7) with 56. change (8 * N.of_nat 6) with 48.
    change (8 * N.of_nat 5) with 40. change (8 * N.of_nat 4) with 32.
    change (8 * N.of_nat 3) with 24. change (8 * N.of_nat 2) with 16.
    change (8 * N.of_nat 1) with 8. change (8 * N.of_nat 0) with 0.
    assert (HLe : L / 2 ^ 56 mod 256 * 2 ^ 56 + L / 2 ^ 48 mod 256 * 2 ^ 48
                  + L / 2 ^ 40 mod 256 * 2 ^ 40 + L / 2 ^ 32 mod 256 * 2 ^ 32
                  + L / 2 ^ 24 mod 256 * 2 ^ 24 + L / 2 ^ 16 mod 256 * 2 ^ 16
                  + L / 2 ^ 8 mod 256 * 2 ^ 8 + L / 2 ^ 0 mod 256 = L).
    { pose proof (N.mod_small L (2 ^ 64) HL) as S8.
      assert (S7 : L mod 2 ^ 64 = L mod 2 ^ 56 + 2 ^ 56 * (L / 2 ^ 56 mod 256))
        by (change (2 ^ 64) with (2 ^ 56 * 256); apply N.Div0.mod_mul_r).
      assert (S6 : L mod 2 ^ 56 = L mod 2 ^ 48 + 2 ^ 48 * (L / 2 ^ 48 mod 256))
        by (change (2 ^ 56) with (2 ^ 48 * 256); apply N.Div0.mod_mul_r).
      assert (S5 : L mod 2 ^ 48 = L mod 2 ^ 40 + 2 ^ 40 * (L / 2 ^ 40 mod 256))
        by (change (2 ^ 48) with (2 ^ 40 * 256); apply N.Div0.mod_mul_r).
      assert (S4 : L mod 2 ^ 40 = L mod 2 ^ 32 + 2 ^ 32 * (L / 2 ^ 32 mod 256))
        by (change (2 ^ 40) with (2 ^ 32 * 256); apply N.Div0.mod_mul_r).
      assert (S3 : L mod 2 ^ 32 = L mod 2 ^ 24 + 2 ^ 24 * (L / 2 ^ 24 mod 256))
        by (change (2 ^ 32) with (2 ^ 24 * 256); apply N.Div0.mod_mul_r).
      assert (S2 : L mod 2 ^ 24 = L mod 2 ^ 16 + 2 ^ 16 * (L / 2 ^ 16 mod 256))
        by (change (2 ^ 24) with (2 ^ 16 * 256); apply N.Div0.mod_mul_r).
      assert (S1 : L mod 2 ^ 16 = L mod 2 ^ 8 + 2 ^ 8 * (L / 2 ^ 8 mod 256))
        by (change (2 ^ 16) with (2 ^ 8 * 256); apply N.Div0.mod_mul_r).
      assert (S0 : L mod 2 ^ 8 = L / 2 ^ 0 mod 256)
        by (change (2 ^ 0) with 1; rewrite N.div_1_r; reflexivity).
      rewrite <- S8 at 9. rewrite S7, S6, S5, S4, S3, S2, S1, S0.
      generalize (L / 2 ^ 56 mod 256), (L / 2 ^ 48 mod 256),
        (L / 2 ^ 40 mod 256), (L / 2 ^ 32 mod 256), (L / 2 ^ 24 mod 256),
        (L / 2 ^ 16 mod 256), (L / 2 ^ 8 mod 256), (L / 2 ^ 0 mod 256).
      intros. ring. }
    rewrite HLe.
    destruct masked.
    + change (val (u8 (128 + 127))) with (128 + 127).
      destruct (len7_bits 127 ltac:(lia)) as (_ & E2 & _ & E4).
      rewrite E2, E4. reflexivity.
    + change (val (u8 (0 + 127))) with 127.
      destruct (len7_bits 127 ltac:(lia)) as (E1 & _ & E3 & _).
      rewrite E1, E3. reflexivity.
Qed.

Lemma at_app_l {A : Type} (l l' : list A) (i : N) :
  i < size l -> at_ (l ++ l') i = at_ l i.
Proof. unfold at_, size. intro H. apply nth_error_app1. lia. Qed.

Lemma at_app_r {A : Type} (l l' : list A) (i : N) :
  size l <= i -> at_ (l ++ l') i = at_ l' (i - size l).
Proof.
  unfold at_, size. intro H. rewrite nth_error_app2 by lia.
  f_equal. lia.
Qed.

Lemma at_nth (l : bytes) (i : N) :
  i < size l -> at_ l i = Some (nth (N.to_nat i) l zero).
Proof.
  unfold at_, size. intro H. apply nth_error_nth'. lia.
Qed.

(** The unmasking loop on a buffer which holds a masked frame: [pre] is the
    header up to the key, [done] the part of the payload already
    handled. *)
Lemma unmask_payload_spec (pre k rest : bytes) (hl : N) :
  size k = 4 -> hl = size pre + 4 ->
  forall (body done : bytes),
    hl + size done + size body < 2 ^ 64 ->
    unmask_payload (pre ++ k ++ done ++ body ++ rest) hl
                   (List.length body) (size done)
    = Some (mask_payload k (size done) body).
Proof.
  intros Hk Hhl. induction body as [|c body IH]; intros done Hlt;
    [reflexivity|].
  cbn [List.length unmask_payload mask_payload].
  rewrite size_cons in Hlt.
  assert (Ha : add64 hl (size done) = size pre + size k + size done).
  { unfold add64, SIZE_MAX1. rewrite N.mod_small; lia. }
  assert (Hb : add64 (sub64 hl 4) (size done mod 4)
               = size pre + size done mod 4).
  { pose proof (N.mod_lt (size done) 4 ltac:(discriminate)).
    unfold add64, sub64, SIZE_MAX1.
    change (4 mod 2 ^ 64) with 4.
    replace (hl + 2 ^ 64 - 4) with (size pre + 1 * 2 ^ 64) by lia.
    rewrite N.Div0.mod_add.
    rewrite (N.mod_small (size pre)) by lia.
    rewrite N.mod_small; lia. }
  rewrite Ha, Hb.
  rewrite (at_app_r pre) by lia.
  rewrite (at_app_r k) by lia.
  rewrite (at_app_r done) by lia.
  replace (size pre + size k + size done - size pre - size k - size done)
    with 0 by lia.
  cbn [app]. unfold at_ at 1. cbn [N.to_nat nth_error].
  pose proof (N.mod_lt (size done) 4 ltac:(discriminate)) as Hm.
  rewrite (at_app_r pre) by lia.
  rewrite (at_app_l k) by lia.
  rewrite at_nth by lia.
  replace (size pre + size done mod 4 - size pre) with (size done mod 4) by lia.
  specialize (IH (done ++ [c])).
  rewrite size_app, size_cons, size_nil in IH.
  rewrite <- !app_assoc in IH. cbn [app] in IH.
  replace (size done + (1 + 0)) with (size done + 1) in IH by lia.
  rewrite IH by lia. reflexivity.
Qed.

Lemma assign_payload_spec (pre payload rest : bytes) :
  assign_payload (pre ++ payload ++ rest) (size pre) (size payload)
  = Some payload.
Proof.
  unfold assign_payload.
  assert (H : (size pre + size payload <=? size (pre ++ payload ++ rest))
              = true).
  { apply N.leb_le. rewrite !size_app. lia. }
  rewrite H. unfold size. rewrite !Nat2N.id.
  rewrite skipn_app, skipn_all, Nat.sub_diag. cbn [skipn app].
  rewrite firstn_app, firstn_all, Nat.sub_diag. cbn [firstn].
  rewrite app_nil_r. reflexivity.
Qed.

Lemma wire_length_size (masked : bool) (L : N) :
  size (wire_length masked L)
  = if L <? 126 then 1 else if L <? 65536 then 3 else 9.
Proof.
  unfold wire_length.
  destruct (L <? 126); [|destruct (L <? 65536)]; reflexivity.
Qed.

Lemma next_key_size (s : Impl) : size (next_key s) = 4.
Proof. reflexivity. Qed.

Lemma wire_length_mask_bit (masked : bool) (L : N) (rest : bytes) :
  negb (N.land (val (nth 0 (wire_length masked L ++ rest) zero)) (val MASK)
        =? 0) = masked.
Proof.
  unfold wire_length.
  destruct (L <? 126) eqn:H1; [|destruct (L <? 65536) eqn:H2];
    cbn [app nth].
  - apply N.ltb_lt in H1.
    destruct (len7_bits L ltac:(lia)) as (_ & _ & E3 & E4).
    destruct masked; rewrite val_u8_small by lia.
    + rewrite E4. reflexivity.
    + rewrite N.add_0_l, E3. reflexivity.
  - destruct masked; reflexivity.
  - destruct masked; reflexivity.
Qed.

Lemma mask_payload_nth (k p : bytes) :
  forall (j : N) (i : nat),
    (i < List.length p)%nat ->
    nth i (mask_payload k j p) zero
    = xor8 (nth i p zero) (nth (N.to_nat ((j + N.of_nat i) mod 4)) k zero).
Proof.
  induction p as [|c p IH]; intros j i Hi; cbn [List.length] in Hi; [lia|].
  cbn [mask_payload]. destruct i as [|i]; cbn [nth].
  - rewrite N.add_0_r. reflexivity.
  - rewrite IH by lia. do 3 f_equal. lia.
Qed.

Lemma next_frame_layout (s : Impl) (fin : bool) (opcode : uint8_t)
      (payload : bytes) :
  next_frame s fin opcode payload
  = u8 ((if fin then 0x80 else 0) + val opcode)
    :: wire_length (Role.eqb (role s) Role.Client) (size payload)
    ++ (if Role.eqb (role s) Role.Client
        then next_key s ++ mask_payload (next_key s) 0 payload
        else payload).
Proof.
  unfold next_frame, wire_frame.
  destruct (Role.eqb (role s) Role.Client); reflexivity.
Qed.

(** C6.  [SendFrame] masks exactly when the engine is the client: the
    MASK bit of the second octet is set for a client and clear for a
    server; after the header a client frame carries the four octets of the
    masking key and then the payload, each octet XOR-ed with
    [key[i mod 4]], and a server frame carries the payload as it is. *)
Theorem C6_masking_iff_client (s : Impl) (c : Connection) (fin : bool)
        (opcode : uint8_t) (payload : bytes) :
  connection s = Some c ->
  SendFrame fin opcode payload s = Ok tt (after_SendFrame fin opcode payload s)
  /\ calls_of (after_SendFrame fin opcode payload s)
     = calls c ++ [SendData (next_frame s fin opcode payload)]
  /\ negb (N.land (val (nth 1 (next_frame s fin opcode payload) zero))
                  (val MASK) =? 0)
     = Role.eqb (role s) Role.Client
  /\ (exists header,
         size header = (if size payload <? 126 then 2
                        else if size payload <? 65536 then 4 else 10)
         /\ next_frame s fin opcode payload
            = header ++ (if Role.eqb (role s) Role.Client
                         then next_key s ++ mask_payload (next_key s) 0 payload
                         else payload))
  /\ size (next_key s) = 4
  /\ (forall i, (i < List.length payload)%nat ->
                nth i (mask_payload (next_key s) 0 payload) zero
                = xor8 (nth i payload zero)
                       (nth (Nat.modulo i 4) (next_key s) zero)).
Proof.
  intro Hc. split; [exact (SendFrame_spec _ _ _ _ c Hc)|].
  split; [exact (after_SendFrame_calls _ _ _ _ c Hc)|].
  rewrite next_frame_layout. split; [|split; [|split]].
  - cbn [nth]. apply wire_length_mask_bit.
  - exists (u8 ((if fin then 0x80 else 0) + val opcode)
            :: wire_length (Role.eqb (role s) Role.Client) (size payload)).
    split; [|reflexivity].
    rewrite size_cons, wire_length_size.
    destruct (size payload <? 126); [|destruct (size payload <? 65536)];
      reflexivity.
  - reflexivity.
  - intros i Hi. rewrite mask_payload_nth by exact Hi.
    do 2 f_equal. rewrite N.add_0_l.
    change 4 with (N.of_nat 4). rewrite <- Nat2N.inj_mod. apply Nat2N.id.
Qed.

(** C7.  [SendFrame] encodes the payload length in the shortest form: one
    octet below 126, the marker 126 and two octets below 65536, the marker
    127 and eight octets from there on; the length which [ReceiveData]
    reads back from the frame is the length of the payload. *)
Theorem C7_shortest_length (s : Impl) (c : Connection) (fin : bool)
        (opcode : uint8_t) (payload : bytes) :
  connection s = Some c ->
  size payload < 2 ^ 64 ->
  SendFrame fin opcode payload s = Ok tt (after_SendFrame fin opcode payload s)
  /\ calls_of (after_SendFrame fin opcode payload s)
     = calls c ++ [SendData (next_frame s fin opcode payload)]
  /\ (exists b0 body,
         next_frame s fin opcode payload
         = b0 :: wire_length (Role.eqb (role s) Role.Client) (size payload)
              ++ body)
  /\ size (wire_length (Role.eqb (role s) Role.Client) (size payload))
     = (if size payload <? 126 then 1
        else if size payload <? 65536 then 3 else 9)
  /\ frame_lengths (next_frame s fin opcode payload)
     = Some ((if size payload <? 126 then 2
              else if size payload <? 65536 then 4 else 10)
             + (if Role.eqb (role s) Role.Client then 4 else 0),
             size payload).
Proof.
  intros Hc HL. split; [exact (SendFrame_spec _ _ _ _ c Hc)|].
  split; [exact (after_SendFrame_calls _ _ _ _ c Hc)|].
  rewrite next_frame_layout. split; [|split].
  - eexists. eexists. reflexivity.
  - apply wire_length_size.
  - apply frame_lengths_wire. exact HL.
Qed.

(** C8.  Masking twice with the same key gives the payload back, and so
    the payload a server takes out of a frame which a client's [SendFrame]
    built is the payload that was sent. *)
Theorem C8_mask_round_trip (s : Impl) (c : Connection) (fin : bool)
        (opcode : uint8_t) (payload : bytes) :
  connection s = Some c ->
  role s = Role.Client ->
  size payload + 14 < 2 ^ 64 ->
  (forall k i, mask_payload k i (mask_payload k i payload) = payload)
  /\ SendFrame fin opcode payload s
     = Ok tt (after_SendFrame fin opcode payload s)
  /\ calls_of (after_SendFrame fin opcode payload s)
     = calls c ++ [SendData (next_frame s fin opcode payload)]
  /\ exists headerLength,
      frame_lengths (next_frame s fin opcode payload)
      = Some (headerLength, size payload)
      /\ frame_payload Role.Server (next_frame s fin opcode payload)
                       headerLength (size payload)
         = Some payload.
Proof.
  intros Hc Hr HL.
  split; [intros k i; apply mask_payload_involutive|].
  split; [exact (SendFrame_spec _ _ _ _ c Hc)|].
  split; [exact (after_SendFrame_calls _ _ _ _ c Hc)|].
  rewrite next_frame_layout, Hr. cbn [Role.eqb].
  eexists. split; [apply frame_lengths_wire; lia|].
  unfold frame_payload. cbn [Role.eqb].
  set (pre := u8 ((if fin then 128 else 0) + val opcode)
              :: wire_length true (size payload)).
  assert (Hpre : size pre = if size payload <? 126 then 2
                            else if size payload <? 65536 then 4 else 10).
  { unfold pre. rewrite size_cons, wire_length_size.
    destruct (size payload <? 126); [|destruct (size payload <? 65536)];
      reflexivity. }
  pose proof (unmask_payload_spec pre (next_key s) []
                (size pre + 4) (next_key_size s) eq_refl
                (mask_payload (next_key s) 0 payload) []) as U.
  rewrite mask_payload_length, mask_payload_involutive in U.
  replace (N.to_nat (size payload)) with (List.length payload)
    by (unfold size; rewrite Nat2N.id; reflexivity).
  rewrite Hpre in U. cbn [app] in U. rewrite app_nil_r in U.
  change (size []) with 0 in U.
  apply U.
  unfold size. rewrite mask_payload_length. fold (size payload).
  destruct (size payload <? 126); [|destruct (size payload <? 65536)]; lia.
Qed.

Lemma wire_frame_size (fin : bool) (opcode : uint8_t) (k : option bytes)
      (payload : bytes) :
  match k with Some k => size k = 4 | None => True end ->
  size (wire_frame fin opcode k payload)
  = (if size payload <? 126 then 2
     else if size payload <? 65536 then 4 else 10)
    + (match k with Some _ => 4 | None => 0 end) + size payload.
Proof.
  intro Hk. unfold wire_frame. cbn [app].
  rewrite size_cons, size_app, wire_length_size.
  destruct k as [k|].
  - rewrite size_app, Hk. unfold size at 3.
    rewrite mask_payload_length. fold (size payload).
    destruct (size payload <? 126); [|destruct (size payload <? 65536)]; lia.
  - destruct (size payload <? 126); [|destruct (size payload <? 65536)]; lia.
Qed.

Lemma first_octet_bits (o : N) :
  o < 16 ->
  N.land (N.shiftr o 4) 0x07 = 0
  /\ N.land (N.shiftr (128 + o) 4) 0x07 = 0
  /\ N.land o (val FIN) = 0
  /\ N.land (128 + o) (val FIN) = 128
  /\ N.land o 0x0F = o
  /\ N.land (128 + o) 0x0F = o.
Proof.
  intro Ho.
  pose proof (forall_below 16
    (fun o => (N.land (N.shiftr o 4) 0x07 =? 0)
              && (N.land (N.shiftr (128 + o) 4) 0x07 =? 0)
              && (N.land o (val FIN) =? 0)
              && (N.land (128 + o) (val FIN) =? 128)
              && (N.land o 0x0F =? o)
              && (N.land (128 + o) 0x0F =? o))
    eq_refl o Ho) as H.
  cbv beta in H. rewrite !andb_true_iff, !N.eqb_eq in H. tauto.
Qed.

Lemma received_wire_frame (s : Impl) (fin : bool) (opcode : uint8_t)
      (k : option bytes) (payload : bytes) :
  closeReceived s = false ->
  frameReassemblyBuffer s = wire_frame fin opcode k payload ->
  match k with Some k => size k = 4 | None => True end ->
  (match k with Some _ => true | None => false end)
  = Role.eqb (role s) Role.Server ->
  val opcode < 16 ->
  size payload + 14 < 2 ^ 64 ->
  received_frame s
    ((if size payload <? 126 then 2
      else if size payload <? 65536 then 4 else 10)
     + (match k with Some _ => 4 | None => 0 end))
    (size payload)
  = Some (fin, opcode, payload).
Proof.
  intros Hr Hb Hk Hrole Ho HL.
  unfold received_frame. rewrite Hr, Hb.
  pose proof (wire_frame_size fin opcode k payload Hk) as Hsz.
  assert (H0 : at_ (wire_frame fin opcode k payload) 0
               = Some (u8 ((if fin then 0x80 else 0) + val opcode)))
    by reflexivity.
  assert (H1 : at_ (wire_frame fin opcode k payload) 1
               = Some (nth 0 (wire_length
                                (match k with Some _ => true | None => false end)
                                (size payload)
                              ++ match k with
                                 | Some k => k ++ mask_payload k 0 payload
                                 | None => payload
                                 end) zero)).
  { rewrite at_nth
      by (rewrite Hsz;
          destruct (size payload <? 126); [|destruct (size payload <? 65536)];
          lia).
    reflexivity. }
  rewrite H0, H1. cbv beta iota.
  destruct (first_octet_bits (val opcode) Ho) as (R0 & R1 & F0 & F1 & O0 & O1).
  assert (Hv : val (u8 ((if fin then 0x80 else 0) + val opcode))
               = (if fin then 0x80 else 0) + val opcode)
    by (apply val_u8_small; destruct fin; lia).
  rewrite Hv.
  assert (Hrsv : N.land (N.shiftr ((if fin then 128 else 0) + val opcode) 4) 7
                 = 0)
    by (destruct fin; [exact R1|rewrite N.add_0_l; exact R0]).
  rewrite Hrsv. change (negb (0 =? 0)) with false. cbv iota.
  rewrite wire_length_mask_bit, Hrole, eqb_reflx.
  assert (Hfin : negb (N.land ((if fin then 128 else 0) + val opcode) (val FIN)
                       =? 0) = fin)
    by (destruct fin; [rewrite F1|rewrite N.add_0_l, F0]; reflexivity).
  assert (Hop : u8 (N.land ((if fin then 128 else 0) + val opcode) 15)
                = opcode)
    by (destruct fin; [rewrite O1|rewrite N.add_0_l, O0]; apply u8_val).
  rewrite Hfin, Hop.
  assert (Hp : frame_payload (role s) (wire_frame fin opcode k payload)
                 ((if size payload <? 126 then 2
                   else if size payload <? 65536 then 4 else 10)
                  + match k with Some _ => 4 | None => 0 end)
                 (size payload) = Some payload).
  { unfold frame_payload. rewrite <- Hrole.
    set (pre := u8 ((if fin then 128 else 0) + val opcode)
                :: wire_length (match k with Some _ => true | None => false end)
                               (size payload)).
    assert (Hpre : size pre = if size payload <? 126 then 2
                              else if size payload <? 65536 then 4 else 10).
    { unfold pre. rewrite size_cons, wire_length_size.
      destruct (size payload <? 126); [|destruct (size payload <? 65536)];
        reflexivity. }
    destruct k as [k|].
    - pose proof (unmask_payload_spec pre k [] (size pre + 4) Hk eq_refl
                    (mask_payload k 0 payload) []) as U.
      rewrite mask_payload_length, mask_payload_involutive in U.
      replace (N.to_nat (size payload)) with (List.length payload)
        by (unfold size; rewrite Nat2N.id; reflexivity).
      rewrite Hpre in U. cbn [app] in U. rewrite app_nil_r in U.
      change (size []) with 0 in U. apply U.
      assert (Hmp : size (mask_payload k 0 payload) = size payload)
        by (unfold size; rewrite mask_payload_length; reflexivity).
      rewrite Hmp.
      destruct (size payload <? 126); [|destruct (size payload <? 65536)]; lia.
    - rewrite N.add_0_r, <- Hpre.
      pose proof (assign_payload_spec pre payload []) as U.
      rewrite app_nil_r in U. exact U. }
  rewrite Hp. reflexivity.
Qed.

(** C10.  A received Ping frame is answered whatever its FIN flag and
    payload length.  For the octets of any Ping frame in the buffer - first
    octet, length in its shortest form, and for a server the masking key
    and the masked payload - [ReceiveData] computes the lengths, and
    [ReceiveFrame] sends a Pong frame with FIN set which carries the
    payload that was received, unmasked by a server with the key of the
    frame, queues a Ping event with that payload, and leaves the close
    flags as they were. *)
Theorem C10_ping_unchecked (IsValidEncoding : bytes -> bool) (s : Impl)
        (c : Connection) (fin : bool) (maskingKey : option bytes)
        (payload : bytes) :
  connection s = Some c ->
  closeReceived s = false ->
  frameReassemblyBuffer s = wire_frame fin OPCODE_PING maskingKey payload ->
  match maskingKey with Some k => size k = 4 | None => True end ->
  (match maskingKey with Some _ => true | None => false end)
  = Role.eqb (role s) Role.Server ->
  size payload + 14 < 2 ^ 64 ->
  frame_lengths (frameReassemblyBuffer s)
  = Some ((if size payload <? 126 then 2
           else if size payload <? 65536 then 4 else 10)
          + (match maskingKey with Some _ => 4 | None => 0 end),
          size payload)
  /\ exists s',
      ReceiveFrame IsValidEncoding
        ((if size payload <? 126 then 2
          else if size payload <? 65536 then 4 else 10)
         + (match maskingKey with Some _ => 4 | None => 0 end))
        (size payload) s
      = Ok tt s'
      /\ calls_of s'
         = calls c ++ [SendData (next_frame s true OPCODE_PONG payload)]
      /\ next_frame s true OPCODE_PONG payload
         = u8 0x8A
           :: wire_length (Role.eqb (role s) Role.Client) (size payload)
           ++ (if Role.eqb (role s) Role.Client
               then next_key s ++ mask_payload (next_key s) 0 payload
               else payload)
      /\ eventQueue s'
         = eventQueue s ++ [Event.Build Event.Ping payload None]
      /\ closeSent s' = closeSent s
      /\ closeReceived s' = false.
Proof.
  intros Hc Hr Hb Hk Hrole HL.
  split.
  - rewrite Hb. unfold wire_frame. cbn [app].
    rewrite frame_lengths_wire by lia.
    destruct maskingKey; reflexivity.
  - pose proof (received_wire_frame s fin OPCODE_PING maskingKey payload Hr Hb
                  Hk Hrole ltac:(vm_compute; reflexivity) HL) as Hf.
    destruct (ping_answered IsValidEncoding s _ _ fin payload c Hf Hc)
      as (s' & E & Hcalls & _ & Hq & Hs & Hr').
    exists s'. split; [exact E|]. split; [exact Hcalls|].
    split; [apply next_frame_layout|].
    split; [exact Hq|]. split; [exact Hs|exact Hr'].
Qed.

(** ** The opening handshake *)

Lemma bytes_eqb_eq (a b : bytes) : bytes_eqb a b = true <-> a = b.
Proof.
  unfold bytes_eqb. destruct (list_eq_dec ascii_dec a b); split; intro E;
    congruence.
Qed.

Lemma bytes_eqb_refl (a : bytes) : bytes_eqb a a = true.
Proof. apply bytes_eqb_eq. reflexivity. Qed.

Ltac other_name :=
  let E := fresh "E" in intro E; vm_compute in E; discriminate E.

Section HandshakeProofs.

Context {H : Type} `{MessageHeadersLaws H}.
Variables Base64_Encode Base64_Decode Sha1 : bytes -> bytes.

(** The headers of the request which [StartOpenAsClient] hands back. *)
Lemma StartOpenAsClient_run (request : Request H) (s : Impl) :
  exists request',
    StartOpenAsClient Base64_Encode request s
    = Ok request'
         (set_key (Base64_Encode (map (rng s) (seq 0 16)))
                  (set_rng (fun i => rng s (16 + i)%nat) s))
    /\ method request' = method request
    /\ HasHeaderToken (request_headers request') (str "Connection")
                      (str "upgrade") = true
    /\ GetHeaderValue (request_headers request') (str "Upgrade")
       = str "websocket"
    /\ GetHeaderValue (request_headers request') (str "Sec-WebSocket-Version")
       = str "13"
    /\ GetHeaderValue (request_headers request') (str "Sec-WebSocket-Key")
       = Base64_Encode (map (rng s) (seq 0 16)).
Proof.
  unfold StartOpenAsClient. run. fields.
  eexists. split; [reflexivity|]. cbn [method request_headers].
  split; [reflexivity|]. split; [apply has_upgrade|].
  split; [|split].
  - rewrite get_values_other by other_name. apply get_set.
  - rewrite get_values_other by other_name.
    rewrite !get_set_other by other_name. apply get_set.
  - rewrite get_values_other by other_name.
    rewrite get_set_other by other_name. apply get_set.
Qed.

Lemma OpenAsServer_accepts (connection_ : Connection) (request : Request H)
      (response : Response H) (s : Impl) :
  method request = str "GET" ->
  HasHeaderToken (request_headers request) (str "Connection") (str "upgrade")
  = true ->
  GetHeaderValue (request_headers request) (str "Upgrade") = str "websocket" ->
  GetHeaderValue (request_headers request) (str "Sec-WebSocket-Version")
  = str "13" ->
  size (Base64_Decode (GetHeaderValue (request_headers request)
                                      (str "Sec-WebSocket-Key"))) = 16 ->
  exists response' s',
    OpenAsServer Base64_Encode Base64_Decode Sha1 connection_ request
                 response [] s
    = Ok (true, response') s'
    /\ role s' = Role.Server
    /\ connection s' = Some connection_
    /\ statusCode response' = 101
    /\ HasHeaderToken (response_headers response') (str "Connection")
                      (str "upgrade") = true
    /\ GetHeaderValue (response_headers response') (str "Upgrade")
       = str "websocket"
    /\ GetHeaderValue (response_headers response') (str "Sec-WebSocket-Accept")
       = ComputeKeyAnswer Base64_Encode Sha1
           (GetHeaderValue (request_headers request) (str "Sec-WebSocket-Key"))
    /\ (forall n, ToLower n <> ToLower (str "Connection") ->
                  ToLower n <> ToLower (str "Upgrade") ->
                  ToLower n <> ToLower (str "Sec-WebSocket-Accept") ->
                  GetHeaderTokens (response_headers response') n
                  = GetHeaderTokens (response_headers response) n).
Proof.
  intros Hm Hc Hu Hv Hk. unfold OpenAsServer.
  rewrite Hm, Hc, Hu, Hv.
  change (bytes_eqb (str "GET") (str "GET")) with true.
  change (bytes_eqb (ToLower (str "websocket")) (str "websocket")) with true.
  change (bytes_eqb (str "13") CURRENTLY_SUPPORTED_WEBSOCKET_VERSION) with true.
  change (size [] =? 0) with true.
  cbn [negb]. cbv iota. unfold Open. run. fields. rewrite Hk.
  change (16 =? REQUIRED_WEBSOCKET_KEY_LENGTH) with true.
  cbn [negb]. cbv iota.
  eexists. eexists. split; [reflexivity|]. fields.
  cbn [statusCode response_headers].
  split; [reflexivity|]. split; [reflexivity|]. split; [reflexivity|].
  split; [|split; [|split]].
  - rewrite !has_set_other by other_name. apply has_upgrade.
  - rewrite get_set_other by other_name. apply get_set.
  - apply get_set.
  - intros n Hn1 Hn2 Hn3.
    rewrite !tokens_set_other by (intro E; symmetry in E; contradiction).
    apply tokens_values_other. intro E; symmetry in E; contradiction.
Qed.

Lemma FinishOpenAsClient_run (connection_ : Connection) (response : Response H)
      (s : Impl) :
  FinishOpenAsClient Base64_Encode Sha1 connection_ response s
  = if (statusCode response =? 101)
       && HasHeaderToken (response_headers response) (str "Connection")
                         (str "upgrade")
       && bytes_eqb (ToLower (GetHeaderValue (response_headers response)
                                             (str "Upgrade")))
                    (str "websocket")
       && bytes_eqb (GetHeaderValue (response_headers response)
                                    (str "Sec-WebSocket-Accept"))
                    (ComputeKeyAnswer Base64_Encode Sha1 (key s))
       && (size (GetHeaderTokens (response_headers response)
                                 (str "Sec-WebSocket-Extensions")) =? 0)
       && (size (GetHeaderTokens (response_headers response)
                                 (str "Sec-WebSocket-Protocol")) =? 0)
    then Ok true (set_role Role.Client (set_connection (Some connection_) s))
    else Ok false s.
Proof.
  unfold FinishOpenAsClient, Open. run.
  destruct (statusCode response =? 101); [|reflexivity].
  destruct (HasHeaderToken _ _ _); [|reflexivity].
  destruct (bytes_eqb (ToLower _) _); [|reflexivity].
  cbn [negb andb]. cbv iota.
  destruct (bytes_eqb _ (ComputeKeyAnswer _ _ _)); [|reflexivity].
  destruct (size _ =? 0); [|reflexivity].
  destruct (size _ =? 0); reflexivity.
Qed.

(** C9.  For the 16 octets K which the client draws, the accept value
    which the server puts into its response is
    [Base64(SHA-1(Base64(K) + "258EAFA5-E914-47DA-95CA-C5AB0DC85B11"))],
    the answer to the key the client stored, so [FinishOpenAsClient]
    accepts the response of [OpenAsServer] to the request of
    [StartOpenAsClient]; and it accepts no response whose
    Sec-WebSocket-Accept header has another value. *)
Theorem C9_accept_round_trip (client server : Impl)
        (request : Request H) (response : Response H)
        (to_server to_client : Connection) :
  method request = str "GET" ->
  size (Base64_Decode (Base64_Encode (map (rng client) (seq 0 16)))) = 16 ->
  GetHeaderTokens (response_headers response) (str "Sec-WebSocket-Extensions")
  = [] ->
  GetHeaderTokens (response_headers response) (str "Sec-WebSocket-Protocol")
  = [] ->
  exists request' client' response' server' client'',
    StartOpenAsClient Base64_Encode request client = Ok request' client'
    /\ key client' = Base64_Encode (map (rng client) (seq 0 16))
    /\ OpenAsServer Base64_Encode Base64_Decode Sha1 to_client request'
                    response [] server
       = Ok (true, response') server'
    /\ GetHeaderValue (response_headers response')
                      (str "Sec-WebSocket-Accept")
       = ComputeKeyAnswer Base64_Encode Sha1 (key client')
    /\ GetHeaderValue (response_headers response')
                      (str "Sec-WebSocket-Accept")
       = Base64_Encode
           (Sha1 (Base64_Encode (map (rng client) (seq 0 16))
                  ++ str "258EAFA5-E914-47DA-95CA-C5AB0DC85B11"))
    /\ FinishOpenAsClient Base64_Encode Sha1 to_server response' client'
       = Ok true client''
    /\ (forall other client3,
           FinishOpenAsClient Base64_Encode Sha1 to_server other client'
           = Ok true client3 ->
           GetHeaderValue (response_headers other)
                          (str "Sec-WebSocket-Accept")
           = GetHeaderValue (response_headers response')
                            (str "Sec-WebSocket-Accept")).
Proof.
  intros Hm Hk He Hp.
  destruct (StartOpenAsClient_run request client)
    as (request' & Hstart & Hm' & Hc & Hu & Hv & Hkey).
  assert (Hk' : size (Base64_Decode
                        (GetHeaderValue (request_headers request')
                                        (str "Sec-WebSocket-Key"))) = 16)
    by (rewrite Hkey; exact Hk).
  destruct (OpenAsServer_accepts to_client request' response server
              ltac:(congruence) Hc Hu Hv Hk')
    as (response' & server' & Hopen & _ & _ & Hst & Hc' & Hu' & Ha & Hother).
  exists request'. eexists. exists response', server'. eexists.
  split; [exact Hstart|]. fields.
  split; [reflexivity|]. split; [exact Hopen|].
  rewrite Hkey in Ha. split; [exact Ha|].
  split; [exact Ha|].
  split.
  - rewrite FinishOpenAsClient_run. fields.
    rewrite Hst, Hc', Hu', Ha, !bytes_eqb_refl.
    rewrite !Hother by other_name. rewrite He, Hp. reflexivity.
  - intros other client3. rewrite FinishOpenAsClient_run. fields.
    destruct (bytes_eqb (GetHeaderValue (response_headers other)
                                        (str "Sec-WebSocket-Accept")) _)
      eqn:Hacc.
    + intros _. apply bytes_eqb_eq in Hacc. congruence.
    + rewrite !andb_false_r. cbn [andb]. intro E. discriminate E.
Qed.

End HandshakeProofs.

(** ** The reference headers meet the interface *)

Module ReferenceProofs.
Import Reference.

Lemma same_name_refl (n : bytes) : same_name n n = true.
Proof. apply bytes_eqb_refl. Qed.

Lemma same_name_other (n0 n n' : bytes) :
  same_name n0 n = true -> ToLower n <> ToLower n' -> same_name n0 n' = false.
Proof.
  unfold same_name. intros E Hn. apply bytes_eqb_eq in E.
  destruct (bytes_eqb (ToLower n0) (ToLower n')) eqn:E'; [|reflexivity].
  apply bytes_eqb_eq in E'. congruence.
Qed.

Lemma get_set_value (h : Headers) (n v : bytes) :
  get_value (set_value h n v) n = v.
Proof.
  induction h as [|[n0 v0] h IH]; cbn [set_value get_value].
  - rewrite same_name_refl. reflexivity.
  - destruct (same_name n0 n) eqn:E; cbn [get_value]; rewrite E;
      [reflexivity|exact IH].
Qed.

Lemma get_set_value_other (h : Headers) (n n' v : bytes) :
  ToLower n <> ToLower n' ->
  get_value (set_value h n v) n' = get_value h n'.
Proof.
  intro Hn. induction h as [|[n0 v0] h IH]; cbn [set_value get_value].
  - assert (E : same_name n n' = false).
    { unfold same_name. destruct (bytes_eqb (ToLower n) (ToLower n')) eqn:E;
        [apply bytes_eqb_eq in E; contradiction|reflexivity]. }
    rewrite E. reflexivity.
  - destruct (same_name n0 n) eqn:E; cbn [get_value].
    + rewrite (same_name_other _ _ _ E Hn). reflexivity.
    + destruct (same_name n0 n'); [reflexivity|exact IH].
Qed.

Lemma split_nonempty (s : bytes) : split s <> [].
Proof.
  destruct s as [|c s]; cbn [split]; [discriminate|].
  destruct (val c =? 44); [discriminate|].
  destruct (split s); discriminate.
Qed.

Lemma split_comma (a t : bytes) :
  split (a ++ u8 0x2C :: t) = split a ++ split t.
Proof.
  induction a as [|c a IH]; cbn [app split].
  - change (val (u8 44) =? 44) with true. reflexivity.
  - destruct (val c =? 44); rewrite IH; [reflexivity|].
    pose proof (split_nonempty a) as Hne.
    destruct (split a); [contradiction|reflexivity].
Qed.

Lemma join_last (vs : list bytes) (u : bytes) :
  vs <> [] -> join (vs ++ [u]) = join vs ++ u8 0x2C :: u.
Proof.
  induction vs as [|v vs IH]; [contradiction|]. intros _.
  destruct vs as [|v' vs]; [reflexivity|].
  change (join ((v :: v' :: vs) ++ [u]))
    with (v ++ u8 0x2C :: join ((v' :: vs) ++ [u])).
  rewrite IH by discriminate.
  change (join (v :: v' :: vs)) with (v ++ u8 0x2C :: join (v' :: vs)).
  rewrite <- app_assoc. reflexivity.
Qed.

Lemma tokens_upgrade (vs : list bytes) :
  existsb (bytes_eqb (str "upgrade")) (tokens (join (vs ++ [str "upgrade"])))
  = true.
Proof.
  destruct vs as [|v vs]; [reflexivity|].
  rewrite join_last by discriminate.
  unfold tokens. rewrite split_comma, map_app, filter_app, existsb_app.
  apply orb_true_r.
Qed.

#[global] Instance headers_laws : MessageHeadersLaws Headers.
Proof.
  split; cbn [GetHeaderValue GetHeaderTokens HasHeaderToken SetHeader
              SetHeaderValues headers].
  - apply get_set_value.
  - apply get_set_value_other.
  - intros. apply get_set_value_other. assumption.
  - intros. rewrite get_set_value_other by assumption. reflexivity.
  - intros. rewrite get_set_value_other by assumption. reflexivity.
  - intros. rewrite get_set_value_other by assumption. reflexivity.
  - intros. rewrite get_set_value. apply tokens_upgrade.
Qed.

End ReferenceProofs.


Lemma C9_accept_round_trip_witness :
  exists request' client' response' server' client'',
    StartOpenAsClient Reference.Encode Example.request0 Example.rfc_client
    = Ok request' client'
    /\ key client' = str "dGhlIHNhbXBsZSBub25jZQ=="
    /\ OpenAsServer Reference.Encode Reference.Decode Reference.Sha1
                    Example.peer request' Example.response0 []
                    (Example.opened Role.Server)
       = Ok (true, response') server'
    /\ GetHeaderValue (response_headers response')
                      (str "Sec-WebSocket-Accept")
       = str "s3pPLMBiTxaQ9kYGzzhZRbK+xOo="
    /\ FinishOpenAsClient Reference.Encode Reference.Sha1 Example.peer
                          response' client'
       = Ok true client''
    /\ (forall other client3,
           FinishOpenAsClient Reference.Encode Reference.Sha1 Example.peer
                              other client'
           = Ok true client3 ->
           GetHeaderValue (response_headers other)
                          (str "Sec-WebSocket-Accept")
           = str "s3pPLMBiTxaQ9kYGzzhZRbK+xOo=").
Proof.
  destruct (C9_accept_round_trip Reference.Encode Reference.Decode
              Reference.Sha1 Example.rfc_client (Example.opened Role.Server)
              Example.request0 Example.response0 Example.peer Example.peer)
    as (request' & client' & response' & server' & client''
        & Hstart & Hkey & Hopen & _ & Haccept & Hfinish & Honly).
  - reflexivity.
  - vm_compute. reflexivity.
  - reflexivity.
  - reflexivity.
  - assert (Hvalue : GetHeaderValue (response_headers response')
                                    (str "Sec-WebSocket-Accept")
                     = str "s3pPLMBiTxaQ9kYGzzhZRbK+xOo=")
      by (rewrite Haccept; vm_compute; reflexivity).
    exists request', client', response', server', client''.
    split; [exact Hstart|].
    split; [rewrite Hkey; vm_compute; reflexivity|].
    split; [exact Hopen|]. split; [exact Hvalue|].
    split; [exact Hfinish|].
    intros other client3 E. rewrite (Honly other client3 E). exact Hvalue.
Defined.

(** ** The claims on concrete engines *)

(** C1 as stated does not hold: a close frame received after a close was
    sent, a failure close after the peer's close, and a close with code
    1006 after the peer's close all break the transport with
    [Break(false)], and [Break(true)] is never called. *)
Lemma C1_counterexample :
  closeSent Example.close_sent = true
  /\ received_frame Example.close_sent 2 0 = Some (true, OPCODE_CLOSE, [])
  /\ (exists s',
         ReceiveFrame Reference.IsValidEncoding 2 0 Example.close_sent
         = Ok tt s'
         /\ calls_of s' = [Break false]
         /\ ~ In (Break true) (calls_of s'))
  /\ closeSent Example.peer_closed = false
  /\ closeReceived Example.peer_closed = true
  /\ (exists s',
         Close 1009 (str "frame too large") true Example.peer_closed
         = Ok tt s'
         /\ closeSent s' = true
         /\ calls_of s'
            = [SendData (map u8 [0x88; 0x11; 0x03; 0xF1]
                         ++ str "frame too large");
               Break false]
         /\ ~ In (Break true) (calls_of s'))
  /\ (exists s',
         WebSocket_Close Example.all_delegates 1006 [] Example.peer_closed
         = Ok [] s'
         /\ closeSent s' = true
         /\ calls_of s' = [Break false]
         /\ ~ In (Break true) (calls_of s')).
Proof.
  split; [reflexivity|]. split; [reflexivity|].
  split.
  { eexists. split; [vm_compute; reflexivity|].
    split; [reflexivity|].
    intros [E|[]]. discriminate E. }
  split; [reflexivity|]. split; [reflexivity|].
  split.
  { eexists. split; [vm_compute; reflexivity|].
    split; [reflexivity|]. split; [reflexivity|].
    intros [E|[E|[]]]; discriminate E. }
  eexists. split; [vm_compute; reflexivity|].
  split; [reflexivity|]. split; [reflexivity|].
  intros [E|[]]. discriminate E.
Qed.

Lemma C1_teardown_amended_witness :
  (exists s', Close 1000 (str "bye") false Example.peer_closed = Ok tt s'
              /\ closeSent s' = true
              /\ calls_of s'
                 = calls Example.peer
                   ++ [SendData (next_frame Example.peer_closed true
                                   OPCODE_CLOSE
                                   (close_payload 1000 (str "bye")));
                       Break true])
  /\ (exists s',
         ReceiveFrame Reference.IsValidEncoding 2 0 Example.close_sent
         = Ok tt s'
         /\ closeReceived s' = true
         /\ calls_of s' = calls Example.peer ++ [Break false]).
Proof.
  split.
  - apply (proj1 (C1_teardown_amended Reference.IsValidEncoding
                    Example.peer_closed Example.peer eq_refl));
      [reflexivity|reflexivity|discriminate].
  - apply (proj2 (C1_teardown_amended Reference.IsValidEncoding
                    Example.close_sent Example.peer eq_refl)
                 2 0 true []); reflexivity.
Defined.

Lemma C2_close_codes_witness :
  (exists s',
      ReceiveFrame Reference.IsValidEncoding 2 2 Example.closing = Ok tt s'
      /\ eventQueue s'
         = eventQueue Example.closing
           ++ [Event.Build Event.Close []
                 (Some (256 * val (u8 0x03) + val (u8 0xE8)))])
  /\ (ReceiveFrame Reference.IsValidEncoding 2 3
        (Example.holding Role.Client [0x88; 0x03; 0x03; 0xE8; 0xFF])
      = Close 1007 (str "invalid UTF-8 encoding in close reason") true
              (Example.holding Role.Client [0x88; 0x03; 0x03; 0xE8; 0xFF]))
  /\ (exists s' rest,
         Close 1005 [] false Example.closing = Ok tt s'
         /\ calls_of s'
            = calls Example.peer
              ++ SendData (next_frame Example.closing true OPCODE_CLOSE [])
                 :: rest
         /\ next_frame Example.closing true OPCODE_CLOSE []
            = u8 0x88 :: (if Role.eqb (role Example.closing) Role.Client
                          then u8 0x80 :: next_key Example.closing
                          else [u8 0x00])).
Proof.
  split; [|split].
  - apply (proj2 (proj1 (C2_close_codes Reference.IsValidEncoding
                           Example.closing Example.peer eq_refl)
                        2 2 true [u8 0x03; u8 0xE8] eq_refl)
                 (u8 0x03) (u8 0xE8) [] eq_refl); reflexivity.
  - apply (proj2 (proj1 (C2_close_codes Reference.IsValidEncoding
                           (Example.holding Role.Client
                              [0x88; 0x03; 0x03; 0xE8; 0xFF])
                           Example.peer eq_refl)
                        2 3 true [u8 0x03; u8 0xE8; u8 0xFF] eq_refl)
                 (u8 0x03) (u8 0xE8) [u8 0xFF] eq_refl); reflexivity.
  - apply (proj2 (C2_close_codes Reference.IsValidEncoding
                    Example.closing Example.peer eq_refl)); reflexivity.
Defined.

Lemma C4_text_validation_witness :
  ReceiveFrame Reference.IsValidEncoding 2 2 Example.bad_text
  = Close 1007 (str "invalid UTF-8 encoding in text message") true
          Example.bad_text
  /\ exists s',
      ReceiveFrame Reference.IsValidEncoding 2 2 Example.bad_text = Ok tt s'
      /\ closed_with 1007 (str "invalid UTF-8 encoding in text message")
                     Example.bad_text s'.
Proof.
  destruct (C4_text_validation Reference.IsValidEncoding Example.bad_text 2 2
              OPCODE_TEXT [u8 0xC3; u8 0x28] [u8 0xC3; u8 0x28]
              Example.bad_text eq_refl eq_refl) as [H1 H2].
  split; [exact H1|].
  apply (proj2 (H2 eq_refl) Example.peer); reflexivity.
Defined.

Lemma C5_frame_size_cap_witness :
  ReceiveData Reference.IsValidEncoding (repeat zero 101) Example.capped
  = Close 1009 (str "frame too large") true Example.capped
  /\ (forall s',
         ReceiveData Reference.IsValidEncoding (repeat zero 101) Example.capped
         = Ok tt s' ->
         frameReassemblyBuffer s' = frameReassemblyBuffer Example.capped)
  /\ exists s',
      ReceiveData Reference.IsValidEncoding (repeat zero 101) Example.capped
      = Ok tt s'
      /\ closed_with 1009 (str "frame too large") Example.capped s'.
Proof.
  destruct (C5_frame_size_cap Reference.IsValidEncoding Example.capped
              (repeat zero 101) Example.peer eq_refl eq_refl eq_refl eq_refl)
    as (H1 & H2 & H3).
  split; [exact H1|]. split; [exact H2|]. apply H3. reflexivity.
Defined.

Lemma C6_masking_iff_client_witness :
  SendFrame true OPCODE_PING (str "abc") (Example.opened Role.Client)
  = Ok tt (after_SendFrame true OPCODE_PING (str "abc")
                           (Example.opened Role.Client))
  /\ negb (N.land (val (nth 1 (next_frame (Example.opened Role.Client) true
                                 OPCODE_PING (str "abc")) zero))
                  (val MASK) =? 0)
     = true
  /\ negb (N.land (val (nth 1 (next_frame (Example.opened Role.Server) true
                                 OPCODE_PING (str "abc")) zero))
                  (val MASK) =? 0)
     = false.
Proof.
  destruct (C6_masking_iff_client (Example.opened Role.Client) Example.peer
              true OPCODE_PING (str "abc") eq_refl) as (H1 & _ & H2 & _).
  destruct (C6_masking_iff_client (Example.opened Role.Server) Example.peer
              true OPCODE_PING (str "abc") eq_refl) as (_ & _ & H3 & _).
  split; [exact H1|]. split; [exact H2|exact H3].
Defined.

Lemma C7_shortest_length_witness :
  frame_lengths (next_frame (Example.opened Role.Server) true OPCODE_BINARY
                            (repeat zero 200))
  = Some (4, 200)
  /\ frame_lengths (next_frame (Example.opened Role.Client) true OPCODE_BINARY
                               (repeat zero 125))
     = Some (6, 125).
Proof.
  split.
  - exact (proj2 (proj2 (proj2 (proj2
             (C7_shortest_length (Example.opened Role.Server) Example.peer
                true OPCODE_BINARY (repeat zero 200) eq_refl eq_refl))))).
  - exact (proj2 (proj2 (proj2 (proj2
             (C7_shortest_length (Example.opened Role.Client) Example.peer
                true OPCODE_BINARY (repeat zero 125) eq_refl eq_refl))))).
Defined.

Lemma C8_mask_round_trip_witness :
  exists headerLength,
    frame_lengths (next_frame (Example.opened Role.Client) true OPCODE_TEXT
                              (str "Hello"))
    = Some (headerLength, 5)
    /\ frame_payload Role.Server
         (next_frame (Example.opened Role.Client) true OPCODE_TEXT
                     (str "Hello"))
         headerLength 5
       = Some (str "Hello").
Proof.
  exact (proj2 (proj2 (proj2
           (C8_mask_round_trip (Example.opened Role.Client) Example.peer
              true OPCODE_TEXT (str "Hello") eq_refl eq_refl eq_refl)))).
Defined.

Lemma C10_ping_unchecked_witness :
  (exists s',
      ReceiveFrame Reference.IsValidEncoding 6 3 Example.masked_ping
      = Ok tt s'
      /\ calls_of s' = [SendData (map u8 [0x8A; 0x03; 0x61; 0x62; 0x63])]
      /\ eventQueue s' = [Event.Build Event.Ping (str "abc") None])
  /\ (exists s',
         ReceiveFrame Reference.IsValidEncoding 4 126 Example.long_ping
         = Ok tt s'
         /\ calls_of s'
            = [SendData
                 (map u8 [0x8A; 0xFE; 0x00; 0x7E; 0x37; 0x38; 0x39; 0x3A]
                  ++ map (fun i => u8 (N.lxor (N.of_nat i)
                                              (0x37 + N.of_nat (i mod 4))))
                         (seq 0 126))]
         /\ eventQueue s'
            = [Event.Build Event.Ping (map u8 Example.counting) None]).
Proof.
  split.
  - destruct (C10_ping_unchecked Reference.IsValidEncoding Example.masked_ping
                Example.peer false (Some (map u8 [0x01; 0x02; 0x03; 0x04]))
                (str "abc") eq_refl eq_refl eq_refl eq_refl eq_refl eq_refl)
      as (_ & s' & E & Hcalls & _ & Hq & _).
    exists s'. split; [exact E|]. split; [exact Hcalls|exact Hq].
  - destruct (C10_ping_unchecked Reference.IsValidEncoding Example.long_ping
                Example.peer false None (map u8 Example.counting)
                eq_refl eq_refl eq_refl I eq_refl eq_refl)
      as (_ & s' & E & Hcalls & _ & Hq & _).
    exists s'. split; [exact E|]. split; [exact Hcalls|exact Hq].
Defined.
(** ** Relations which the member functions preserve *)

Ltac split_all := repeat match goal with |- _ /\ _ => split end.

Ltac state_eq E s :=
  apply (f_equal (fun r => state_of r s)) in E; cbn [state_of] in E.

Section Preserves.

Variable R : Impl -> Impl -> Prop.
Hypothesis R_refl : forall s, R s s.
Hypothesis R_trans : forall s1 s2 s3, R s1 s2 -> R s2 s3 -> R s1 s3.

Lemma preserves_ret {A : Type} (a : A) : preserves R (ret a).
Proof. intros s a' s' E. unfold ret in E. state_eq E s. subst s'. auto. Qed.

Lemma preserves_bind {A B : Type} (m : M A) (f : A -> M B) :
  preserves R m -> (forall a, preserves R (f a)) -> preserves R (bind m f).
Proof.
  intros Hm Hf s b s' E. unfold bind in E.
  destruct (m s) as [a s1| |] eqn:E1; try discriminate E.
  apply (R_trans s s1 s'); [exact (Hm s a s1 E1)|exact (Hf a s1 b s' E)].
Qed.

Lemma preserves_get {A : Type} (field : Impl -> A) : preserves R (get field).
Proof. intros s a s' E. unfold get in E. state_eq E s. subst s'. auto. Qed.

Lemma preserves_undefined {A : Type} : preserves R (@undefined A).
Proof. intros s a s' E. discriminate E. Qed.

Lemma preserves_timeout {A : Type} : preserves R (@timeout A).
Proof. intros s a s' E. discriminate E. Qed.

Lemma preserves_lift {A : Type} (o : option A) : preserves R (lift o).
Proof. destruct o; [apply preserves_ret|apply preserves_undefined]. Qed.

Lemma preserves_modify (f : Impl -> Impl) :
  (forall s, R s (f s)) -> preserves R (modify f).
Proof.
  intros Hf s a s' E. unfold modify in E. state_eq E s. subst s'. apply Hf.
Qed.

End Preserves.

Lemma extends_refl (s : Impl) : extends s s.
Proof.
  unfold extends. split_all; auto; try (exists []; symmetry; apply app_nil_r).
  destruct (connection s) as [c|]; eauto.
Qed.

Lemma extends_trans (s1 s2 s3 : Impl) :
  extends s1 s2 -> extends s2 s3 -> extends s1 s3.
Proof.
  unfold extends.
  intros (A1 & A2 & A3 & A4 & A5 & A6 & (e1 & A7) & (c1 & A8) & (d1 & A9) & A10)
         (B1 & B2 & B3 & B4 & B5 & B6 & (e2 & B7) & (c2 & B8) & (d2 & B9) & B10).
  split_all; try congruence; auto.
  - exists (e1 ++ e2). rewrite B7, A7, app_assoc. reflexivity.
  - exists (c1 ++ c2). rewrite B8, A8, app_assoc. reflexivity.
  - exists (d1 ++ d2). rewrite B9, A9, app_assoc. reflexivity.
  - destruct (connection s1) as [c|].
    + destruct A10 as (c' & E & P). rewrite E in B10.
      destruct B10 as (c'' & E' & P'). exists c''. split; congruence.
    + rewrite A10 in B10. exact B10.
Qed.

Lemma same_buffer_refl (s : Impl) : same_buffer s s.
Proof. reflexivity. Qed.

Lemma same_buffer_trans (s1 s2 s3 : Impl) :
  same_buffer s1 s2 -> same_buffer s2 s3 -> same_buffer s1 s3.
Proof. unfold same_buffer. congruence. Qed.

Lemma in_place_refl (s : Impl) : extends_in_place s s.
Proof. split; [apply extends_refl|apply same_buffer_refl]. Qed.

Lemma in_place_trans (s1 s2 s3 : Impl) :
  extends_in_place s1 s2 -> extends_in_place s2 s3 -> extends_in_place s1 s3.
Proof.
  intros [A B] [C D].
  split; [exact (extends_trans _ _ _ A C)|exact (same_buffer_trans _ _ _ B D)].
Qed.

Lemma preserves_weaken {A : Type} (R R' : Impl -> Impl -> Prop) (m : M A) :
  (forall s s', R s s' -> R' s s') -> preserves R m -> preserves R' m.
Proof. intros HR Hm s a s' E. apply HR. exact (Hm s a s' E). Qed.

Ltac in_place_fields :=
  unfold extends_in_place, same_buffer, extends, calls_of; fields;
  split_all; auto; try (exists []; symmetry; apply app_nil_r);
  try match goal with
      | |- match connection ?s with _ => _ end =>
          destruct (connection s) as [?c|]; eauto
      end.

Lemma in_place_set_messageReassemblyBuffer v s :
  extends_in_place s (set_messageReassemblyBuffer v s).
Proof. in_place_fields. Qed.

Lemma in_place_set_receiving v s : extends_in_place s (set_receiving v s).
Proof. in_place_fields. Qed.

Lemma in_place_set_sending v s : extends_in_place s (set_sending v s).
Proof. in_place_fields. Qed.

Lemma in_place_set_rng v s : extends_in_place s (set_rng v s).
Proof. in_place_fields. Qed.

Lemma in_place_set_closeSent s : extends_in_place s (set_closeSent true s).
Proof. in_place_fields. Qed.

Lemma in_place_set_closeReceived s :
  extends_in_place s (set_closeReceived true s).
Proof. in_place_fields. Qed.

Lemma in_place_push event s :
  extends_in_place s (set_eventQueue (eventQueue s ++ [event]) s).
Proof. in_place_fields. eauto. Qed.

Lemma in_place_publish entry s :
  extends_in_place s
    (set_diagnosticsSender (diagnosticsSender s ++ [entry]) s).
Proof. in_place_fields. eauto. Qed.

Lemma extends_set_frameReassemblyBuffer v s :
  extends s (set_frameReassemblyBuffer v s).
Proof.
  unfold extends, calls_of; fields;
  split_all; auto; try (exists []; symmetry; apply app_nil_r).
  destruct (connection s) as [c|]; eauto.
Qed.

Lemma in_place_connection_call (call : ConnectionCall) :
  preserves extends_in_place
    (c <- get connection;;
     match c with
     | Some c =>
         modify (set_connection
                   (Some {| peerId := peerId c;
                            calls := calls c ++ [call] |}))
     | None => undefined
     end).
Proof.
  intros s a s'. run. destruct (connection s) as [c|] eqn:Hc;
    [|intro E; discriminate E].
  intro E. state_eq E s. subst s'.
  unfold extends_in_place, same_buffer, extends, calls_of. fields. rewrite Hc.
  split_all; auto; try (exists []; symmetry; apply app_nil_r); eauto.
Qed.

Create HintDb keeps.
#[global] Hint Resolve in_place_set_messageReassemblyBuffer
  in_place_set_receiving in_place_set_sending in_place_set_rng
  in_place_set_closeSent in_place_set_closeReceived in_place_push
  in_place_publish extends_set_frameReassemblyBuffer : keeps.

Ltac preserves_step rf tr :=
  match goal with
  | |- preserves ?R (bind _ _) => apply (preserves_bind R tr); [|intro]
  | |- preserves ?R (ret _) => apply (preserves_ret R rf)
  | |- preserves ?R (get _) => apply (preserves_get R rf)
  | |- preserves ?R (lift _) => apply (preserves_lift R rf)
  | |- preserves ?R undefined => apply (preserves_undefined R)
  | |- preserves ?R timeout => apply (preserves_timeout R)
  | |- preserves _ (modify _) => apply preserves_modify; intro
  | |- preserves _ (if ?b then _ else _) => destruct b
  | |- preserves _ (match ?x with _ => _ end) => destruct x
  | |- preserves _ (let '(_, _) := ?r in _) => destruct r
  | |- _ => solve [auto with keeps]
  end.

Ltac in_place := repeat preserves_step in_place_refl in_place_trans.

Lemma in_place_connection_SendData frame :
  preserves extends_in_place (connection_SendData frame).
Proof. apply in_place_connection_call. Qed.

Lemma in_place_connection_Break clean :
  preserves extends_in_place (connection_Break clean).
Proof. apply in_place_connection_call. Qed.

Lemma in_place_connection_GetPeerId :
  preserves extends_in_place connection_GetPeerId.
Proof. unfold connection_GetPeerId. in_place. Qed.

Lemma in_place_publish_formatted level message :
  preserves extends_in_place
    (SendDiagnosticInformationFormatted level message).
Proof. unfold SendDiagnosticInformationFormatted. in_place. Qed.

Lemma in_place_rng_Generate n : preserves extends_in_place (rng_Generate n).
Proof. unfold rng_Generate. in_place. Qed.

Lemma in_place_eventQueue_push event :
  preserves extends_in_place (eventQueue_push event).
Proof. unfold eventQueue_push. in_place. Qed.

#[global] Hint Resolve in_place_connection_SendData in_place_connection_Break
  in_place_connection_GetPeerId in_place_publish_formatted
  in_place_rng_Generate in_place_eventQueue_push : keeps.

Lemma in_place_OnClose code reason :
  preserves extends_in_place (OnClose code reason).
Proof. unfold OnClose. in_place. Qed.

Lemma in_place_SendFrame fin opcode payload :
  preserves extends_in_place (SendFrame fin opcode payload).
Proof. unfold SendFrame. cbv zeta. in_place. Qed.

#[global] Hint Resolve in_place_OnClose in_place_SendFrame : keeps.

Lemma in_place_Close code reason fail :
  preserves extends_in_place (Close code reason fail).
Proof. unfold Close. cbv zeta. in_place. Qed.

#[global] Hint Resolve in_place_Close : keeps.

Lemma in_place_OnTextMessage IsValidEncoding message :
  preserves extends_in_place (OnTextMessage IsValidEncoding message).
Proof. unfold OnTextMessage. in_place. Qed.

Lemma in_place_OnBinaryMessage message :
  preserves extends_in_place (OnBinaryMessage message).
Proof. unfold OnBinaryMessage. in_place. Qed.

#[global] Hint Resolve in_place_OnTextMessage in_place_OnBinaryMessage : keeps.

Lemma in_place_ReceiveFrame_switch IsValidEncoding fin opcode data :
  preserves extends_in_place
    (ReceiveFrame_switch IsValidEncoding fin opcode data).
Proof. unfold ReceiveFrame_switch. cbv zeta. in_place. Qed.

#[global] Hint Resolve in_place_ReceiveFrame_switch : keeps.

Lemma in_place_ReceiveFrame IsValidEncoding hl pl :
  preserves extends_in_place (ReceiveFrame IsValidEncoding hl pl).
Proof. unfold ReceiveFrame. cbv zeta. in_place. Qed.

Lemma extends_ReceiveFrame IsValidEncoding hl pl :
  preserves extends (ReceiveFrame IsValidEncoding hl pl).
Proof.
  apply (preserves_weaken extends_in_place); [intros s s' [E _]; exact E|].
  apply in_place_ReceiveFrame.
Qed.

Lemma extends_Close code reason fail :
  preserves extends (Close code reason fail).
Proof.
  apply (preserves_weaken extends_in_place); [intros s s' [E _]; exact E|].
  apply in_place_Close.
Qed.

#[global] Hint Resolve extends_ReceiveFrame extends_Close : keeps.

Ltac extending := repeat preserves_step extends_refl extends_trans.

Lemma extends_ReceiveData_loop IsValidEncoding fuel :
  preserves extends (ReceiveData_loop IsValidEncoding fuel).
Proof.
  induction fuel as [|fuel IH]; cbn [ReceiveData_loop]; extending.
Qed.

#[global] Hint Resolve extends_ReceiveData_loop : keeps.

Lemma extends_ReceiveData IsValidEncoding data :
  preserves extends (ReceiveData IsValidEncoding data).
Proof. unfold ReceiveData. extending. Qed.

Lemma in_place_ConnectionBroken : preserves extends_in_place ConnectionBroken.
Proof. unfold ConnectionBroken. in_place. Qed.

Lemma in_place_WebSocket_Close code reason :
  preserves extends_in_place (WebSocket_Close_locked code reason).
Proof. unfold WebSocket_Close_locked. in_place. Qed.

Lemma in_place_Ping data : preserves extends_in_place (Ping_locked data).
Proof. unfold Ping_locked. in_place. Qed.

Lemma in_place_Pong data : preserves extends_in_place (Pong_locked data).
Proof. unfold Pong_locked. in_place. Qed.

Lemma in_place_SendText data last :
  preserves extends_in_place (SendText_locked data last).
Proof. unfold SendText_locked. cbv zeta. in_place. Qed.

Lemma in_place_SendBinary data last :
  preserves extends_in_place (SendBinary_locked data last).
Proof. unfold SendBinary_locked. cbv zeta. in_place. Qed.

(** ** Operations and their critical sections *)

Lemma in_place_extends {A : Type} (m : M A) :
  preserves extends_in_place m -> preserves extends m.
Proof.
  apply (preserves_weaken extends_in_place). intros s s' [E _]. exact E.
Qed.

Lemma extends_perform_locked IsValidEncoding op :
  preserves extends (perform_locked IsValidEncoding op).
Proof.
  destruct op; cbn [perform_locked].
  - apply in_place_extends, in_place_WebSocket_Close.
  - apply in_place_extends, in_place_Ping.
  - apply in_place_extends, in_place_Pong.
  - apply in_place_extends, in_place_SendText.
  - apply in_place_extends, in_place_SendBinary.
  - apply extends_ReceiveData.
  - apply in_place_extends, in_place_ConnectionBroken.
Qed.

Lemma ProcessEventQueue_run (delegates : Delegates) (s : Impl) :
  ProcessEventQueue delegates s
  = if delegatesSet s
    then Ok (deliver delegates (eventQueue s)) (set_eventQueue [] s)
    else Ok [] s.
Proof. unfold ProcessEventQueue. run. destruct (delegatesSet s); reflexivity. Qed.

Lemma then_dispatch_bind (delegates : Delegates) (m : M unit) (s : Impl) :
  bind m (fun _ => ProcessEventQueue delegates) s
  = then_dispatch true delegates (m s).
Proof. unfold bind, then_dispatch. destruct (m s); reflexivity. Qed.

(** Every operation is its critical section followed, if it did not return
    early, by the dispatch. *)
Lemma perform_split IsValidEncoding (delegates : Delegates) (op : Operation)
      (s : Impl) :
  perform IsValidEncoding delegates op s
  = then_dispatch (dispatches op s) delegates
                  (perform_locked IsValidEncoding op s).
Proof.
  destruct op; cbn [perform perform_locked];
    unfold dispatches, then_dispatch, WebSocket_Close, WebSocket_Close_locked,
      Ping, Ping_locked, Pong, Pong_locked, SendText, SendText_locked,
      SendBinary, SendBinary_locked, DataReceivedDelegate, BrokenDelegate;
    cbv zeta; run.
  - destruct (connection s); [|reflexivity]. cbv beta iota.
    destruct (Close code reason false s) as [[] s1| |]; reflexivity.
  - destruct (connection s); [|reflexivity]. cbv beta iota.
    destruct (closeSent s); [reflexivity|]. cbv beta iota.
    destruct (MAX_CONTROL_FRAME_DATA_LENGTH <? size data); [reflexivity|].
    cbv beta iota. cbn [negb andb].
    destruct (SendFrame true OPCODE_PING data s) as [[] s1| |]; reflexivity.
  - destruct (connection s); [|reflexivity]. cbv beta iota.
    destruct (closeSent s); [reflexivity|]. cbv beta iota.
    destruct (MAX_CONTROL_FRAME_DATA_LENGTH <? size data); [reflexivity|].
    cbv beta iota. cbn [negb andb].
    destruct (SendFrame true OPCODE_PONG data s) as [[] s1| |]; reflexivity.
  - destruct (connection s); [|reflexivity]. cbv beta iota.
    destruct (closeSent s); [reflexivity|]. cbv beta iota.
    destruct (sending s); cbv beta iota; cbn [negb andb]; try reflexivity;
      destruct (SendFrame _ _ _ s) as [[] s1| |]; reflexivity.
  - destruct (connection s); [|reflexivity]. cbv beta iota.
    destruct (closeSent s); [reflexivity|]. cbv beta iota.
    destruct (sending s); cbv beta iota; cbn [negb andb]; try reflexivity;
      destruct (SendFrame _ _ _ s) as [[] s1| |]; reflexivity.
  - destruct (connection s);
      destruct (ReceiveData IsValidEncoding data s) as [[] s1| |];
      reflexivity.
  - destruct (connection s);
      destruct (ConnectionBroken s) as [[] s1| |]; reflexivity.
Qed.

Lemma dispatched_refl (delegates : Delegates) (s : Impl) :
  dispatched delegates s [] s.
Proof. left. split; reflexivity. Qed.

Lemma then_dispatch_dispatched (reached : bool) (delegates : Delegates)
      (r : result unit) (calls : list DelegateCall) (s' : Impl) :
  then_dispatch reached delegates r = Ok calls s' ->
  exists s1, r = Ok tt s1 /\ dispatched delegates s1 calls s'.
Proof.
  destruct r as [[] s1| |]; cbn [then_dispatch]; try discriminate.
  intro E. exists s1. split; [reflexivity|].
  destruct reached.
  - rewrite ProcessEventQueue_run in E.
    destruct (delegatesSet s1) eqn:Hd; inversion E; subst.
    + right. repeat split. exact Hd.
    + apply dispatched_refl.
  - inversion E; subst. apply dispatched_refl.
Qed.

(** What an operation did: its critical section ran from [s] to some
    [s1], and the dispatch made the calls and left [s']. *)
Lemma perform_cases IsValidEncoding (delegates : Delegates) (op : Operation)
      (s : Impl) (calls : list DelegateCall) (s' : Impl) :
  perform IsValidEncoding delegates op s = Ok calls s' ->
  exists s1, perform_locked IsValidEncoding op s = Ok tt s1
             /\ dispatched delegates s1 calls s'.
Proof. rewrite perform_split. apply then_dispatch_dispatched. Qed.

(** An operation whose critical section runs from [s] to [s1] returns. *)
Lemma perform_outcome IsValidEncoding (delegates : Delegates) (op : Operation)
      (s s1 : Impl) :
  perform_locked IsValidEncoding op s = Ok tt s1 ->
  perform IsValidEncoding delegates op s
  = if dispatches op s && delegatesSet s1
    then Ok (deliver delegates (eventQueue s1)) (set_eventQueue [] s1)
    else Ok [] s1.
Proof.
  intro E. rewrite perform_split, E. cbn [then_dispatch].
  destruct (dispatches op s); cbn [andb]; [|reflexivity].
  apply ProcessEventQueue_run.
Qed.

Lemma perform_returns IsValidEncoding (delegates : Delegates) (op : Operation)
      (s s1 : Impl) :
  perform_locked IsValidEncoding op s = Ok tt s1 ->
  exists calls s',
    perform IsValidEncoding delegates op s = Ok calls s'
    /\ dispatched delegates s1 calls s'
    /\ calls = (if dispatches op s && delegatesSet s1
                then deliver delegates (eventQueue s1) else [])
    /\ eventQueue s' = (if dispatches op s && delegatesSet s1
                        then [] else eventQueue s1).
Proof.
  intro E. rewrite (perform_outcome _ delegates _ _ _ E).
  destruct (dispatches op s); cbn [andb].
  - destruct (delegatesSet s1) eqn:Hd.
    + do 2 eexists. split; [reflexivity|]. split; [|split; reflexivity].
      right. repeat split. exact Hd.
    + do 2 eexists. split; [reflexivity|]. split; [|split; reflexivity].
      apply dispatched_refl.
  - do 2 eexists. split; [reflexivity|]. split; [|split; reflexivity].
    apply dispatched_refl.
Qed.

(** The dispatch touches the event queue and nothing else. *)
Lemma dispatched_fields (delegates : Delegates) (s1 : Impl)
      (calls : list DelegateCall) (s' : Impl) :
  dispatched delegates s1 calls s' ->
  s' = set_eventQueue (eventQueue s') s1
  /\ connection s' = connection s1
  /\ calls_of s' = calls_of s1
  /\ closeSent s' = closeSent s1
  /\ closeReceived s' = closeReceived s1
  /\ sending s' = sending s1
  /\ delegatesSet s' = delegatesSet s1
  /\ (eventQueue s' = eventQueue s1 \/ eventQueue s' = []).
Proof.
  intros [[_ ->]|(_ & _ & ->)].
  - repeat split; auto. destruct s1; reflexivity.
  - repeat split; auto.
Qed.

Lemma perform_all_nil IsValidEncoding (delegates : Delegates) (s : Impl)
      (calls : list DelegateCall) (s' : Impl) :
  perform_all IsValidEncoding delegates [] s = Ok calls s' ->
  calls = [] /\ s' = s.
Proof. cbn [perform_all]. unfold ret. intro E. inversion E. split; reflexivity. Qed.

Lemma perform_all_cons IsValidEncoding (delegates : Delegates) (op : Operation)
      (rest : list Operation) (s : Impl) (calls : list DelegateCall)
      (s' : Impl) :
  perform_all IsValidEncoding delegates (op :: rest) s = Ok calls s' ->
  exists calls1 s1 calls2,
    perform IsValidEncoding delegates op s = Ok calls1 s1
    /\ perform_all IsValidEncoding delegates rest s1 = Ok calls2 s'
    /\ calls = calls1 ++ calls2.
Proof.
  cbn [perform_all]. unfold bind at 1.
  destruct (perform IsValidEncoding delegates op s) as [calls1 s1| |] eqn:E1;
    try discriminate.
  unfold bind.
  destruct (perform_all IsValidEncoding delegates rest s1)
    as [calls2 s2| |] eqn:E2; try discriminate.
  unfold ret. intro E. inversion E; subst.
  exists calls1, s1, calls2. split; [reflexivity|]. split; [exact E2|].
  reflexivity.
Qed.

Lemma deliver_app (d : Delegates) (q1 q2 : list Event.t) :
  deliver d (q1 ++ q2) = deliver d q1 ++ deliver d q2.
Proof.
  induction q1 as [|e q1 IH]; [reflexivity|].
  cbn [deliver app]. rewrite IH, app_assoc. reflexivity.
Qed.

(** ** Traces *)

(** A relation on states which every critical section preserves and which
    the dispatch does not disturb holds along every trace. *)
Section TraceStates.

Variable IsValidEncoding : bytes -> bool.
Variable delegates : Delegates.
Variable R : Impl -> Impl -> Prop.
Hypothesis R_refl : forall s, R s s.
Hypothesis R_trans : forall s1 s2 s3, R s1 s2 -> R s2 s3 -> R s1 s3.
Hypothesis R_locked :
  forall op, preserves R (perform_locked IsValidEncoding op).
Hypothesis R_dispatch : forall s, R s (set_eventQueue [] s).

Lemma trace_states (ops : list Operation) :
  forall s calls s',
    perform_all IsValidEncoding delegates ops s = Ok calls s' -> R s s'.
Proof.
  induction ops as [|op rest IH]; intros s calls s' E.
  - apply perform_all_nil in E. destruct E as [_ ->]. apply R_refl.
  - apply perform_all_cons in E.
    destruct E as (calls1 & s1 & calls2 & E1 & E2 & _).
    apply perform_cases in E1. destruct E1 as (s0 & E0 & D).
    apply (R_trans s s0 s'); [exact (R_locked op s tt s0 E0)|].
    apply (R_trans s0 s1 s'); [|exact (IH s1 calls2 s' E2)].
    destruct D as [[_ ->]|(_ & _ & ->)]; [apply R_refl|apply R_dispatch].
Qed.

End TraceStates.

(** The events which the critical sections add are all that a trace adds
    to the queue, and the dispatch hands them over in order. *)
Section TraceEvents.

Variable IsValidEncoding : bytes -> bool.
Variable delegates : Delegates.
Variable P : Event.t -> bool.
Variable Pre : Impl -> Prop.
Hypothesis Pre_dispatch : forall s, Pre s -> Pre (set_eventQueue [] s).
Hypothesis locked_adds :
  forall op s s1,
    Pre s -> perform_locked IsValidEncoding op s = Ok tt s1 ->
    Pre s1
    /\ exists events,
        eventQueue s1 = eventQueue s ++ events
        /\ forallb P events = true.

Lemma trace_events (ops : list Operation) :
  forall s calls s',
    Pre s ->
    perform_all IsValidEncoding delegates ops s = Ok calls s' ->
    Pre s'
    /\ exists events,
        delivers delegates s events calls s'
        /\ forallb P events = true.
Proof.
  induction ops as [|op rest IH]; intros s calls s' Hpre E.
  - apply perform_all_nil in E. destruct E as [-> ->].
    split; [exact Hpre|]. exists []. split; [|reflexivity].
    exists []. repeat split. rewrite app_nil_r. reflexivity.
  - apply perform_all_cons in E.
    destruct E as (calls1 & s1 & calls2 & E1 & E2 & ->).
    apply perform_cases in E1. destruct E1 as (s0 & E0 & D).
    destruct (locked_adds op s s0 Hpre E0) as (Hpre0 & e1 & Hq0 & Hp1).
    pose proof (extends_perform_locked IsValidEncoding op s tt s0 E0)
      as (_ & _ & _ & Hd0 & _).
    destruct D as [[-> ->]|(Hset & -> & ->)].
    + destruct (IH s0 calls2 s' Hpre0 E2)
        as (Hpre' & e2 & (delivered & Hq & Hc & Hnone) & Hp2).
      split; [exact Hpre'|]. exists (e1 ++ e2). split.
      * exists delivered. split; [|split].
        -- rewrite Hq, Hq0, app_assoc. reflexivity.
        -- exact Hc.
        -- intro Hd. apply Hnone. rewrite Hd0. exact Hd.
      * rewrite forallb_app, Hp1, Hp2. reflexivity.
    + destruct (IH (set_eventQueue [] s0) calls2 s'
                  (Pre_dispatch s0 Hpre0) E2)
        as (Hpre' & e2 & (delivered & Hq & Hc & _) & Hp2).
      fields_in Hq. cbn [app] in Hq.
      split; [exact Hpre'|]. exists (e1 ++ e2). split.
      * exists (eventQueue s0 ++ delivered). split; [|split].
        -- rewrite <- app_assoc, Hq, Hq0, app_assoc. reflexivity.
        -- rewrite deliver_app, Hc. reflexivity.
        -- intro Hd. rewrite Hd0, Hd in Hset. discriminate Hset.
      * rewrite forallb_app, Hp1, Hp2. reflexivity.
Qed.

End TraceEvents.






Lemma application_after_close IsValidEncoding (op : Operation) (s : Impl) :
  closeSent s = true -> by_application op = true ->
  perform_locked IsValidEncoding op s = Ok tt s.
Proof.
  intros Hs Hop.
  destruct op; try discriminate Hop; cbn [perform_locked];
    unfold WebSocket_Close_locked, Ping_locked, Pong_locked, SendText_locked,
      SendBinary_locked; run;
    destruct (connection s); try reflexivity; rewrite ?Hs; try reflexivity.
  apply Close_again. exact Hs.
Qed.

(** Once a close has been sent, a call of the application sends nothing
    and changes nothing: Ping, Pong, SendText and SendBinary return at
    once, and [WebSocket::Close] on a bound engine only runs the dispatch,
    which hands the queued events to the delegates if they are set. *)
Theorem closed_engine_is_silent (IsValidEncoding : bytes -> bool)
        (delegates : Delegates) (op : Operation) (s : Impl) :
  closeSent s = true -> by_application op = true ->
  perform IsValidEncoding delegates op s
  = (if dispatches op s then ProcessEventQueue delegates s else Ok [] s)
  /\ (dispatches op s = true ->
      connection s <> None /\ exists code reason, op = DoClose code reason)
  /\ exists calls s',
      perform IsValidEncoding delegates op s = Ok calls s'
      /\ s' = set_eventQueue (eventQueue s') s
      /\ calls = (if dispatches op s && delegatesSet s
                  then deliver delegates (eventQueue s) else [])
      /\ eventQueue s' = (if dispatches op s && delegatesSet s
                          then [] else eventQueue s).
Proof.
  intros Hs Hop.
  pose proof (application_after_close IsValidEncoding op s Hs Hop) as E.
  split; [|split].
  - rewrite perform_split, E. reflexivity.
  - unfold dispatches. destruct (connection s) as [c|], op;
      try discriminate Hop; rewrite ?Hs; cbn [negb andb];
      try discriminate.
    intros _. split; [discriminate|]. do 2 eexists. reflexivity.
  - destruct (perform_returns IsValidEncoding delegates op s s E)
      as (calls & s' & E' & D & Hcalls & Hq).
    exists calls, s'. split; [exact E'|].
    destruct (dispatched_fields delegates s calls s' D) as (Hs' & _).
    split; [exact Hs'|]. split; [exact Hcalls|exact Hq].
Qed.

(** ** After the peer's close *)

Lemma apc_refl (s : Impl) : after_peer_close s s.
Proof.
  intro H. split; [exact H|]. exists []. split; [symmetry; apply app_nil_r|].
  reflexivity.
Qed.

Lemma apc_trans (s1 s2 s3 : Impl) :
  after_peer_close s1 s2 -> after_peer_close s2 s3 -> after_peer_close s1 s3.
Proof.
  intros A B H. destruct (A H) as (H2 & e1 & E1 & F1).
  destruct (B H2) as (H3 & e2 & E2 & F2).
  split; [exact H3|]. exists (e1 ++ e2). split.
  - rewrite E2, E1, app_assoc. reflexivity.
  - rewrite forallb_app, F1, F2. reflexivity.
Qed.

Ltac apc_fields :=
  intro; unfold after_peer_close; fields; intro; split; auto;
  exists []; split; [symmetry; apply app_nil_r|reflexivity].

Lemma apc_set_messageReassemblyBuffer v :
  forall s, after_peer_close s (set_messageReassemblyBuffer v s).
Proof. apc_fields. Qed.

Lemma apc_set_frameReassemblyBuffer v :
  forall s, after_peer_close s (set_frameReassemblyBuffer v s).
Proof. apc_fields. Qed.

Lemma apc_set_receiving v : forall s, after_peer_close s (set_receiving v s).
Proof. apc_fields. Qed.

Lemma apc_set_sending v : forall s, after_peer_close s (set_sending v s).
Proof. apc_fields. Qed.

Lemma apc_set_rng v : forall s, after_peer_close s (set_rng v s).
Proof. apc_fields. Qed.

Lemma apc_set_closeSent v : forall s, after_peer_close s (set_closeSent v s).
Proof. apc_fields. Qed.

Lemma apc_set_closeReceived :
  forall s, after_peer_close s (set_closeReceived true s).
Proof. apc_fields. Qed.

Lemma apc_set_connection v : forall s, after_peer_close s (set_connection v s).
Proof. apc_fields. Qed.

Lemma apc_set_diagnosticsSender v :
  forall s, after_peer_close s (set_diagnosticsSender v s).
Proof. apc_fields. Qed.

Lemma apc_push_close reason code :
  preserves after_peer_close
    (eventQueue_push (Event.Build Event.Close reason code)).
Proof.
  unfold eventQueue_push. apply preserves_modify. intros s H. fields.
  split; [exact H|]. eexists. split; reflexivity.
Qed.

#[global] Hint Resolve apc_set_messageReassemblyBuffer
  apc_set_frameReassemblyBuffer apc_set_receiving apc_set_sending apc_set_rng
  apc_set_closeSent apc_set_closeReceived apc_set_connection
  apc_set_diagnosticsSender apc_push_close : keeps.

Ltac apc := repeat preserves_step apc_refl apc_trans.

Lemma apc_connection_SendData frame :
  preserves after_peer_close (connection_SendData frame).
Proof. unfold connection_SendData. apc. Qed.

Lemma apc_connection_Break clean :
  preserves after_peer_close (connection_Break clean).
Proof. unfold connection_Break. apc. Qed.

Lemma apc_connection_GetPeerId : preserves after_peer_close connection_GetPeerId.
Proof. unfold connection_GetPeerId. apc. Qed.

Lemma apc_publish level message :
  preserves after_peer_close
    (SendDiagnosticInformationFormatted level message).
Proof. unfold SendDiagnosticInformationFormatted. apc. Qed.

Lemma apc_rng_Generate n : preserves after_peer_close (rng_Generate n).
Proof. unfold rng_Generate. apc. Qed.

#[global] Hint Resolve apc_connection_SendData apc_connection_Break
  apc_connection_GetPeerId apc_publish apc_rng_Generate : keeps.

Lemma apc_OnClose code reason : preserves after_peer_close (OnClose code reason).
Proof. unfold OnClose. apc. Qed.

Lemma apc_SendFrame fin opcode payload :
  preserves after_peer_close (SendFrame fin opcode payload).
Proof. unfold SendFrame. cbv zeta. apc. Qed.

#[global] Hint Resolve apc_OnClose apc_SendFrame : keeps.

Lemma apc_Close code reason fail :
  preserves after_peer_close (Close code reason fail).
Proof. unfold Close. cbv zeta. apc. Qed.

#[global] Hint Resolve apc_Close : keeps.

Lemma ReceiveFrame_after_close IsValidEncoding hl pl s :
  closeReceived s = true -> ReceiveFrame IsValidEncoding hl pl s = Ok tt s.
Proof. intro H. unfold ReceiveFrame. run. rewrite H. reflexivity. Qed.

Lemma apc_ReceiveFrame IsValidEncoding hl pl :
  preserves after_peer_close (ReceiveFrame IsValidEncoding hl pl).
Proof.
  intros s a s' E Hr. rewrite (ReceiveFrame_after_close _ _ _ _ Hr) in E.
  state_eq E s. subst s'. apply apc_refl. exact Hr.
Qed.

#[global] Hint Resolve apc_ReceiveFrame : keeps.

Lemma apc_ReceiveData_loop IsValidEncoding fuel :
  preserves after_peer_close (ReceiveData_loop IsValidEncoding fuel).
Proof. induction fuel as [|fuel IH]; cbn [ReceiveData_loop]; apc. Qed.

#[global] Hint Resolve apc_ReceiveData_loop : keeps.

Lemma apc_perform IsValidEncoding op :
  preserves after_peer_close (perform_locked IsValidEncoding op).
Proof.
  destruct op; cbn [perform_locked];
    unfold WebSocket_Close_locked, Ping_locked, Pong_locked, SendText_locked,
      SendBinary_locked, ReceiveData,
      ConnectionBroken; cbv zeta; apc.
Qed.

(** Once the peer's close has been received, whatever happens next, the
    only events still queued are close events: no message, ping or pong is
    reported after it.  The events which a trace adds to the queue are all
    close events, and they are handed to the delegates behind those that
    were queued before. *)
Theorem only_close_events_after_peer_close (IsValidEncoding : bytes -> bool)
        (delegates : Delegates) (ops : list Operation) (s : Impl)
        (calls : list DelegateCall) (s' : Impl) :
  closeReceived s = true ->
  perform_all IsValidEncoding delegates ops s = Ok calls s' ->
  closeReceived s' = true
  /\ exists events,
      delivers delegates s events calls s'
      /\ forallb is_close events = true.
Proof.
  intros Hr E.
  apply (trace_events IsValidEncoding delegates is_close
           (fun s => closeReceived s = true)) with (ops := ops);
    [| |exact Hr|exact E].
  - intros s0 H. exact H.
  - intros op s0 s1 H E0.
    exact (apc_perform IsValidEncoding op s0 tt s1 E0 H).
Qed.

(** ** The frame loop *)

Lemma ReceiveData_run IsValidEncoding (data : bytes) (s : Impl) (c : Connection) :
  connection s = Some c -> too_large s data = false ->
  ReceiveData IsValidEncoding data s
  = ReceiveData_loop IsValidEncoding
      (S (List.length (frameReassemblyBuffer s ++ data)))
      (set_frameReassemblyBuffer (frameReassemblyBuffer s ++ data) s).
Proof.
  intros Hc Ht. unfold ReceiveData. run. rewrite Hc. cbv beta iota.
  unfold too_large in Ht. rewrite Ht. reflexivity.
Qed.

Lemma ReceiveData_loop_incomplete IsValidEncoding (fuel : nat) (s : Impl) :
  incomplete (frameReassemblyBuffer s) = true ->
  ReceiveData_loop IsValidEncoding (S fuel) s = Ok tt s.
Proof.
  unfold incomplete. intro H. cbn [ReceiveData_loop]. run.
  destruct (size (frameReassemblyBuffer s) <? 2); [reflexivity|].
  cbn [orb] in H.
  destruct (frame_lengths (frameReassemblyBuffer s)) as [[hl pl]|];
    [|reflexivity].
  rewrite H. reflexivity.
Qed.

Lemma ReceiveData_chunks (IsValidEncoding : bytes -> bool) (s : Impl)
        (c : Connection) (chunk rest : bytes) :
  connection s = Some c ->
  size (frameReassemblyBuffer s) + size (chunk ++ rest) < 2 ^ 64 ->
  too_large s (chunk ++ rest) = false ->
  incomplete (frameReassemblyBuffer s ++ chunk) = true ->
  ReceiveData IsValidEncoding chunk s
  = Ok tt (set_frameReassemblyBuffer (frameReassemblyBuffer s ++ chunk) s)
  /\ bind (ReceiveData IsValidEncoding chunk)
          (fun _ => ReceiveData IsValidEncoding rest) s
     = ReceiveData IsValidEncoding (chunk ++ rest) s.
Proof.
  intros Hc Hw Ht Hi.
  assert (Ht1 : too_large s chunk = false).
  { unfold too_large, add64, SIZE_MAX1 in *. rewrite size_app in *.
    rewrite N.mod_small in Ht by lia. rewrite N.mod_small by lia.
    destruct (0 <? maxFrameSize (configuration s)); [|reflexivity].
    cbn [andb] in *. apply N.ltb_ge in Ht. apply N.ltb_ge. lia. }
  assert (E1 : ReceiveData IsValidEncoding chunk s
               = Ok tt (set_frameReassemblyBuffer
                          (frameReassemblyBuffer s ++ chunk) s)).
  { rewrite (ReceiveData_run _ _ _ c Hc Ht1).
    apply ReceiveData_loop_incomplete. exact Hi. }
  split; [exact E1|].
  unfold bind. rewrite E1.
  rewrite (ReceiveData_run _ rest _ c) by
    (try exact Hc; unfold too_large in *; fields;
     rewrite <- Ht; unfold add64; rewrite !size_app; do 3 f_equal; lia).
  rewrite (ReceiveData_run _ (chunk ++ rest) _ c Hc Ht).
  fields. rewrite <- app_assoc. reflexivity.
Qed.

(** A chunk which ends inside a frame is only buffered, and delivering the
    rest afterwards comes to the same as delivering both at once. *)
Theorem ReceiveData_in_two_chunks (IsValidEncoding : bytes -> bool) (s : Impl)
        (c : Connection) (chunk rest : bytes) :
  connection s = Some c ->
  size (frameReassemblyBuffer s) + size (chunk ++ rest) < 2 ^ 64 ->
  too_large s (chunk ++ rest) = false ->
  incomplete (frameReassemblyBuffer s ++ chunk) = true ->
  ReceiveData IsValidEncoding chunk s
  = Ok tt (set_frameReassemblyBuffer (frameReassemblyBuffer s ++ chunk) s)
  /\ bind (ReceiveData IsValidEncoding chunk)
          (fun _ => ReceiveData IsValidEncoding rest) s
     = ReceiveData IsValidEncoding (chunk ++ rest) s.
Proof.
  intros Hc Hw Ht Hi.
  exact (ReceiveData_chunks IsValidEncoding s c chunk rest Hc Hw Ht Hi).
Qed.

Lemma frame_lengths_extended_short (b0 : uint8_t) (masked : bool) (marker : N)
      (rest : bytes) :
  (marker = 126 /\ size rest < 2) \/ (marker = 127 /\ size rest < 8) ->
  frame_lengths (b0 :: u8 ((if masked then 0x80 else 0) + marker) :: rest)
  = None.
Proof.
  intros H. unfold frame_lengths. cbn [nth].
  assert (Hm : marker < 128) by (destruct H as [[-> _]|[-> _]]; lia).
  destruct (len7_bits marker Hm) as (E1 & E2 & E3 & E4).
  assert (Hv : N.land (val (u8 ((if masked then 128 else 0) + marker)))
                      (N.lnot (val MASK) 32) = marker).
  { destruct masked; rewrite val_u8_small by lia;
      [exact E2|rewrite N.add_0_l; exact E1]. }
  rewrite Hv. rewrite !size_cons.
  destruct H as [[-> Hs]|[-> Hs]].
  - change (126 =? 126) with true. cbv iota zeta.
    assert (Hlt : (1 + (1 + size rest) <? 4) = true) by (apply N.ltb_lt; lia).
    rewrite Hlt. reflexivity.
  - change (127 =? 126) with false. change (127 =? 127) with true.
    cbv iota zeta.
    assert (Hlt : (1 + (1 + size rest) <? 10) = true) by (apply N.ltb_lt; lia).
    rewrite Hlt. reflexivity.
Qed.

Lemma size_firstn {A : Type} (n : nat) (l : list A) :
  size (firstn n l) = N.min (N.of_nat n) (size l).
Proof. unfold size. rewrite length_firstn. lia. Qed.

(** Every proper prefix of a frame leaves the loop of [ReceiveData]
    waiting: wherever a frame is cut, the first part is incomplete. *)
Lemma wire_frame_prefix_incomplete (fin : bool) (opcode : uint8_t)
      (k : option bytes) (payload : bytes) (n : nat) :
  match k with Some k => size k = 4 | None => True end ->
  size payload + 14 < 2 ^ 64 ->
  (n < List.length (wire_frame fin opcode k payload))%nat ->
  incomplete (firstn n (wire_frame fin opcode k payload)) = true.
Proof.
  intros Hk HL Hn.
  pose proof (wire_frame_size fin opcode k payload Hk) as Hsz.
  unfold incomplete.
  destruct (size (firstn n (wire_frame fin opcode k payload)) <? 2) eqn:H2;
    [reflexivity|]. cbn [orb].
  apply N.ltb_ge in H2. rewrite size_firstn in H2.
  assert (Hn2 : (2 <= n)%nat) by lia.
  destruct n as [|[|n]]; try lia. clear Hn2 H2.
  set (masked := match k with Some _ => true | None => false end).
  set (body := match k with
               | Some k => k ++ mask_payload k 0 payload
               | None => payload
               end).
  assert (Hf : wire_frame fin opcode k payload
               = u8 ((if fin then 128 else 0) + val opcode)
                 :: wire_length masked (size payload) ++ body)
    by reflexivity.
  assert (Hm4 : (if masked then 4 else 0)
                = match k with Some _ => 4 | None => 0 end)
    by (unfold masked; destruct k; reflexivity).
  rewrite Hf in *. clear Hf.
  unfold size in Hsz at 1. 
  assert (Hfull : forall m,
             (List.length (wire_length masked (size payload)) <= m)%nat ->
             (S m < List.length (u8 ((if fin then 128 else 0) + val opcode)
                                  :: wire_length masked (size payload) ++ body))%nat ->
             match frame_lengths
                     (firstn (S m)
                        (u8 ((if fin then 128 else 0) + val opcode)
                         :: wire_length masked (size payload) ++ body)) with
             | Some (hl, pl) =>
                 size (firstn (S m)
                         (u8 ((if fin then 128 else 0) + val opcode)
                          :: wire_length masked (size payload) ++ body))
                 <? add64 hl pl
             | None => true
             end = true).
  { intros m Hm Hlt. cbn [firstn].
    rewrite firstn_app.
    rewrite (firstn_all2 (n := m) (wire_length masked (size payload))) by lia.
    rewrite frame_lengths_wire by lia.
    apply N.ltb_lt. rewrite size_cons, size_app, size_firstn.
    unfold add64, SIZE_MAX1.
    cbn [List.length] in Hlt, Hsz. rewrite length_app in Hlt.
    pose proof (wire_length_size masked (size payload)) as Hws.
    unfold size in Hws at 1.
    rewrite N.mod_small
      by (destruct (size payload <? 126); [|destruct (size payload <? 65536)];
          destruct masked; lia).
    rewrite length_app in Hsz.
    destruct (size payload <? 126); [|destruct (size payload <? 65536)];
      rewrite Hm4; unfold size in *; lia. }
  pose proof (wire_length_size masked (size payload)) as Hws.
  unfold size in Hws at 1.
  destruct (size payload <? 126) eqn:H126;
    [|destruct (size payload <? 65536) eqn:H64k].
  - apply Hfull; lia.
  - destruct (Nat.le_gt_cases 3 (S n)) as [Hge|Hlt]; [apply Hfull; lia|].
    unfold wire_length. rewrite H126, H64k. cbn [app firstn].
    rewrite frame_lengths_extended_short; [reflexivity|].
    left. split; [reflexivity|]. rewrite size_firstn. lia.
  - destruct (Nat.le_gt_cases 9 (S n)) as [Hge|Hlt]; [apply Hfull; lia|].
    unfold wire_length. rewrite H126, H64k. cbn [app firstn].
    rewrite frame_lengths_extended_short; [reflexivity|].
    right. split; [reflexivity|]. rewrite size_firstn. lia.
Qed.

Lemma next_frame_wire (a : Impl) (fin : bool) (opcode : uint8_t)
      (payload : bytes) :
  exists k, next_frame a fin opcode payload = wire_frame fin opcode k payload
            /\ match k with Some k => size k = 4 | None => True end
            /\ (match k with Some _ => true | None => false end)
               = Role.eqb (role a) Role.Client.
Proof.
  unfold next_frame. destruct (Role.eqb (role a) Role.Client).
  - exists (Some (next_key a)). repeat split.
  - exists None. repeat split.
Qed.

(** A frame may be cut anywhere: the first part is buffered without any
    effect, and once the rest has arrived the outcome is that of the whole
    frame delivered at once. *)
Theorem frame_cut_anywhere (IsValidEncoding : bytes -> bool) (s : Impl)
        (c : Connection) (sender : Impl) (fin : bool) (opcode : uint8_t)
        (payload : bytes) (n : nat) :
  connection s = Some c ->
  frameReassemblyBuffer s = [] ->
  too_large s (next_frame sender fin opcode payload) = false ->
  size payload + 14 < 2 ^ 64 ->
  (n < List.length (next_frame sender fin opcode payload))%nat ->
  ReceiveData IsValidEncoding (firstn n (next_frame sender fin opcode payload))
              s
  = Ok tt (set_frameReassemblyBuffer
             (firstn n (next_frame sender fin opcode payload)) s)
  /\ bind (ReceiveData IsValidEncoding
             (firstn n (next_frame sender fin opcode payload)))
          (fun _ =>
             ReceiveData IsValidEncoding
               (skipn n (next_frame sender fin opcode payload))) s
     = ReceiveData IsValidEncoding (next_frame sender fin opcode payload) s.
Proof.
  intros Hc Hb Ht HL Hn.
  destruct (next_frame_wire sender fin opcode payload) as (k & Hf & Hk & _).
  rewrite Hf in *.
  pose proof (wire_frame_size fin opcode k payload Hk) as Hsz.
  pose proof (wire_frame_prefix_incomplete fin opcode k payload n Hk HL Hn)
    as Hi.
  destruct (ReceiveData_chunks IsValidEncoding s c
              (firstn n (wire_frame fin opcode k payload))
              (skipn n (wire_frame fin opcode k payload)) Hc) as [E1 E2].
  - rewrite firstn_skipn, Hb, Hsz. change (size []) with 0.
    destruct (size payload <? 126); [|destruct (size payload <? 65536)];
      destruct k; lia.
  - rewrite firstn_skipn. exact Ht.
  - rewrite Hb. exact Hi.
  - rewrite Hb in E1. cbn [app] in E1. rewrite firstn_skipn in E2.
    split; [exact E1|exact E2].
Qed.

Lemma ReceiveData_loop_one_frame IsValidEncoding (fuel : nat) (s : Impl)
      (hl pl : N) :
  2 <= size (frameReassemblyBuffer s) ->
  frame_lengths (frameReassemblyBuffer s) = Some (hl, pl) ->
  add64 hl pl = size (frameReassemblyBuffer s) ->
  ReceiveData_loop IsValidEncoding (S (S fuel)) s
  = map_state (set_frameReassemblyBuffer [])
              (ReceiveFrame IsValidEncoding hl pl s).
Proof.
  intros H2 Hf Ha. cbn [ReceiveData_loop]. run.
  apply N.ltb_ge in H2. rewrite H2, Hf, Ha, N.ltb_irrefl.
  destruct (ReceiveFrame IsValidEncoding hl pl s) as [[] s1| |] eqn:E;
    try reflexivity.
  pose proof (in_place_ReceiveFrame IsValidEncoding hl pl s tt s1 E) as [_ Hb].
  unfold same_buffer in Hb. fields. rewrite Hb.
  unfold size. rewrite Nat2N.id, skipn_all.
  change (N.of_nat (List.length (@nil uint8_t)) <? 2) with true.
  reflexivity.
Qed.

(** ** From one engine to the other *)

Lemma frame_received_whole (IsValidEncoding : bytes -> bool)
        (sender receiver : Impl) (to_receiver to_sender : Connection)
        (fin : bool) (opcode : uint8_t) (payload : bytes) :
  connection sender = Some to_receiver ->
  connection receiver = Some to_sender ->
  Role.eqb (role sender) (role receiver) = false ->
  closeReceived receiver = false ->
  frameReassemblyBuffer receiver = [] ->
  too_large receiver (next_frame sender fin opcode payload) = false ->
  val opcode < 16 ->
  size payload + 14 < 2 ^ 64 ->
  SendFrame fin opcode payload sender
  = Ok tt (after_SendFrame fin opcode payload sender)
  /\ calls_of (after_SendFrame fin opcode payload sender)
     = calls to_receiver ++ [SendData (next_frame sender fin opcode payload)]
  /\ ReceiveData IsValidEncoding (next_frame sender fin opcode payload) receiver
     = map_state (set_frameReassemblyBuffer [])
         (ReceiveFrame_switch IsValidEncoding fin opcode payload
            (set_frameReassemblyBuffer (next_frame sender fin opcode payload)
                                       receiver)).
Proof.
  intros Hcs Hcr Hroles Hclosed Hb Ht Ho HL.
  split; [exact (SendFrame_spec _ _ _ _ _ Hcs)|].
  split; [exact (after_SendFrame_calls _ _ _ _ _ Hcs)|].
  destruct (next_frame_wire sender fin opcode payload) as (k & Hf & Hk & Hm).
  rewrite (ReceiveData_run _ _ _ _ Hcr Ht), Hb. cbn [app].
  pose proof (wire_frame_size fin opcode k payload Hk) as Hsz.
  rewrite Hf in *.
  set (s1 := set_frameReassemblyBuffer (wire_frame fin opcode k payload)
                                       receiver).
  assert (Hm4 : (if match k with Some _ => true | None => false end
                 then 4 else 0)
                = match k with Some _ => 4 | None => 0 end)
    by (destruct k; reflexivity).
  assert (Hrole : (match k with Some _ => true | None => false end)
                  = Role.eqb (role s1) Role.Server).
  { rewrite Hm. unfold s1. fields.
    destruct (role sender), (role receiver); try discriminate Hroles;
      reflexivity. }
  pose proof (received_wire_frame s1 fin opcode k payload Hclosed eq_refl
                Hk Hrole Ho HL) as Hrf.
  destruct (List.length (wire_frame fin opcode k payload)) as [|fuel] eqn:Hlen.
  { unfold size in Hsz at 1. rewrite Hlen in Hsz.
    destruct (size payload <? 126); [|destruct (size payload <? 65536)]; lia. }
  rewrite (ReceiveData_loop_one_frame IsValidEncoding fuel s1
             ((if size payload <? 126 then 2
               else if size payload <? 65536 then 4 else 10)
              + match k with Some _ => 4 | None => 0 end)
             (size payload)).
  - rewrite (ReceiveFrame_received _ _ _ _ _ _ _ Hrf). reflexivity.
  - unfold s1. fields. rewrite Hsz.
    destruct (size payload <? 126); [|destruct (size payload <? 65536)]; lia.
  - unfold s1. fields. unfold wire_frame. cbn [app].
    rewrite frame_lengths_wire by lia. rewrite Hm4. reflexivity.
  - unfold s1. fields. rewrite Hsz. unfold add64, SIZE_MAX1.
    apply N.mod_small.
    destruct (size payload <? 126); [|destruct (size payload <? 65536)];
      destruct k; lia.
Qed.

(** What [SendFrame] of one engine puts on the wire, [ReceiveData] of an
    engine of the other role takes apart into the same FIN flag, opcode and
    payload, handles, and removes from its buffer. *)
Theorem frame_round_trip (IsValidEncoding : bytes -> bool)
        (sender receiver : Impl) (to_receiver to_sender : Connection)
        (fin : bool) (opcode : uint8_t) (payload : bytes) :
  connection sender = Some to_receiver ->
  connection receiver = Some to_sender ->
  Role.eqb (role sender) (role receiver) = false ->
  closeReceived receiver = false ->
  frameReassemblyBuffer receiver = [] ->
  too_large receiver (next_frame sender fin opcode payload) = false ->
  val opcode < 16 ->
  size payload + 14 < 2 ^ 64 ->
  SendFrame fin opcode payload sender
  = Ok tt (after_SendFrame fin opcode payload sender)
  /\ calls_of (after_SendFrame fin opcode payload sender)
     = calls to_receiver ++ [SendData (next_frame sender fin opcode payload)]
  /\ ReceiveData IsValidEncoding (next_frame sender fin opcode payload) receiver
     = map_state (set_frameReassemblyBuffer [])
         (ReceiveFrame_switch IsValidEncoding fin opcode payload
            (set_frameReassemblyBuffer (next_frame sender fin opcode payload)
                                       receiver)).
Proof.
  intros Hcs Hcr Hroles Hclosed Hb Ht Ho HL.
  exact (frame_received_whole IsValidEncoding sender receiver to_receiver
           to_sender fin opcode payload Hcs Hcr Hroles Hclosed Hb Ht Ho HL).
Qed.

Lemma after_SendFrame_dispatch fin opcode payload (s : Impl) :
  delegatesSet (after_SendFrame fin opcode payload s) = delegatesSet s
  /\ eventQueue (after_SendFrame fin opcode payload s) = eventQueue s.
Proof.
  unfold after_SendFrame, after_SendData.
  destruct (Role.eqb (role s) Role.Client); fields;
    destruct (connection s); split; reflexivity.
Qed.

(** An unfragmented message sent by one engine arrives at an engine of the
    other role as one event with the same payload (for a text message, if
    the payload is valid UTF-8); the receiver sends nothing and its buffer
    is empty again.  The sender's call ends with the dispatch of what its
    own queue held. *)
Theorem message_round_trip (IsValidEncoding : bytes -> bool)
        (delegates : Delegates)
        (sender receiver : Impl) (to_receiver to_sender : Connection)
        (text : bool) (payload : bytes) :
  connection sender = Some to_receiver ->
  connection receiver = Some to_sender ->
  Role.eqb (role sender) (role receiver) = false ->
  closeSent sender = false ->
  sending sender = FragmentedMessageType.None ->
  closeReceived receiver = false ->
  receiving receiver = FragmentedMessageType.None ->
  frameReassemblyBuffer receiver = [] ->
  too_large receiver
    (next_frame sender true (if text then OPCODE_TEXT else OPCODE_BINARY)
                payload) = false ->
  size payload + 14 < 2 ^ 64 ->
  (text = true -> IsValidEncoding payload = true) ->
  exists handed sender' receiver',
    (if text then SendText delegates payload true
     else SendBinary delegates payload true) sender
    = Ok handed sender'
    /\ handed = (if delegatesSet sender
                then deliver delegates (eventQueue sender) else [])
    /\ calls_of sender'
       = calls to_receiver
         ++ [SendData (next_frame sender true
                         (if text then OPCODE_TEXT else OPCODE_BINARY)
                         payload)]
    /\ sending sender' = FragmentedMessageType.None
    /\ ReceiveData IsValidEncoding
         (next_frame sender true (if text then OPCODE_TEXT else OPCODE_BINARY)
                     payload) receiver
       = Ok tt receiver'
    /\ eventQueue receiver'
       = eventQueue receiver
         ++ [Event.Build (if text then Event.Text else Event.Binary)
                         payload None]
    /\ calls_of receiver' = calls to_sender
    /\ frameReassemblyBuffer receiver' = []
    /\ receiving receiver' = FragmentedMessageType.None.
Proof.
  intros Hcs Hcr Hroles Hsent Hsending Hclosed Hreceiving Hb Ht HL Hvalid.
  destruct (frame_received_whole IsValidEncoding sender receiver to_receiver
              to_sender true (if text then OPCODE_TEXT else OPCODE_BINARY)
              payload Hcs Hcr Hroles Hclosed Hb Ht
              ltac:(destruct text; vm_compute; reflexivity) HL)
    as (Hsend & Hcalls & Hrecv).
  destruct (after_SendFrame_fields true
              (if text then OPCODE_TEXT else OPCODE_BINARY) payload sender
              to_receiver Hcs) as (Hc' & _).
  destruct (after_SendFrame_dispatch true
              (if text then OPCODE_TEXT else OPCODE_BINARY) payload sender)
    as (Hd' & Hq').
  set (op := if text then DoSendText payload true
             else DoSendBinary payload true).
  set (s1 := set_sending FragmentedMessageType.None
               (after_SendFrame true
                  (if text then OPCODE_TEXT else OPCODE_BINARY)
                  payload sender)).
  assert (E1 : perform_locked IsValidEncoding op sender = Ok tt s1).
  { unfold op, s1.
    destruct text; cbn [perform_locked];
      unfold SendText_locked, SendBinary_locked; run;
      rewrite Hcs, Hsent, Hsending; cbv beta iota;
      rewrite Hsend; reflexivity. }
  assert (Hdisp : dispatches op sender = true).
  { unfold op, dispatches. rewrite Hcs.
    destruct text; rewrite Hsent, Hsending; reflexivity. }
  destruct (perform_returns IsValidEncoding delegates op sender s1 E1)
    as (handed & sender' & E' & D & Hcalls' & _).
  destruct (dispatched_fields delegates s1 handed sender' D)
    as (_ & _ & Hk & _ & _ & Hsd & _).
  exists handed, sender'.
  exists (set_frameReassemblyBuffer []
            (set_eventQueue
               (eventQueue receiver
                ++ [Event.Build (if text then Event.Text else Event.Binary)
                                payload None])
               (set_frameReassemblyBuffer
                  (next_frame sender true
                     (if text then OPCODE_TEXT else OPCODE_BINARY) payload)
                  receiver))).
  split.
  { unfold op in E'. destruct text; exact E'. }
  split.
  { rewrite Hcalls', Hdisp. unfold s1. fields. rewrite Hd', Hq'.
    reflexivity. }
  split.
  { rewrite Hk. unfold s1, calls_of. fields. rewrite Hc'. reflexivity. }
  split; [rewrite Hsd; reflexivity|].
  rewrite Hrecv. unfold ReceiveFrame_switch.
  destruct text.
  - change (OPCODE_TEXT =? OPCODE_CONTINUATION)%char with false.
    change (OPCODE_TEXT =? OPCODE_TEXT)%char with true.
    cbv iota. run. fields. rewrite Hreceiving. cbv iota.
    unfold OnTextMessage. rewrite (Hvalid eq_refl). run. cbn [map_state].
    split; [reflexivity|]. unfold calls_of. fields. rewrite Hcr.
    repeat split; auto.
  - change (OPCODE_BINARY =? OPCODE_CONTINUATION)%char with false.
    change (OPCODE_BINARY =? OPCODE_TEXT)%char with false.
    change (OPCODE_BINARY =? OPCODE_BINARY)%char with true.
    cbv iota. run. fields. rewrite Hreceiving. cbv iota.
    unfold OnBinaryMessage. run. cbn [map_state].
    split; [reflexivity|]. unfold calls_of. fields. rewrite Hcr.
    repeat split; auto.
Qed.

Lemma received_close_payload (code : N) (reason : bytes) :
  code < 65536 -> code <> 1005 ->
  received_close (close_payload code reason) = (code, reason)
  /\ (2 <=? size (close_payload code reason)) = true
  /\ skipn 2 (close_payload code reason) = reason.
Proof.
  intros Hc H5. apply N.eqb_neq in H5.
  unfold close_payload, received_close. rewrite H5.
  assert (H2 : (2 <=? size (u8 (N.shiftr code 8) :: u8 (N.land code 255)
                            :: reason)) = true)
    by (apply N.leb_le; rewrite !size_cons; lia).
  rewrite H2. cbn [nth skipn]. rewrite be16_code, land_255, !val_u8.
  rewrite N.shiftr_div_pow2. change (2 ^ 8) with 256.
  repeat split. f_equal. lia.
Qed.

(** A close sent by one engine is reported by the other with the same
    status code and reason: the receiver queues a Close event carrying
    them and marks the peer's close as received; it breaks the transport
    only if it had sent its own close before.  The sender's call ends with
    the dispatch of what its own queue held. *)
Theorem close_round_trip (IsValidEncoding : bytes -> bool)
        (delegates : Delegates)
        (sender receiver : Impl) (to_receiver to_sender : Connection)
        (code : N) (reason : bytes) :
  connection sender = Some to_receiver ->
  connection receiver = Some to_sender ->
  Role.eqb (role sender) (role receiver) = false ->
  closeSent sender = false ->
  closeReceived receiver = false ->
  frameReassemblyBuffer receiver = [] ->
  too_large receiver
    (next_frame sender true OPCODE_CLOSE (close_payload code reason)) = false ->
  code < 65536 -> code <> 1005 -> code <> 1006 ->
  size reason + 16 < 2 ^ 64 ->
  IsValidEncoding reason = true ->
  exists handed sender' receiver',
    WebSocket_Close delegates code reason sender = Ok handed sender'
    /\ handed = (if delegatesSet sender
                then deliver delegates (eventQueue sender) else [])
    /\ closeSent sender' = true
    /\ (exists rest,
           calls_of sender'
           = calls to_receiver
             ++ SendData (next_frame sender true OPCODE_CLOSE
                                     (close_payload code reason)) :: rest)
    /\ ReceiveData IsValidEncoding
         (next_frame sender true OPCODE_CLOSE (close_payload code reason))
         receiver
       = Ok tt receiver'
    /\ eventQueue receiver'
       = eventQueue receiver ++ [Event.Build Event.Close reason (Some code)]
    /\ closeReceived receiver' = true
    /\ closeSent receiver' = closeSent receiver
    /\ calls_of receiver'
       = calls to_sender ++ (if closeSent receiver then [Break false] else []).
Proof.
  intros Hcs Hcr Hroles Hsent Hclosed Hb Ht Hcode H5 H6 HL Hvalid.
  destruct (received_close_payload code reason Hcode H5) as (Hrc & H2 & Hsk).
  assert (Hsz : size (close_payload code reason) + 14 < 2 ^ 64).
  { unfold close_payload. apply N.eqb_neq in H5. rewrite H5.
    rewrite !size_cons. lia. }
  destruct (frame_received_whole IsValidEncoding sender receiver to_receiver
              to_sender true OPCODE_CLOSE (close_payload code reason)
              Hcs Hcr Hroles Hclosed Hb Ht ltac:(vm_compute; reflexivity) Hsz)
    as (_ & _ & Hrecv).
  assert (H6' : (code =? 1006) = false) by (apply N.eqb_neq; exact H6).
  destruct (after_SendFrame_fields true OPCODE_CLOSE
              (close_payload code reason) (set_closeSent true sender)
              to_receiver Hcs) as (Hc' & Hs' & Hr' & He' & _).
  destruct (after_SendFrame_dispatch true OPCODE_CLOSE
              (close_payload code reason) (set_closeSent true sender))
    as (Hd' & _).
  set (s1 := after_Close code reason false sender).
  assert (E1 : perform_locked IsValidEncoding (DoClose code reason) sender
               = Ok tt s1).
  { cbn [perform_locked]. unfold WebSocket_Close_locked. run.
    rewrite Hcs. cbv iota. rewrite Close_run, Hsent, Hcs. reflexivity. }
  assert (F1 : closeSent s1 = true
               /\ (exists rest,
                      calls_of s1
                      = calls to_receiver
                        ++ SendData (next_frame sender true OPCODE_CLOSE
                                       (close_payload code reason)) :: rest)
               /\ delegatesSet s1 = delegatesSet sender
               /\ eventQueue s1 = eventQueue sender).
  { unfold s1, after_Close. rewrite H6'. cbv iota zeta. unfold calls_of.
    fields. rewrite Hr'. fields. fields_in Hd'. fields_in He'.
    destruct (closeReceived sender).
    - unfold after_Break. rewrite Hc'. fields.
      rewrite Hs', Hd', He', <- app_assoc.
      split; [reflexivity|]. split; [eexists; reflexivity|].
      split; reflexivity.
    - rewrite Hc', Hs', Hd', He'. fields.
      split; [reflexivity|]. split; [exists []; reflexivity|].
      split; reflexivity. }
  destruct F1 as (Fs & Fk & Fd & Fq).
  destruct (perform_returns IsValidEncoding delegates (DoClose code reason)
              sender s1 E1) as (handed & sender' & E' & D & Hcalls' & _).
  destruct (dispatched_fields delegates s1 handed sender' D)
    as (_ & _ & Hk & Hcs' & _).
  exists handed, sender'. eexists.
  split; [exact E'|].
  split.
  { rewrite Hcalls'. unfold dispatches. rewrite Hcs, Fd, Fq. reflexivity. }
  split; [rewrite Hcs'; exact Fs|].
  split; [rewrite Hk; exact Fk|].
  rewrite Hrecv.
  rewrite (switch_close _ _ _ _ to_sender) by (fields; exact Hcr).
  rewrite H2, Hsk, Hvalid, Hrc. cbn [negb andb fst snd map_state].
  split; [reflexivity|].
  destruct (after_OnClose_fields code reason
              (set_frameReassemblyBuffer
                 (next_frame sender true OPCODE_CLOSE
                             (close_payload code reason)) receiver)
              to_sender ltac:(fields; exact Hcr))
    as (He & Hr & Hs & Hk0 & _).
  unfold calls_of in *. fields. fields_in He. fields_in Hs. fields_in Hk0.
  rewrite He, Hr, Hs, Hk0. repeat split.
Qed.

(** ** The application's calls *)

(** Sending a message in fragments: while a message of the other kind is
    being sent a fragment is dropped, and the call returns before the
    dispatch; otherwise one frame goes out, with the opcode of the kind for
    the first fragment and the continuation opcode for the others, with FIN
    on the last fragment only, the engine remembers the kind until the last
    fragment, and the call ends with the dispatch of the queue. *)
Theorem send_state_machine (delegates : Delegates) (s : Impl)
        (c : Connection) (text : bool) (data : bytes) (lastFragment : bool) :
  connection s = Some c ->
  closeSent s = false ->
  (sending s = (if text then FragmentedMessageType.Binary
                else FragmentedMessageType.Text) ->
   (if text then SendText delegates data lastFragment
    else SendBinary delegates data lastFragment) s = Ok [] s)
  /\ (sending s <> (if text then FragmentedMessageType.Binary
                    else FragmentedMessageType.Text) ->
      exists handed s',
        (if text then SendText delegates data lastFragment
         else SendBinary delegates data lastFragment) s = Ok handed s'
        /\ handed = (if delegatesSet s
                     then deliver delegates (eventQueue s) else [])
        /\ eventQueue s' = (if delegatesSet s then [] else eventQueue s)
        /\ calls_of s'
           = calls c
             ++ [SendData
                   (next_frame s lastFragment
                      (match sending s with
                       | FragmentedMessageType.None =>
                           if text then OPCODE_TEXT else OPCODE_BINARY
                       | _ => OPCODE_CONTINUATION
                       end) data)]
        /\ sending s'
           = (if lastFragment then FragmentedMessageType.None
              else if text then FragmentedMessageType.Text
                   else FragmentedMessageType.Binary)).
Proof.
  intros Hc Hs.
  set (op := if text then DoSendText data lastFragment
             else DoSendBinary data lastFragment).
  assert (Hop : perform (fun _ => true) delegates op s
                = (if text then SendText delegates data lastFragment
                   else SendBinary delegates data lastFragment) s)
    by (unfold op; destruct text; reflexivity).
  rewrite <- Hop. split.
  - intro Hk. rewrite perform_split.
    assert (Hdisp : dispatches op s = false).
    { unfold op, dispatches. rewrite Hc.
      destruct text; rewrite Hs, Hk; reflexivity. }
    rewrite Hdisp. unfold op.
    destruct text; cbn [perform_locked];
      unfold SendText_locked, SendBinary_locked; run;
      rewrite Hc, Hs, Hk; reflexivity.
  - intro Hk.
    set (opcode := match sending s with
                   | FragmentedMessageType.None =>
                       if text then OPCODE_TEXT else OPCODE_BINARY
                   | _ => OPCODE_CONTINUATION
                   end).
    set (s1 := set_sending
                 (if lastFragment then FragmentedMessageType.None
                  else if text then FragmentedMessageType.Text
                       else FragmentedMessageType.Binary)
                 (after_SendFrame lastFragment opcode data s)).
    assert (E1 : perform_locked (fun _ => true) op s = Ok tt s1).
    { unfold op, s1, opcode.
      destruct text; cbn [perform_locked];
        unfold SendText_locked, SendBinary_locked; run; rewrite Hc, Hs;
        cbv beta iota;
        destruct (sending s) eqn:Hsend;
        try (exfalso; apply Hk; reflexivity);
        cbv beta iota zeta;
        rewrite (SendFrame_spec _ _ _ _ c Hc); reflexivity. }
    assert (Hdisp : dispatches op s = true).
    { unfold op, dispatches. rewrite Hc.
      destruct text; rewrite Hs; destruct (sending s);
        try reflexivity; exfalso; apply Hk; reflexivity. }
    destruct (after_SendFrame_fields lastFragment opcode data s c Hc)
      as (Hc' & _).
    destruct (after_SendFrame_dispatch lastFragment opcode data s)
      as (Hd' & Hq').
    destruct (perform_returns (fun _ => true) delegates op s s1 E1)
      as (handed & s' & E' & D & Hcalls & Hq).
    destruct (dispatched_fields delegates s1 handed s' D)
      as (_ & _ & Hk' & _ & _ & Hsd & _).
    exists handed, s'. split; [exact E'|].
    rewrite Hdisp in Hcalls, Hq. cbn [andb] in Hcalls, Hq.
    unfold s1 in Hcalls, Hq. fields_in Hcalls. fields_in Hq.
    rewrite Hd', Hq' in Hcalls. rewrite Hd', Hq' in Hq.
    split; [exact Hcalls|]. split; [exact Hq|].
    split.
    + rewrite Hk'. unfold s1, calls_of. fields. rewrite Hc'. reflexivity.
    + rewrite Hsd. reflexivity.
Qed.

(** Pings and pongs of the application are sent only as well-formed control
    frames: with more than 125 octets nothing is sent and the call returns
    before the dispatch; otherwise one frame with FIN set and a one-octet
    length goes out, and the call ends with the dispatch of the queue. *)
Theorem control_frames_are_short (delegates : Delegates) (s : Impl)
        (c : Connection) (ping : bool) (data : bytes) :
  connection s = Some c ->
  closeSent s = false ->
  (125 < size data ->
   (if ping then Ping delegates data else Pong delegates data) s = Ok [] s)
  /\ (size data <= 125 ->
      exists handed s',
        (if ping then Ping delegates data else Pong delegates data) s
        = Ok handed s'
        /\ handed = (if delegatesSet s
                     then deliver delegates (eventQueue s) else [])
        /\ eventQueue s' = (if delegatesSet s then [] else eventQueue s)
        /\ calls_of s'
           = calls c
             ++ [SendData (next_frame s true
                             (if ping then OPCODE_PING else OPCODE_PONG)
                             data)]
        /\ next_frame s true (if ping then OPCODE_PING else OPCODE_PONG) data
           = u8 (if ping then 0x89 else 0x8A)
             :: u8 ((if Role.eqb (role s) Role.Client then 0x80 else 0)
                    + size data)
             :: (if Role.eqb (role s) Role.Client
                 then next_key s ++ mask_payload (next_key s) 0 data
                 else data)).
Proof.
  intros Hc Hs.
  set (op := if ping then DoPing data else DoPong data).
  assert (Hop : perform (fun _ => true) delegates op s
                = (if ping then Ping delegates data
                   else Pong delegates data) s)
    by (unfold op; destruct ping; reflexivity).
  rewrite <- Hop. split.
  - intro Hlong. apply N.ltb_lt in Hlong. rewrite perform_split.
    assert (Hdisp : dispatches op s = false).
    { unfold op, dispatches, MAX_CONTROL_FRAME_DATA_LENGTH. rewrite Hc.
      destruct ping; rewrite Hs, Hlong; reflexivity. }
    rewrite Hdisp. unfold op.
    destruct ping; cbn [perform_locked]; unfold Ping_locked, Pong_locked; run;
      rewrite Hc, Hs; unfold MAX_CONTROL_FRAME_DATA_LENGTH; rewrite Hlong;
      reflexivity.
  - intro Hshort.
    assert (Hle : (125 <? size data) = false) by (apply N.ltb_ge; exact Hshort).
    assert (H126 : (size data <? 126) = true) by (apply N.ltb_lt; lia).
    set (opcode := if ping then OPCODE_PING else OPCODE_PONG).
    set (s1 := after_SendFrame true opcode data s).
    assert (E1 : perform_locked (fun _ => true) op s = Ok tt s1).
    { unfold op, s1, opcode.
      destruct ping; cbn [perform_locked]; unfold Ping_locked, Pong_locked;
        run; rewrite Hc, Hs; unfold MAX_CONTROL_FRAME_DATA_LENGTH;
        rewrite Hle; cbv beta iota;
        apply (SendFrame_spec _ _ _ _ c Hc). }
    assert (Hdisp : dispatches op s = true).
    { unfold op, dispatches, MAX_CONTROL_FRAME_DATA_LENGTH. rewrite Hc.
      destruct ping; rewrite Hs, Hle; reflexivity. }
    destruct (after_SendFrame_dispatch true opcode data s) as (Hd' & Hq').
    destruct (perform_returns (fun _ => true) delegates op s s1 E1)
      as (handed & s' & E' & D & Hcalls & Hq).
    destruct (dispatched_fields delegates s1 handed s' D)
      as (_ & _ & Hk' & _).
    exists handed, s'. split; [exact E'|].
    rewrite Hdisp in Hcalls, Hq. cbn [andb] in Hcalls, Hq.
    unfold s1 in Hcalls, Hq. rewrite Hd', Hq' in Hcalls.
    rewrite Hd', Hq' in Hq.
    split; [exact Hcalls|]. split; [exact Hq|].
    split; [rewrite Hk'; apply (after_SendFrame_calls _ _ _ _ c Hc)|].
    rewrite next_frame_layout; unfold wire_length; rewrite H126.
    unfold opcode.
    destruct ping; destruct (Role.eqb (role s) Role.Client); reflexivity.
Qed.

(** ** Abnormal closure *)

(** A close with code 1006 never reaches the wire.  When the connection
    reports that it is broken the engine sends no frame: it queues a Close
    event with code 1006, marks both directions closed and breaks the
    transport; if a close had been sent before, it only publishes the
    diagnostic. *)
Theorem abnormal_closure (s : Impl) (c : Connection) :
  connection s = Some c ->
  (closeSent s = false ->
   exists s',
     ConnectionBroken s = Ok tt s'
     /\ calls_of s' = calls c ++ [Break false]
     /\ eventQueue s'
        = eventQueue s
          ++ [Event.Build Event.Close (str "connection broken by peer")
                          (Some 1006)]
     /\ closeSent s' = true
     /\ closeReceived s' = true)
  /\ (closeSent s = true ->
      ConnectionBroken s
      = Ok tt (set_diagnosticsSender
                 (diagnosticsSender s
                  ++ [(1, str "Connection to " ++ c_str (peerId c)
                          ++ str " broken by peer")]) s))
  /\ (forall reason fail,
         closeSent s = false ->
         exists s',
           Close 1006 reason fail s = Ok tt s'
           /\ calls_of s' = calls c ++ [Break false]).
Proof.
  intro Hc.
  assert (H6 : forall reason fail,
             closeSent s = false ->
             Close 1006 reason fail s
             = Ok tt (after_Close 1006 reason fail s)
             /\ calls_of (after_Close 1006 reason fail s)
                = calls c ++ [Break false]
             /\ eventQueue (after_Close 1006 reason fail s)
                = eventQueue s ++ [Event.Build Event.Close reason (Some 1006)]
             /\ closeSent (after_Close 1006 reason fail s) = true
             /\ closeReceived (after_Close 1006 reason fail s) = true
             /\ exists c', connection (after_Close 1006 reason fail s) = Some c'
                           /\ peerId c' = peerId c).
  { intros reason fail Hs. rewrite Close_run, Hs, Hc.
    split; [reflexivity|].
    unfold after_Close. change (1006 =? 1006) with true. cbv iota zeta.
    destruct (after_OnClose_fields 1006 reason (set_closeSent true s) c Hc)
      as (He & Hr & Hs' & Hk & _).
    fields_in He. fields_in Hs'. fields_in Hk.
    rewrite He, Hr, Hs', Hk. repeat split.
    apply after_OnClose_peer. exact Hc. }
  split; [|split].
  - intro Hs.
    destruct (H6 (str "connection broken by peer") true Hs)
      as (E & Hk & He & Hs' & Hr & c' & Hc' & Hp).
    unfold ConnectionBroken. run. rewrite Hc. cbv beta iota.
    rewrite E. cbv beta iota. rewrite Hc'. cbv beta iota.
    eexists. split; [reflexivity|].
    unfold calls_of in *. fields. rewrite Hc' in *.
    rewrite Hk, He, Hs', Hr. repeat split.
  - intro Hs. unfold ConnectionBroken. run. rewrite Hc. cbv beta iota.
    rewrite (Close_again _ _ _ _ Hs). cbv beta iota. rewrite Hc. reflexivity.
  - intros reason fail Hs.
    destruct (H6 reason fail Hs) as (E & Hk & _).
    eexists. split; [exact E|exact Hk].
Qed.

(** ** Malformed frame headers *)

Lemma mask_bit (b : uint8_t) :
  negb (N.land (val b) (val MASK) =? 0) = (128 <=? val b).
Proof.
  pose proof (forall_below 256
    (fun x => Bool.eqb (negb (N.land x (val MASK) =? 0)) (128 <=? x))
    eq_refl (val b) (val_lt b)) as H.
  cbv beta in H. apply eqb_prop in H. exact H.
Qed.

Lemma header_errors_aux (IsValidEncoding : bytes -> bool) (s : Impl)
        (headerLength payloadLength : N) (b0 b1 : uint8_t) (rest : bytes) :
  closeReceived s = false ->
  frameReassemblyBuffer s = b0 :: b1 :: rest ->
  (N.land (N.shiftr (val b0) 4) 7 <> 0 ->
   ReceiveFrame IsValidEncoding headerLength payloadLength s
   = Close 1002 (str "reserved bits set") true s)
  /\ (N.land (N.shiftr (val b0) 4) 7 = 0 ->
      128 <= val b1 -> role s = Role.Client ->
      ReceiveFrame IsValidEncoding headerLength payloadLength s
      = Close 1002 (str "masked frame") true s)
  /\ (N.land (N.shiftr (val b0) 4) 7 = 0 ->
      val b1 < 128 -> role s = Role.Server ->
      ReceiveFrame IsValidEncoding headerLength payloadLength s
      = Close 1002 (str "unmasked frame") true s)
  /\ (forall fin opcode data,
         received_frame s headerLength payloadLength
         = Some (fin, opcode, data) ->
         ~ In (val opcode) [0; 1; 2; 8; 9; 10] ->
         ReceiveFrame IsValidEncoding headerLength payloadLength s
         = Close 1002 (str "unknown opcode") true s).
Proof.
  intros Hr Hb.
  assert (Hrsv : val (u8 (N.land (N.shiftr (val b0) 4) 7))
                 = N.land (N.shiftr (val b0) 4) 7).
  { apply val_u8_small. rewrite land_7.
    pose proof (N.mod_lt (N.shiftr (val b0) 4) 8). lia. }
  split; [|split; [|split]].
  - intro Hbits. unfold ReceiveFrame. run. rewrite Hr, Hb. cbv beta iota.
    unfold at_. cbn [N.to_nat nth_error]. cbv beta iota.
    rewrite Hrsv. apply N.eqb_neq in Hbits. rewrite Hbits. reflexivity.
  - intros Hbits Hm Hrole. unfold ReceiveFrame. run. rewrite Hr, Hb.
    cbv beta iota. unfold at_. cbn [N.to_nat nth_error]. cbv beta iota.
    rewrite Hrsv, Hbits. cbn [N.eqb negb]. cbv beta iota.
    change (nth_error (b0 :: b1 :: rest) (Pos.to_nat 1)) with (Some b1).
    cbv beta iota.
    rewrite mask_bit, Hrole. apply N.leb_le in Hm. rewrite Hm. reflexivity.
  - intros Hbits Hm Hrole. unfold ReceiveFrame. run. rewrite Hr, Hb.
    cbv beta iota. unfold at_. cbn [N.to_nat nth_error]. cbv beta iota.
    rewrite Hrsv, Hbits. cbn [N.eqb negb]. cbv beta iota.
    change (nth_error (b0 :: b1 :: rest) (Pos.to_nat 1)) with (Some b1).
    cbv beta iota.
    rewrite mask_bit, Hrole. apply N.leb_gt in Hm. rewrite Hm. reflexivity.
  - intros fin opcode data Hf Hop.
    rewrite (ReceiveFrame_received _ _ _ _ _ _ _ Hf).
    assert (Hne : forall o : uint8_t,
               In (val o) [0; 1; 2; 8; 9; 10] ->
               (opcode =? o)%char = false).
    { intros o Ho. apply Ascii.eqb_neq. intros ->. apply Hop. exact Ho. }
    unfold ReceiveFrame_switch.
    rewrite (Hne OPCODE_CONTINUATION) by (vm_compute; tauto).
    rewrite (Hne OPCODE_TEXT) by (vm_compute; tauto).
    rewrite (Hne OPCODE_BINARY) by (vm_compute; tauto).
    rewrite (Hne OPCODE_CLOSE) by (vm_compute; tauto).
    rewrite (Hne OPCODE_PING) by (vm_compute; tauto).
    rewrite (Hne OPCODE_PONG) by (vm_compute; tauto).
    reflexivity.
Qed.

(** A frame is refused on its two leading octets alone, before its payload
    is looked at: with a reserved bit set, with a mask when the engine is a
    client, or without one when it is a server, the engine closes with code
    1002 and the matching reason, in this order of precedence.  A frame
    that passes these checks but carries an opcode the protocol does not
    define is refused in the same way. *)
Theorem header_errors (IsValidEncoding : bytes -> bool) (s : Impl)
        (headerLength payloadLength : N) (b0 b1 : uint8_t) (rest : bytes) :
  closeReceived s = false ->
  frameReassemblyBuffer s = b0 :: b1 :: rest ->
  (N.land (N.shiftr (val b0) 4) 7 <> 0 ->
   ReceiveFrame IsValidEncoding headerLength payloadLength s
   = Close 1002 (str "reserved bits set") true s)
  /\ (N.land (N.shiftr (val b0) 4) 7 = 0 ->
      128 <= val b1 -> role s = Role.Client ->
      ReceiveFrame IsValidEncoding headerLength payloadLength s
      = Close 1002 (str "masked frame") true s)
  /\ (N.land (N.shiftr (val b0) 4) 7 = 0 ->
      val b1 < 128 -> role s = Role.Server ->
      ReceiveFrame IsValidEncoding headerLength payloadLength s
      = Close 1002 (str "unmasked frame") true s)
  /\ (forall fin opcode data,
         received_frame s headerLength payloadLength
         = Some (fin, opcode, data) ->
         ~ In (val opcode) [0; 1; 2; 8; 9; 10] ->
         ReceiveFrame IsValidEncoding headerLength payloadLength s
         = Close 1002 (str "unknown opcode") true s).
Proof.
  intros Hr Hb.
  exact (header_errors_aux IsValidEncoding s headerLength payloadLength b0 b1
           rest Hr Hb).
Qed.

(** ** Delivering events *)


(** ** Refused handshakes *)

Section Refusals.

Context {H : Type} `{MessageHeaders H}.
Variable Base64_Encode : bytes -> bytes.
Variable Base64_Decode : bytes -> bytes.
Variable Sha1 : bytes -> bytes.

(** The server side of the handshake always answers.  When it refuses, the
    engine is not opened and nothing is sent; the response is left as it
    was or turned into 400 Bad Request with its headers untouched.  It
    accepts only a GET request for version 13 without trailer whose key
    decodes to 16 octets, and then the engine is a server bound to the
    connection. *)
Theorem server_handshake_outcomes (c : Connection) (request : Request H)
        (response : Response H) (trailer : bytes) (s : Impl) :
  exists ok response' s',
    OpenAsServer Base64_Encode Base64_Decode Sha1 c request response trailer s
    = Ok (ok, response') s'
    /\ (ok = false ->
        connection s' = connection s
        /\ role s' = role s
        /\ response_headers response' = response_headers response
        /\ (response' = response
            \/ (statusCode response' = 400
                /\ reasonPhrase response' = str "Bad Request")))
    /\ (ok = true ->
        method request = str "GET"
        /\ GetHeaderValue (request_headers request)
                          (str "Sec-WebSocket-Version") = str "13"
        /\ trailer = []
        /\ size (Base64_Decode (key s')) = 16
        /\ key s' = GetHeaderValue (request_headers request)
                                   (str "Sec-WebSocket-Key")
        /\ statusCode response' = 101
        /\ connection s' = Some c
        /\ role s' = Role.Server).
Proof.
  unfold OpenAsServer, Open. run.
  destruct (bytes_eqb (method request) (str "GET")) eqn:E1; cbn [negb].
  2: { do 3 eexists. split; [reflexivity|]. split; [|discriminate].
       intros _. repeat split. left. reflexivity. }
  destruct (HasHeaderToken _ _ _) eqn:E2; cbn [negb].
  2: { do 3 eexists. split; [reflexivity|]. split; [|discriminate].
       intros _. repeat split. left. reflexivity. }
  destruct (bytes_eqb (ToLower _) _) eqn:E3; cbn [negb].
  2: { do 3 eexists. split; [reflexivity|]. split; [|discriminate].
       intros _. repeat split. left. reflexivity. }
  destruct (bytes_eqb (GetHeaderValue _ _) _) eqn:E4; cbn [negb].
  2: { do 3 eexists. split; [reflexivity|]. split; [|discriminate].
       intros _. repeat split. right. split; reflexivity. }
  destruct (size trailer =? 0) eqn:E5; cbn [negb].
  2: { do 3 eexists. split; [reflexivity|]. split; [|discriminate].
       intros _. repeat split. right. split; reflexivity. }
  fields.
  destruct (size (Base64_Decode _) =? REQUIRED_WEBSOCKET_KEY_LENGTH) eqn:E6;
    cbn [negb].
  2: { do 3 eexists. split; [reflexivity|]. split; [|discriminate].
       intros _. fields. repeat split. right. split; reflexivity. }
  do 3 eexists. split; [reflexivity|]. split; [discriminate|].
  intros _. fields.
  apply bytes_eqb_eq in E1. apply bytes_eqb_eq in E4.
  apply N.eqb_eq in E5. apply N.eqb_eq in E6.
  repeat split; try assumption.
  destruct trailer; [reflexivity|]. exfalso. revert E5. unfold size.
  cbn [List.length]. lia.
Qed.

(** The client side of the handshake always answers.  When it refuses, the
    engine is exactly as before.  It accepts only a 101 response that
    upgrades to websocket, whose accept value is the answer to the key the
    engine sent, and which selects no extension and no subprotocol; then
    the engine is a client bound to the connection. *)
Theorem client_handshake_outcomes (c : Connection) (response : Response H)
        (s : Impl) :
  exists ok s',
    FinishOpenAsClient Base64_Encode Sha1 c response s = Ok ok s'
    /\ (ok = false -> s' = s)
    /\ (ok = true ->
        statusCode response = 101
        /\ HasHeaderToken (response_headers response)
                          (str "Connection") (str "upgrade") = true
        /\ ToLower (GetHeaderValue (response_headers response)
                                   (str "Upgrade")) = str "websocket"
        /\ GetHeaderValue (response_headers response)
                          (str "Sec-WebSocket-Accept")
           = ComputeKeyAnswer Base64_Encode Sha1 (key s)
        /\ GetHeaderTokens (response_headers response)
                           (str "Sec-WebSocket-Extensions") = []
        /\ GetHeaderTokens (response_headers response)
                           (str "Sec-WebSocket-Protocol") = []
        /\ s' = set_role Role.Client (set_connection (Some c) s)).
Proof.
  unfold FinishOpenAsClient, Open. run.
  destruct (statusCode response =? 101) eqn:E1; cbn [negb].
  2: { do 2 eexists. split; [reflexivity|]. split; [reflexivity|discriminate]. }
  destruct (HasHeaderToken _ _ _) eqn:E2; cbn [negb].
  2: { do 2 eexists. split; [reflexivity|]. split; [reflexivity|discriminate]. }
  destruct (bytes_eqb (ToLower _) _) eqn:E3; cbn [negb].
  2: { do 2 eexists. split; [reflexivity|]. split; [reflexivity|discriminate]. }
  destruct (bytes_eqb (GetHeaderValue _ _) _) eqn:E4; cbn [negb].
  2: { do 2 eexists. split; [reflexivity|]. split; [reflexivity|discriminate]. }
  destruct (size (GetHeaderTokens _ (str "Sec-WebSocket-Extensions")) =? 0)
    eqn:E5; cbn [negb].
  2: { do 2 eexists. split; [reflexivity|]. split; [reflexivity|discriminate]. }
  destruct (size (GetHeaderTokens _ (str "Sec-WebSocket-Protocol")) =? 0)
    eqn:E6; cbn [negb].
  2: { do 2 eexists. split; [reflexivity|]. split; [reflexivity|discriminate]. }
  do 2 eexists. split; [reflexivity|]. split; [discriminate|].
  intros _.
  apply N.eqb_eq in E1. apply bytes_eqb_eq in E3. apply bytes_eqb_eq in E4.
  apply N.eqb_eq in E5. apply N.eqb_eq in E6.
  assert (Hnil : forall l : list bytes, size l = 0 -> l = []).
  { intros [|x l]; [reflexivity|]. unfold size. cbn [List.length]. lia. }
  repeat split; auto.
Qed.

End Refusals.

(** ** Reassembly *)

Lemma receive_continuations IsValidEncoding (middle : list bytes)
      (rest : list (bool * uint8_t * bytes)) :
  forall s,
    receiving s <> FragmentedMessageType.None ->
    receive_frames IsValidEncoding
      (map (fun d => (false, OPCODE_CONTINUATION, d)) middle ++ rest) s
    = receive_frames IsValidEncoding rest
        (set_messageReassemblyBuffer
           (messageReassemblyBuffer s ++ List.concat middle) s).
Proof.
  induction middle as [|d middle IH]; intros s Hk.
  - cbn [map app List.concat]. rewrite app_nil_r. destruct s; reflexivity.
  - cbn [map app List.concat receive_frames]. unfold ReceiveFrame_switch at 1.
    change (OPCODE_CONTINUATION =? OPCODE_CONTINUATION)%char with true.
    cbv iota. run. fields.
    destruct (receiving s) eqn:Hrecv; try (exfalso; apply Hk; reflexivity);
      cbv beta iota; rewrite IH by (fields; rewrite Hrecv; discriminate);
      fields; rewrite <- app_assoc; reflexivity.
Qed.

(** A message received in fragments is handed over once, when the fragment
    with FIN arrives, as one event whose content is the fragments put
    together in order; a text message is validated as a whole and only
    then, so a character may be split between fragments.  Afterwards the
    engine is ready for the next message.  If the whole text is not valid
    UTF-8 the engine fails the connection with code 1007 instead. *)
Theorem fragments_reassembled (IsValidEncoding : bytes -> bool) (s : Impl)
        (text : bool) (first : bytes) (middle : list bytes) (last : bytes) :
  receiving s = FragmentedMessageType.None ->
  (text = false
   \/ IsValidEncoding (first ++ List.concat middle ++ last) = true ->
   receive_frames IsValidEncoding (fragmented text first middle last) s
   = Ok tt (set_messageReassemblyBuffer []
              (set_receiving FragmentedMessageType.None
                 (set_eventQueue
                    (eventQueue s
                     ++ [Event.Build (if text then Event.Text
                                      else Event.Binary)
                                     (first ++ List.concat middle ++ last) None])
                    s))))
  /\ (text = true ->
      IsValidEncoding (first ++ List.concat middle ++ last) = false ->
      receive_frames IsValidEncoding (fragmented text first middle last) s
      = map_state
          (fun s' => set_messageReassemblyBuffer []
                       (set_receiving FragmentedMessageType.None s'))
          (Close 1007 (str "invalid UTF-8 encoding in text message") true
             (set_messageReassemblyBuffer (first ++ List.concat middle ++ last)
                (set_receiving FragmentedMessageType.Text s)))).
Proof.
  intro Hnone.
  assert (Hstart : receive_frames IsValidEncoding
                     (fragmented text first middle last) s
                   = ReceiveFrame_switch IsValidEncoding true
                       OPCODE_CONTINUATION last
                       (set_messageReassemblyBuffer (first ++ List.concat middle)
                          (set_receiving
                             (if text then FragmentedMessageType.Text
                              else FragmentedMessageType.Binary) s))).
  { unfold fragmented. cbn [receive_frames]. unfold ReceiveFrame_switch at 1.
    destruct text.
    - change (OPCODE_TEXT =? OPCODE_CONTINUATION)%char with false.
      change (OPCODE_TEXT =? OPCODE_TEXT)%char with true.
      cbv iota. run. rewrite Hnone. cbv beta iota.
      rewrite receive_continuations by (fields; discriminate).
      cbn [receive_frames]. rewrite bind_ret_tt. fields. reflexivity.
    - change (OPCODE_BINARY =? OPCODE_CONTINUATION)%char with false.
      change (OPCODE_BINARY =? OPCODE_TEXT)%char with false.
      change (OPCODE_BINARY =? OPCODE_BINARY)%char with true.
      cbv iota. run. rewrite Hnone. cbv beta iota.
      rewrite receive_continuations by (fields; discriminate).
      cbn [receive_frames]. rewrite bind_ret_tt. fields. reflexivity. }
  rewrite Hstart. unfold ReceiveFrame_switch.
  change (OPCODE_CONTINUATION =? OPCODE_CONTINUATION)%char with true.
  cbv iota. split.
  - intros Hvalid. destruct text.
    + destruct Hvalid as [Hf|Hvalid]; [discriminate|].
      run. fields. cbv beta iota. unfold OnTextMessage.
      rewrite <- app_assoc, Hvalid. run. fields. reflexivity.
    + run. fields. cbv beta iota. unfold OnBinaryMessage. run. fields.
      rewrite <- app_assoc. reflexivity.
  - intros -> Hinvalid.
    run. fields. cbv beta iota. unfold OnTextMessage.
    rewrite <- app_assoc, Hinvalid. fields. unfold map_state.
    match goal with
    | |- match Close _ _ _ ?st with _ => _ end
         = match Close _ _ _ ?st' with _ => _ end => change st with st'
    end.
    match goal with
    | |- match ?r with _ => _ end = _ => destruct r as [[] ?| |]; reflexivity
    end.
Qed.

Lemma after_SendFrame_assembly fin opcode payload (s : Impl) :
  receiving (after_SendFrame fin opcode payload s) = receiving s
  /\ messageReassemblyBuffer (after_SendFrame fin opcode payload s)
     = messageReassemblyBuffer s
  /\ frameReassemblyBuffer (after_SendFrame fin opcode payload s)
     = frameReassemblyBuffer s
  /\ configuration (after_SendFrame fin opcode payload s) = configuration s
  /\ role (after_SendFrame fin opcode payload s) = role s
  /\ sending (after_SendFrame fin opcode payload s) = sending s.
Proof.
  unfold after_SendFrame, after_SendData.
  destruct (Role.eqb (role s) Role.Client); fields;
    destruct (connection s); fields; repeat split.
Qed.

Lemma control_frames_interleave_aux (IsValidEncoding : bytes -> bool)
        (s : Impl) (c : Connection) (fin ping : bool) (data : bytes) :
  connection s = Some c ->
  exists s',
    ReceiveFrame_switch IsValidEncoding fin
      (if ping then OPCODE_PING else OPCODE_PONG) data s = Ok tt s'
    /\ receiving s' = receiving s
    /\ messageReassemblyBuffer s' = messageReassemblyBuffer s
    /\ eventQueue s'
       = eventQueue s
         ++ [Event.Build (if ping then Event.Ping else Event.Pong) data None]
    /\ calls_of s'
       = calls c
         ++ (if ping then [SendData (next_frame s true OPCODE_PONG data)]
             else []).
Proof.
  intro Hc. unfold ReceiveFrame_switch. destruct ping.
  - change (OPCODE_PING =? OPCODE_CONTINUATION)%char with false.
    change (OPCODE_PING =? OPCODE_TEXT)%char with false.
    change (OPCODE_PING =? OPCODE_BINARY)%char with false.
    change (OPCODE_PING =? OPCODE_CLOSE)%char with false.
    change (OPCODE_PING =? OPCODE_PING)%char with true.
    cbv iota. run. rewrite (SendFrame_spec _ _ _ _ c Hc). cbv beta iota.
    eexists. split; [reflexivity|].
    destruct (after_SendFrame_assembly true OPCODE_PONG data s)
      as (Hr & Hm & _).
    destruct (after_SendFrame_fields true OPCODE_PONG data s c Hc)
      as (Hc' & _ & _ & He & _).
    unfold calls_of. fields. rewrite Hr, Hm, He, Hc'. repeat split.
  - change (OPCODE_PONG =? OPCODE_CONTINUATION)%char with false.
    change (OPCODE_PONG =? OPCODE_TEXT)%char with false.
    change (OPCODE_PONG =? OPCODE_BINARY)%char with false.
    change (OPCODE_PONG =? OPCODE_CLOSE)%char with false.
    change (OPCODE_PONG =? OPCODE_PING)%char with false.
    change (OPCODE_PONG =? OPCODE_PONG)%char with true.
    cbv iota. run. eexists. split; [reflexivity|].
    unfold calls_of. fields. rewrite Hc, app_nil_r. repeat split.
Qed.

(** Control frames may arrive between the fragments of a message: a ping is
    answered and reported, a pong is reported, and the message in
    reassembly is left as it is. *)
Theorem control_frames_interleave (IsValidEncoding : bytes -> bool)
        (s : Impl) (c : Connection) (fin ping : bool) (data : bytes) :
  connection s = Some c ->
  exists s',
    ReceiveFrame_switch IsValidEncoding fin
      (if ping then OPCODE_PING else OPCODE_PONG) data s = Ok tt s'
    /\ receiving s' = receiving s
    /\ messageReassemblyBuffer s' = messageReassemblyBuffer s
    /\ eventQueue s'
       = eventQueue s
         ++ [Event.Build (if ping then Event.Ping else Event.Pong) data None]
    /\ calls_of s'
       = calls c
         ++ (if ping then [SendData (next_frame s true OPCODE_PONG data)]
             else []).
Proof.
  intro Hc.
  exact (control_frames_interleave_aux IsValidEncoding s c fin ping data Hc).
Qed.

(** ** Ping and pong *)

Lemma next_frame_set_frameReassemblyBuffer b s fin opcode payload :
  next_frame (set_frameReassemblyBuffer b s) fin opcode payload
  = next_frame s fin opcode payload.
Proof. reflexivity. Qed.

(** A ping is echoed.  The ping of one engine reaches the other, which
    queues it and answers with a pong carrying the same payload; that
    pong, delivered to the first engine, is queued there with the payload
    of the ping, behind what its queue held after the call of [Ping], and
    nothing more is sent.  The call of [Ping] ends with the dispatch of
    what the queue of the first engine held. *)
Theorem ping_is_echoed (IsValidEncoding : bytes -> bool)
        (delegates : Delegates)
        (a b : Impl) (to_b to_a : Connection) (data : bytes) :
  connection a = Some to_b ->
  connection b = Some to_a ->
  Role.eqb (role a) (role b) = false ->
  closeSent a = false ->
  closeReceived a = false ->
  closeReceived b = false ->
  frameReassemblyBuffer a = [] ->
  frameReassemblyBuffer b = [] ->
  too_large b (next_frame a true OPCODE_PING data) = false ->
  too_large a (next_frame b true OPCODE_PONG data) = false ->
  size data <= 125 ->
  exists handed a1 b1 a2,
    Ping delegates data a = Ok handed a1
    /\ handed = (if delegatesSet a
                 then deliver delegates (eventQueue a) else [])
    /\ eventQueue a1 = (if delegatesSet a then [] else eventQueue a)
    /\ calls_of a1
       = calls to_b ++ [SendData (next_frame a true OPCODE_PING data)]
    /\ ReceiveData IsValidEncoding (next_frame a true OPCODE_PING data) b
       = Ok tt b1
    /\ eventQueue b1
       = eventQueue b ++ [Event.Build Event.Ping data None]
    /\ calls_of b1
       = calls to_a ++ [SendData (next_frame b true OPCODE_PONG data)]
    /\ ReceiveData IsValidEncoding (next_frame b true OPCODE_PONG data) a1
       = Ok tt a2
    /\ eventQueue a2
       = eventQueue a1 ++ [Event.Build Event.Pong data None]
    /\ calls_of a2 = calls_of a1.
Proof.
  intros Hca Hcb Hroles Hsent Hra Hrb Hba Hbb Htb Hta Hshort.
  assert (Hle : (125 <? size data) = false) by (apply N.ltb_ge; exact Hshort).
  assert (HL : size data + 14 < 2 ^ 64)
    by (change (2 ^ 64) with 18446744073709551616; lia).
  set (a0 := after_SendFrame true OPCODE_PING data a).
  destruct (after_SendFrame_fields true OPCODE_PING data a to_b Hca)
    as (Hca0 & _ & Hra0 & Hea0 & _).
  destruct (after_SendFrame_assembly true OPCODE_PING data a)
    as (_ & _ & Hba0 & Hconf0 & Hrole0 & _).
  destruct (after_SendFrame_dispatch true OPCODE_PING data a) as (Hd0 & _).
  fold a0 in Hca0, Hra0, Hea0, Hba0, Hconf0, Hrole0, Hd0.
  (* the call of [Ping] *)
  assert (E0 : perform_locked IsValidEncoding (DoPing data) a = Ok tt a0).
  { cbn [perform_locked]. unfold Ping_locked. run. rewrite Hca, Hsent.
    unfold MAX_CONTROL_FRAME_DATA_LENGTH. rewrite Hle. cbv beta iota.
    apply (SendFrame_spec _ _ _ _ to_b Hca). }
  assert (Hdisp : dispatches (DoPing data) a = true).
  { unfold dispatches, MAX_CONTROL_FRAME_DATA_LENGTH.
    rewrite Hca, Hsent, Hle. reflexivity. }
  destruct (perform_returns IsValidEncoding delegates (DoPing data) a a0 E0)
    as (handed & a1 & E1 & D & Hhanded & Hq1).
  rewrite Hdisp, Hd0, Hea0 in Hhanded. rewrite Hdisp, Hd0, Hea0 in Hq1.
  cbn [andb] in Hhanded, Hq1.
  destruct (dispatched_fields delegates a0 handed a1 D) as (Ha1 & _).
  remember (eventQueue a1) as q eqn:Hq. clear Hq D. subst a1.
  set (a1 := set_eventQueue q a0) in *.
  assert (Hca1 : connection a1
                 = Some {| peerId := peerId to_b;
                           calls := calls to_b
                                    ++ [SendData (next_frame a true
                                                    OPCODE_PING data)] |})
    by exact Hca0.
  assert (Hra1 : closeReceived a1 = false) by (rewrite <- Hra; exact Hra0).
  assert (Hba1 : frameReassemblyBuffer a1 = [])
    by (rewrite <- Hba; exact Hba0).
  assert (Hconf1 : configuration a1 = configuration a) by exact Hconf0.
  assert (Hrole1 : role a1 = role a) by exact Hrole0.
  (* the ping arrives at [b] *)
  destruct (frame_received_whole IsValidEncoding a b to_b to_a true
              OPCODE_PING data Hca Hcb Hroles Hrb Hbb Htb
              ltac:(vm_compute; reflexivity) HL) as (_ & _ & Eb).
  set (f1 := next_frame a true OPCODE_PING data) in *.
  destruct (control_frames_interleave_aux IsValidEncoding
              (set_frameReassemblyBuffer f1 b) to_a true true data
              ltac:(fields; exact Hcb))
    as (b1 & Eb1 & _ & _ & Heb1 & Hkb1).
  rewrite Eb1 in Eb. cbn [map_state] in Eb.
  (* the pong arrives at [a1] *)
  assert (Hroles' : Role.eqb (role b) (role a1) = false).
  { rewrite Hrole1. destruct (role a), (role b); try discriminate Hroles;
      reflexivity. }
  assert (Hta1 : too_large a1 (next_frame b true OPCODE_PONG data) = false).
  { unfold too_large in *. rewrite Hconf1, Hba1, <- Hba. exact Hta. }
  destruct (frame_received_whole IsValidEncoding b a1 to_a _ true
              OPCODE_PONG data Hcb Hca1 Hroles' Hra1 Hba1
              Hta1 ltac:(vm_compute; reflexivity) HL) as (_ & _ & Ea).
  set (f2 := next_frame b true OPCODE_PONG data) in *.
  destruct (control_frames_interleave_aux IsValidEncoding
              (set_frameReassemblyBuffer f2 a1) _ true false data Hca1)
    as (a2 & Ea2 & _ & _ & Hea2 & Hka2).
  rewrite Ea2 in Ea. cbn [map_state] in Ea.
  exists handed, a1, (set_frameReassemblyBuffer [] b1),
    (set_frameReassemblyBuffer [] a2).
  split; [exact E1|]. split; [exact Hhanded|]. split; [exact Hq1|].
  split; [unfold calls_of; rewrite Hca1; reflexivity|].
  split; [exact Eb|].
  split; [fields; rewrite Heb1; reflexivity|].
  split.
  { unfold calls_of in *. fields. rewrite Hkb1.
    rewrite next_frame_set_frameReassemblyBuffer. reflexivity. }
  split; [exact Ea|].
  split; [fields; rewrite Hea2; reflexivity|].
  unfold calls_of in *. fields. rewrite Hka2, Hca1, app_nil_r. reflexivity.
Qed.

(** ** Definedness *)

Lemma defined_ret {A : Type} (a : A) : defined (ret a).
Proof. intros s c Hc. exists a, s, c. split; [reflexivity|exact Hc]. Qed.

Lemma defined_get {A : Type} (f : Impl -> A) : defined (get f).
Proof. intros s c Hc. exists (f s), s, c. split; [reflexivity|exact Hc]. Qed.

Lemma defined_bind {A B : Type} (m : M A) (f : A -> M B) :
  defined m -> (forall a, defined (f a)) -> defined (bind m f).
Proof.
  intros Hm Hf s c Hc. destruct (Hm s c Hc) as (a & s1 & c1 & E1 & Hc1).
  destruct (Hf a s1 c1 Hc1) as (b & s2 & c2 & E2 & Hc2).
  exists b, s2, c2. unfold bind. rewrite E1. split; assumption.
Qed.

Lemma defined_modify (f : Impl -> Impl) :
  (forall s, connection (f s) = connection s) -> defined (modify f).
Proof.
  intros Hf s c Hc. exists tt, (f s), c. split; [reflexivity|].
  rewrite Hf. exact Hc.
Qed.

Lemma defined_SendFrame fin opcode payload :
  defined (SendFrame fin opcode payload).
Proof.
  intros s c Hc. rewrite (SendFrame_spec _ _ _ _ c Hc).
  destruct (after_SendFrame_fields fin opcode payload s c Hc) as (Hc' & _).
  do 3 eexists. split; [reflexivity|exact Hc'].
Qed.

Lemma defined_Close code reason fail : defined (Close code reason fail).
Proof.
  intros s c Hc.
  destruct (Close code reason fail s) as [[] s'| |] eqn:E;
    try (rewrite Close_run, Hc in E; destruct (closeSent s); discriminate E).
  destruct (in_place_Close code reason fail s tt s' E) as [X _].
  destruct X as (_ & _ & _ & _ & _ & _ & _ & _ & _ & Hk).
  rewrite Hc in Hk. destruct Hk as (c' & Hc' & _).
  exists tt, s', c'. split; [reflexivity|exact Hc'].
Qed.

Lemma defined_OnClose code reason : defined (OnClose code reason).
Proof.
  intros s c Hc.
  destruct (OnClose code reason s) as [[] s'| |] eqn:E;
    try (rewrite OnClose_run, Hc, andb_false_r in E; discriminate E).
  assert (X : extends_in_place s s')
    by (revert E; apply (ltac:(auto with keeps)
                          : preserves extends_in_place (OnClose code reason))).
  destruct X as [X _].
  destruct X as (_ & _ & _ & _ & _ & _ & _ & _ & _ & Hk).
  rewrite Hc in Hk. destruct Hk as (c' & Hc' & _).
  exists tt, s', c'. split; [reflexivity|exact Hc'].
Qed.

Lemma defined_connection_GetPeerId : defined connection_GetPeerId.
Proof.
  intros s c Hc. exists (peerId c), s, c. split; [|exact Hc].
  unfold connection_GetPeerId. run. rewrite Hc. reflexivity.
Qed.

Lemma defined_publish level message :
  defined (SendDiagnosticInformationFormatted level message).
Proof. apply defined_modify. reflexivity. Qed.

Lemma defined_push event : defined (eventQueue_push event).
Proof. apply defined_modify. reflexivity. Qed.

Create HintDb definedness.
#[global] Hint Resolve defined_SendFrame defined_Close defined_OnClose
  defined_connection_GetPeerId defined_publish defined_push : definedness.

Ltac defined_step :=
  match goal with
  | |- defined (bind _ _) => apply defined_bind; [|intro]
  | |- defined (ret _) => apply defined_ret
  | |- defined (get _) => apply defined_get
  | |- defined (modify _) => apply defined_modify; reflexivity
  | |- defined (if ?b then _ else _) => destruct b
  | |- defined (match ?x with _ => _ end) => destruct x
  | |- defined (let '(_, _) := ?r in _) => destruct r
  | |- _ => solve [auto with definedness]
  end.

Lemma defined_OnTextMessage IsValidEncoding message :
  defined (OnTextMessage IsValidEncoding message).
Proof. unfold OnTextMessage. repeat defined_step. Qed.

Lemma defined_OnBinaryMessage message : defined (OnBinaryMessage message).
Proof. unfold OnBinaryMessage. repeat defined_step. Qed.

#[global] Hint Resolve defined_OnTextMessage defined_OnBinaryMessage
  : definedness.

Lemma defined_ReceiveFrame_switch IsValidEncoding fin opcode data :
  defined (ReceiveFrame_switch IsValidEncoding fin opcode data).
Proof. unfold ReceiveFrame_switch. cbv zeta. repeat defined_step. Qed.

Lemma unmask_payload_defined (buffer : bytes) (headerLength : N) :
  4 <= headerLength ->
  size buffer < SIZE_MAX1 ->
  forall (n : nat) (i : N),
    headerLength + i + N.of_nat n <= size buffer ->
    exists data, unmask_payload buffer headerLength n i = Some data.
Proof.
  intros H4 Hsz. induction n as [|n IH]; intros i Hn.
  - exists []. reflexivity.
  - cbn [unmask_payload].
    assert (Hi : add64 headerLength i = headerLength + i)
      by (unfold add64; apply N.mod_small; lia).
    assert (Hk : add64 (sub64 headerLength 4) (i mod 4)
                 = headerLength - 4 + i mod 4).
    { unfold add64, sub64.
      pose proof (N.mod_lt i 4 ltac:(discriminate)).
      change (4 mod SIZE_MAX1) with 4.
      replace (headerLength + SIZE_MAX1 - 4)
        with (headerLength - 4 + 1 * SIZE_MAX1) by lia.
      rewrite N.Div0.mod_add.
      rewrite (N.mod_small (headerLength - 4)) by lia.
      apply N.mod_small. lia. }
    rewrite Hi, Hk.
    pose proof (N.mod_lt i 4 ltac:(discriminate)).
    rewrite (at_nth buffer (headerLength + i)) by lia.
    rewrite (at_nth buffer (headerLength - 4 + i mod 4)) by lia.
    destruct (IH (i + 1)) as (rest & ->); [lia|].
    eexists. reflexivity.
Qed.

Lemma masked_header_length (buffer : bytes) (hl pl : N) :
  frame_lengths buffer = Some (hl, pl) ->
  negb (N.land (val (nth 1 buffer zero)) (val MASK) =? 0) = true ->
  4 <= hl.
Proof.
  unfold frame_lengths. cbv zeta. intros E Hm. rewrite Hm in E.
  repeat match type of E with
         | context [if ?b then _ else _] => destruct b
         end; inversion E; subst; lia.
Qed.

(** A frame that lies in the buffer as its header announces is handled:
    on a bound engine, with the lengths which [ReceiveData] computes from
    the header, [ReceiveFrame] reads nothing outside the buffer and
    returns, whatever the frame holds. *)
Theorem frame_in_buffer_is_handled (IsValidEncoding : bytes -> bool)
        (s : Impl) (c : Connection) (headerLength payloadLength : N) :
  connection s = Some c ->
  2 <= size (frameReassemblyBuffer s) ->
  size (frameReassemblyBuffer s) < 2 ^ 64 ->
  frame_lengths (frameReassemblyBuffer s)
  = Some (headerLength, payloadLength) ->
  headerLength + payloadLength <= size (frameReassemblyBuffer s) ->
  exists s',
    ReceiveFrame IsValidEncoding headerLength payloadLength s = Ok tt s'.
Proof.
  intros Hc H2 Hsz Hf Hfit.
  assert (D : forall m : M unit, defined m -> exists s', m s = Ok tt s').
  { intros m Hm. destruct (Hm s c Hc) as ([] & s' & _ & E & _).
    exists s'. exact E. }
  unfold ReceiveFrame. run.
  destruct (closeReceived s); [exists s; reflexivity|]. cbv beta iota.
  rewrite (at_nth _ 0) by lia. cbv beta iota.
  match goal with
  | |- context [if ?b then _ else _] => destruct b
  end; [apply D; auto with definedness|].
  rewrite (at_nth _ 1) by lia. cbv beta iota.
  change (N.to_nat 1) with 1%nat.
  destruct (negb (N.land (val (nth 1 (frameReassemblyBuffer s) zero))
                         (val MASK) =? 0)) eqn:Hm;
    destruct (role s) eqn:Hrole; cbn [andb negb Role.eqb];
    try (apply D; auto with definedness).
  - (* a masked frame at the server *)
    unfold frame_payload. cbn [Role.eqb].
    destruct (unmask_payload_defined (frameReassemblyBuffer s) headerLength
                (masked_header_length _ _ _ Hf Hm) Hsz
                (N.to_nat payloadLength) 0) as (data & ->); [lia|].
    cbv beta iota. apply D. apply defined_ReceiveFrame_switch.
  - (* an unmasked frame at the client *)
    unfold frame_payload, assign_payload. cbn [Role.eqb].
    apply N.leb_le in Hfit. rewrite Hfit. cbv beta iota.
    apply D. apply defined_ReceiveFrame_switch.
Qed.

(** ** Lengths that wrap around *)

Lemma wrapping_header_lengths (b0 : uint8_t) :
  frame_lengths (wrapping_header b0) = Some (10, SIZE_MAX1 - 10)
  /\ size (wrapping_header b0) = 10
  /\ add64 10 (SIZE_MAX1 - 10) = 0.
Proof. repeat split. Qed.

Lemma spin_step IsValidEncoding (b0 : uint8_t) (s : Impl) (c : Connection) :
  N.land (N.shiftr (val b0) 4) 7 <> 0 ->
  connection s = Some c ->
  frameReassemblyBuffer s = wrapping_header b0 ->
  exists s' c',
    ReceiveFrame IsValidEncoding 10 (SIZE_MAX1 - 10) s = Ok tt s'
    /\ connection s' = Some c'
    /\ frameReassemblyBuffer s' = wrapping_header b0.
Proof.
  intros Hbits Hc Hb.
  assert (E : exists s', ReceiveFrame IsValidEncoding 10 (SIZE_MAX1 - 10) s
                         = Ok tt s').
  { destruct (closeReceived s) eqn:Hr.
    - exists s. unfold ReceiveFrame. run. rewrite Hr. reflexivity.
    - destruct (header_errors_aux IsValidEncoding s 10 (SIZE_MAX1 - 10) b0
                  (u8 0x7F) (big_endian 8 (SIZE_MAX1 - 10)) Hr Hb)
        as (H1 & _).
      rewrite (H1 Hbits).
      destruct (defined_Close 1002 (str "reserved bits set") true s c Hc)
        as ([] & s' & _ & E & _).
      exists s'. exact E. }
  destruct E as (s' & E).
  destruct (in_place_ReceiveFrame IsValidEncoding 10 (SIZE_MAX1 - 10) s tt s' E)
    as [X Hsame].
  destruct X as (_ & _ & _ & _ & _ & _ & _ & _ & _ & Hk).
  rewrite Hc in Hk. destruct Hk as (c' & Hc' & _).
  exists s', c'. split; [exact E|]. split; [exact Hc'|].
  unfold same_buffer in Hsame. rewrite Hsame. exact Hb.
Qed.

Lemma loop_spins IsValidEncoding (b0 : uint8_t) :
  N.land (N.shiftr (val b0) 4) 7 <> 0 ->
  forall (fuel : nat) (s : Impl) (c : Connection),
    connection s = Some c ->
    frameReassemblyBuffer s = wrapping_header b0 ->
    ReceiveData_loop IsValidEncoding fuel s = OutOfFuel.
Proof.
  intros Hbits. induction fuel as [|fuel IH]; intros s c Hc Hb.
  - reflexivity.
  - destruct (wrapping_header_lengths b0) as (Hf & Hsz & Hw).
    destruct (spin_step IsValidEncoding b0 s c Hbits Hc Hb)
      as (s' & c' & E & Hc' & Hb').
    cbn [ReceiveData_loop]. run. rewrite Hb, Hsz, Hf, Hw.
    change (10 <? 2) with false. change (10 <? 0) with false.
    cbv beta iota. rewrite E. cbv beta iota.
    apply (IH _ c'); fields; [exact Hc'|].
    rewrite Hb'. reflexivity.
Qed.

(** A length that wraps keeps [ReceiveData] from returning.  Ten octets
    are enough: a header with a reserved bit set whose 64-bit length field
    holds [2^64 - 10].  The length of the frame comes to zero in [size_t],
    so the frame is refused, nothing is erased from the buffer, and the
    loop meets the same header again: no number of iterations ends it, on
    any bound engine with an empty buffer that accepts ten octets. *)
Theorem wrapped_length_never_returns (IsValidEncoding : bytes -> bool)
        (s : Impl) (c : Connection) (b0 : uint8_t) :
  connection s = Some c ->
  frameReassemblyBuffer s = [] ->
  too_large s (wrapping_header b0) = false ->
  N.land (N.shiftr (val b0) 4) 7 <> 0 ->
  ReceiveData IsValidEncoding (wrapping_header b0) s = OutOfFuel
  /\ forall fuel,
       ReceiveData_loop IsValidEncoding fuel
         (set_frameReassemblyBuffer (wrapping_header b0) s) = OutOfFuel.
Proof.
  intros Hc Hb Ht Hbits. split.
  - rewrite (ReceiveData_run _ _ _ c Hc Ht), Hb. cbn [app].
    apply (loop_spins IsValidEncoding b0 Hbits _ _ c); [exact Hc|reflexivity].
  - intro fuel.
    apply (loop_spins IsValidEncoding b0 Hbits _ _ c); [exact Hc|reflexivity].
Qed.

(** A wrapped length can also pass the check that the frame is complete.
    At a client, an unmasked frame header whose 64-bit length field holds
    at least [2^64 - 10] passes the tests of [ReceiveData] with ten octets
    in the buffer, and [ReceiveFrame] then asks for a payload that ends
    before it starts: the copy is outside the buffer and the outcome is
    undefined. *)
Theorem wrapped_length_is_undefined (IsValidEncoding : bytes -> bool)
        (s : Impl) (c : Connection) (b0 : uint8_t) (payloadLength : N) :
  connection s = Some c ->
  role s = Role.Client ->
  closeReceived s = false ->
  frameReassemblyBuffer s = [] ->
  too_large s (b0 :: u8 0x7F :: big_endian 8 payloadLength) = false ->
  N.land (N.shiftr (val b0) 4) 7 = 0 ->
  2 ^ 64 - 10 <= payloadLength < 2 ^ 64 ->
  ReceiveData IsValidEncoding (b0 :: u8 0x7F :: big_endian 8 payloadLength) s
  = Undefined.
Proof.
  intros Hc Hrole Hr Hb Ht Hbits [Hlo Hhi].
  rewrite (ReceiveData_run _ _ _ c Hc Ht), Hb. cbn [app].
  assert (Hf : frame_lengths (b0 :: u8 0x7F :: big_endian 8 payloadLength)
               = Some (10, payloadLength)).
  { pose proof (frame_lengths_wire b0 false payloadLength [] Hhi) as F.
    unfold wire_length in F.
    assert (H126 : (payloadLength <? 126) = false)
      by (apply N.ltb_ge; change (2 ^ 64) with 18446744073709551616 in Hlo; lia).
    assert (H64k : (payloadLength <? 65536) = false)
      by (apply N.ltb_ge; change (2 ^ 64) with 18446744073709551616 in Hlo; lia).
    rewrite H126, H64k, app_nil_r in F. exact F. }
  assert (Hsz : size (b0 :: u8 0x7F :: big_endian 8 payloadLength) = 10)
    by reflexivity.
  assert (Hw : add64 10 payloadLength = 10 + payloadLength - 2 ^ 64).
  { unfold add64, SIZE_MAX1.
    change (2 ^ 64) with 18446744073709551616 in *.
    replace (10 + payloadLength)
      with (10 + payloadLength - 18446744073709551616
            + 1 * 18446744073709551616) by lia.
    rewrite N.Div0.mod_add. rewrite N.mod_small by lia. lia. }
  cbn [List.length ReceiveData_loop]. run. fields.
  rewrite Hsz, Hf, Hw. change (10 <? 2) with false. cbv beta iota.
  assert (Hfit : (10 <? 10 + payloadLength - 2 ^ 64) = false)
    by (apply N.ltb_ge; change (2 ^ 64) with 18446744073709551616 in *; lia).
  rewrite Hfit. cbv beta iota.
  assert (E : ReceiveFrame IsValidEncoding 10 payloadLength
                (set_frameReassemblyBuffer
                   (b0 :: u8 0x7F :: big_endian 8 payloadLength) s)
              = Undefined).
  { set (s1 := set_frameReassemblyBuffer
                 (b0 :: u8 0x7F :: big_endian 8 payloadLength) s).
    assert (Hr1 : closeReceived s1 = false) by exact Hr.
    assert (Hb1 : frameReassemblyBuffer s1
                  = b0 :: u8 0x7F :: big_endian 8 payloadLength)
      by reflexivity.
    assert (Hrole1 : role s1 = Role.Client) by exact Hrole.
    clearbody s1.
    unfold ReceiveFrame. run. rewrite Hr1, Hb1. cbv beta iota.
    unfold at_. cbn [N.to_nat nth_error]. cbv beta iota.
    rewrite val_u8_small
      by (rewrite land_7; pose proof (N.mod_lt (N.shiftr (val b0) 4) 8); lia).
    rewrite Hbits. cbn [N.eqb negb]. cbv beta iota.
    change (nth_error (b0 :: u8 127 :: big_endian 8 payloadLength)
                      (Pos.to_nat 1)) with (Some (u8 127)).
    cbv beta iota. rewrite Hrole1.
    change (negb (N.land (val (u8 127)) (val MASK) =? 0)) with false.
    cbn [andb negb Role.eqb]. cbv beta iota.
    unfold frame_payload, assign_payload. cbn [Role.eqb].
    rewrite Hsz.
    assert (Hout : (10 + payloadLength <=? 10) = false)
      by (apply N.leb_gt; change (2 ^ 64) with 18446744073709551616 in *; lia).
    rewrite Hout. reflexivity. }
  rewrite E. reflexivity.
Qed.

(** ** Frames back to back *)

Lemma ignores_ret {A : Type} (a : A) : ignores_buffer (ret a).
Proof. intros b s. reflexivity. Qed.

Lemma ignores_undefined {A : Type} : ignores_buffer (@undefined A).
Proof. intros b s. reflexivity. Qed.

Lemma ignores_lift {A : Type} (o : option A) : ignores_buffer (lift o).
Proof. intros b s. destruct o; reflexivity. Qed.

Lemma ignores_get {A : Type} (f : Impl -> A) :
  (forall b s, f (set_frameReassemblyBuffer b s) = f s) ->
  ignores_buffer (get f).
Proof. intros Hf b s. unfold get. rewrite Hf. reflexivity. Qed.

Lemma ignores_modify (f : Impl -> Impl) :
  (forall b s, f (set_frameReassemblyBuffer b s)
               = set_frameReassemblyBuffer b (f s)) ->
  ignores_buffer (modify f).
Proof. intros Hf b s. unfold modify. rewrite Hf. reflexivity. Qed.

Lemma ignores_bind {A B : Type} (m : M A) (f : A -> M B) :
  ignores_buffer m -> (forall a, ignores_buffer (f a)) ->
  ignores_buffer (bind m f).
Proof.
  intros Hm Hf b s. unfold bind. rewrite Hm.
  destruct (m s) as [a s1| |]; cbn [map_state]; [apply Hf|reflexivity..].
Qed.

Create HintDb buffer_free.

Ltac ignores_step :=
  match goal with
  | |- ignores_buffer (bind _ _) => apply ignores_bind; [|intro]
  | |- ignores_buffer (ret _) => apply ignores_ret
  | |- ignores_buffer undefined => apply ignores_undefined
  | |- ignores_buffer (lift _) => apply ignores_lift
  | |- ignores_buffer (get _) => apply ignores_get; reflexivity
  | |- ignores_buffer (modify _) => apply ignores_modify; reflexivity
  | |- ignores_buffer (if ?b then _ else _) => destruct b
  | |- ignores_buffer (match ?x with _ => _ end) => destruct x
  | |- ignores_buffer (let '(_, _) := ?r in _) => destruct r
  | |- _ => solve [auto with buffer_free]
  end.

Lemma ignores_connection_SendData frame :
  ignores_buffer (connection_SendData frame).
Proof. unfold connection_SendData. repeat ignores_step. Qed.

Lemma ignores_connection_Break clean :
  ignores_buffer (connection_Break clean).
Proof. unfold connection_Break. repeat ignores_step. Qed.

Lemma ignores_connection_GetPeerId : ignores_buffer connection_GetPeerId.
Proof. unfold connection_GetPeerId. repeat ignores_step. Qed.

Lemma ignores_publish level message :
  ignores_buffer (SendDiagnosticInformationFormatted level message).
Proof. unfold SendDiagnosticInformationFormatted. repeat ignores_step. Qed.

Lemma ignores_push event : ignores_buffer (eventQueue_push event).
Proof. unfold eventQueue_push. repeat ignores_step. Qed.

Lemma ignores_rng_Generate n : ignores_buffer (rng_Generate n).
Proof. unfold rng_Generate. repeat ignores_step. Qed.

#[global] Hint Resolve ignores_connection_SendData ignores_connection_Break
  ignores_connection_GetPeerId ignores_publish ignores_push
  ignores_rng_Generate : buffer_free.

Lemma ignores_SendFrame fin opcode payload :
  ignores_buffer (SendFrame fin opcode payload).
Proof. unfold SendFrame. cbv zeta. repeat ignores_step. Qed.

Lemma ignores_OnClose code reason : ignores_buffer (OnClose code reason).
Proof. unfold OnClose. repeat ignores_step. Qed.

#[global] Hint Resolve ignores_SendFrame ignores_OnClose : buffer_free.

Lemma ignores_Close code reason fail :
  ignores_buffer (Close code reason fail).
Proof. unfold Close. cbv zeta. repeat ignores_step. Qed.

#[global] Hint Resolve ignores_Close : buffer_free.

Lemma ignores_OnTextMessage IsValidEncoding message :
  ignores_buffer (OnTextMessage IsValidEncoding message).
Proof. unfold OnTextMessage. repeat ignores_step. Qed.

Lemma ignores_OnBinaryMessage message :
  ignores_buffer (OnBinaryMessage message).
Proof. unfold OnBinaryMessage. repeat ignores_step. Qed.

#[global] Hint Resolve ignores_OnTextMessage ignores_OnBinaryMessage
  : buffer_free.

Lemma ignores_ReceiveFrame_switch IsValidEncoding fin opcode data :
  ignores_buffer (ReceiveFrame_switch IsValidEncoding fin opcode data).
Proof. unfold ReceiveFrame_switch. cbv zeta. repeat ignores_step. Qed.

Lemma ReceiveData_loop_more_fuel IsValidEncoding (k : nat) :
  forall (fuel : nat) (s s' : Impl),
    ReceiveData_loop IsValidEncoding fuel s = Ok tt s' ->
    ReceiveData_loop IsValidEncoding (fuel + k) s = Ok tt s'.
Proof.
  induction fuel as [|fuel IH]; intros s s' E; [discriminate E|].
  cbn [Nat.add ReceiveData_loop] in *. revert E. run.
  destruct (size (frameReassemblyBuffer s) <? 2); [trivial|].
  destruct (frame_lengths (frameReassemblyBuffer s)) as [[hl pl]|];
    [|trivial].
  destruct (size (frameReassemblyBuffer s) <? add64 hl pl); [trivial|].
  destruct (ReceiveFrame IsValidEncoding hl pl s) as [[] s1| |];
    [|trivial..].
  apply IH.
Qed.

Lemma nth_app_l (frame rest : bytes) (i : nat) :
  (i < List.length frame)%nat ->
  nth i (frame ++ rest) zero = nth i frame zero.
Proof. intro H. apply app_nth1. exact H. Qed.

Lemma frame_lengths_app (frame rest : bytes) (hl pl : N) :
  2 <= size frame ->
  frame_lengths frame = Some (hl, pl) ->
  frame_lengths (frame ++ rest) = Some (hl, pl).
Proof.
  intros H2 E. unfold size in H2.
  assert (H1 : nth 1 (frame ++ rest) zero = nth 1 frame zero)
    by (apply nth_app_l; lia).
  revert E. unfold frame_lengths. cbv zeta. rewrite H1, !size_app.
  destruct (N.land (val (nth 1 frame zero)) (N.lnot (val MASK) 32) =? 126).
  { destruct (size frame <? 4) eqn:E4; [discriminate|].
    apply N.ltb_ge in E4. unfold size in E4.
    assert (E4' : (size frame + size rest <? 4) = false)
      by (apply N.ltb_ge; unfold size; lia).
    rewrite E4'.
    rewrite !nth_app_l by lia. trivial. }
  destruct (N.land (val (nth 1 frame zero)) (N.lnot (val MASK) 32) =? 127).
  { destruct (size frame <? 10) eqn:E10; [discriminate|].
    apply N.ltb_ge in E10. unfold size in E10.
    assert (E10' : (size frame + size rest <? 10) = false)
      by (apply N.ltb_ge; unfold size; lia).
    rewrite E10'.
    rewrite !nth_app_l by lia. trivial. }
  trivial.
Qed.

Lemma at_app_frame (frame rest : bytes) (i : N) :
  i < size frame -> at_ (frame ++ rest) i = at_ frame i.
Proof.
  intro H. unfold at_, size in *. apply nth_error_app1. lia.
Qed.

Lemma unmask_payload_app (frame rest : bytes) (headerLength : N) :
  4 <= headerLength ->
  size frame < SIZE_MAX1 ->
  forall (n : nat) (i : N),
    headerLength + i + N.of_nat n <= size frame ->
    unmask_payload (frame ++ rest) headerLength n i
    = unmask_payload frame headerLength n i.
Proof.
  intros H4 Hsz. induction n as [|n IH]; intros i Hn; [reflexivity|].
  cbn [unmask_payload].
  assert (Hi : add64 headerLength i = headerLength + i)
    by (unfold add64; apply N.mod_small; lia).
  assert (Hk : add64 (sub64 headerLength 4) (i mod 4)
               = headerLength - 4 + i mod 4).
  { unfold add64, sub64.
    pose proof (N.mod_lt i 4 ltac:(discriminate)).
    change (4 mod SIZE_MAX1) with 4.
    replace (headerLength + SIZE_MAX1 - 4)
      with (headerLength - 4 + 1 * SIZE_MAX1) by lia.
    rewrite N.Div0.mod_add.
    rewrite (N.mod_small (headerLength - 4)) by lia.
    apply N.mod_small. lia. }
  rewrite Hi, Hk.
  pose proof (N.mod_lt i 4 ltac:(discriminate)).
  rewrite !at_app_frame by lia.
  rewrite IH by lia. reflexivity.
Qed.

Lemma assign_payload_app (frame rest : bytes) (headerLength payloadLength : N) :
  headerLength + payloadLength <= size frame ->
  assign_payload (frame ++ rest) headerLength payloadLength
  = assign_payload frame headerLength payloadLength.
Proof.
  intro H. unfold assign_payload. rewrite size_app.
  assert (H1 : (headerLength + payloadLength <=? size frame) = true)
    by (apply N.leb_le; exact H).
  assert (H2 : (headerLength + payloadLength <=? size frame + size rest)
               = true) by (apply N.leb_le; lia).
  rewrite H1, H2. f_equal. unfold size in H.
  rewrite skipn_app, firstn_app.
  replace (N.to_nat payloadLength
           - List.length (skipn (N.to_nat headerLength) frame))%nat
    with 0%nat by (rewrite length_skipn; lia).
  cbn [firstn]. rewrite app_nil_r. reflexivity.
Qed.

Lemma ReceiveFrame_app IsValidEncoding (frame rest : bytes) (hl pl : N)
      (s : Impl) :
  2 <= size frame ->
  size frame < SIZE_MAX1 ->
  frame_lengths frame = Some (hl, pl) ->
  hl + pl <= size frame ->
  ReceiveFrame IsValidEncoding hl pl
               (set_frameReassemblyBuffer (frame ++ rest) s)
  = map_state (set_frameReassemblyBuffer (frame ++ rest))
      (ReceiveFrame IsValidEncoding hl pl
                    (set_frameReassemblyBuffer frame s)).
Proof.
  intros H2 Hsz Hf Hfit.
  assert (I : forall m : M unit,
             ignores_buffer m ->
             m (set_frameReassemblyBuffer (frame ++ rest) s)
             = map_state (set_frameReassemblyBuffer (frame ++ rest))
                         (m (set_frameReassemblyBuffer frame s))).
  { intros m Hm.
    exact (Hm (frame ++ rest) (set_frameReassemblyBuffer frame s)). }
  unfold ReceiveFrame. run. fields.
  destruct (closeReceived s); [reflexivity|]. cbv beta iota. fields.
  rewrite (at_app_frame _ _ 0) by lia.
  rewrite (at_nth _ 0) by lia. cbv beta iota.
  match goal with
  | |- context [if ?b then _ else _] => destruct b
  end; [apply I; auto with buffer_free|].
  cbv beta iota.
  rewrite (at_app_frame _ _ 1) by lia.
  rewrite (at_nth _ 1) by lia. cbv beta iota. fields.
  change (N.to_nat 1) with 1%nat.
  destruct (negb (N.land (val (nth 1 frame zero)) (val MASK) =? 0)) eqn:Hm;
    destruct (role s) eqn:Hrole; cbn [andb negb Role.eqb]; cbv beta iota;
    try (apply I; auto with buffer_free).
  - unfold frame_payload. cbn [Role.eqb].
    rewrite (unmask_payload_app frame rest hl
               (masked_header_length _ _ _ Hf Hm) Hsz) by lia.
    destruct (unmask_payload frame hl (N.to_nat pl) 0) as [data|];
      [|reflexivity].
    cbv beta iota. apply I. apply ignores_ReceiveFrame_switch.
  - unfold frame_payload. cbn [Role.eqb].
    rewrite (assign_payload_app frame rest hl pl Hfit).
    destruct (assign_payload frame hl pl) as [data|]; [|reflexivity].
    cbv beta iota. apply I. apply ignores_ReceiveFrame_switch.
Qed.

(** Frames may arrive back to back.  When a chunk starts with a whole
    frame, delivering the chunk comes to delivering the frame and then the
    rest: whatever the two deliveries lead to, the single one leads to as
    well. *)
Theorem frames_back_to_back (IsValidEncoding : bytes -> bool) (s s' : Impl)
        (c : Connection) (frame rest : bytes)
        (headerLength payloadLength : N) :
  connection s = Some c ->
  frameReassemblyBuffer s = [] ->
  too_large s (frame ++ rest) = false ->
  size (frame ++ rest) < 2 ^ 64 ->
  2 <= size frame ->
  frame_lengths frame = Some (headerLength, payloadLength) ->
  headerLength + payloadLength = size frame ->
  bind (ReceiveData IsValidEncoding frame)
       (fun _ => ReceiveData IsValidEncoding rest) s = Ok tt s' ->
  ReceiveData IsValidEncoding (frame ++ rest) s = Ok tt s'.
Proof.
  intros Hc Hb Ht Hsz H2 Hf Hsum E.
  rewrite size_app in Hsz.
  assert (Hw : add64 headerLength payloadLength = size frame).
  { unfold add64, SIZE_MAX1. rewrite Hsum. apply N.mod_small. lia. }
  assert (Ht1 : too_large s frame = false).
  { unfold too_large, add64, SIZE_MAX1 in *. rewrite Hb, size_app in *.
    change (size []) with 0 in *. rewrite N.add_0_l in *.
    rewrite N.mod_small in Ht by lia. rewrite N.mod_small by lia.
    destruct (0 <? maxFrameSize (configuration s)); [|reflexivity].
    cbn [andb] in *. apply N.ltb_ge in Ht. apply N.ltb_ge. lia. }
  (* the frame alone *)
  unfold bind in E.
  rewrite (ReceiveData_run _ _ _ c Hc Ht1), Hb in E. cbn [app] in E.
  destruct (List.length frame) as [|[|n]] eqn:Hlen;
    try (unfold size in H2; rewrite Hlen in H2; lia).
  rewrite (ReceiveData_loop_one_frame IsValidEncoding (S n)
             (set_frameReassemblyBuffer frame s) headerLength payloadLength)
    in E by (fields; assumption).
  destruct (ReceiveFrame IsValidEncoding headerLength payloadLength
              (set_frameReassemblyBuffer frame s)) as [[] s1| |] eqn:E1;
    cbn [map_state] in E; try discriminate E.
  destruct (in_place_ReceiveFrame IsValidEncoding headerLength payloadLength
              _ tt s1 E1) as [X _].
  destruct X as (Hconf & _ & _ & _ & _ & _ & _ & _ & _ & Hk).
  fields_in Hconf. fields_in Hk. rewrite Hc in Hk.
  destruct Hk as (c1 & Hc1 & _).
  (* the rest *)
  assert (Ht2 : too_large (set_frameReassemblyBuffer [] s1) rest = false).
  { unfold too_large, add64, SIZE_MAX1 in *. fields.
    rewrite Hb, size_app in Ht. rewrite Hconf.
    change (size []) with 0 in *. rewrite N.add_0_l in *.
    rewrite N.mod_small in Ht by lia. rewrite N.mod_small by lia.
    destruct (0 <? maxFrameSize (configuration s)); [|reflexivity].
    cbn [andb] in *. apply N.ltb_ge in Ht. apply N.ltb_ge. lia. }
  rewrite (ReceiveData_run _ rest (set_frameReassemblyBuffer [] s1) c1 Hc1
             Ht2) in E. fields_in E.
  cbn [app] in E.
  (* both at once *)
  rewrite (ReceiveData_run _ _ _ c Hc Ht), Hb. cbn [app].
  rewrite length_app, Hlen.
  cbn [ReceiveData_loop]. run. fields.
  rewrite (frame_lengths_app frame rest _ _ H2 Hf), Hw, size_app.
  assert (G2 : (size frame + size rest <? 2) = false)
    by (apply N.ltb_ge; lia).
  assert (Gf : (size frame + size rest <? size frame) = false)
    by (apply N.ltb_ge; lia).
  rewrite G2, Gf. cbv beta iota.
  rewrite (ReceiveFrame_app IsValidEncoding frame rest headerLength
             payloadLength s H2 ltac:(unfold SIZE_MAX1; lia) Hf
             ltac:(lia)).
  rewrite E1. cbn [map_state]. cbv beta iota. fields.
  unfold size at 1. rewrite Nat2N.id, skipn_app, skipn_all, Nat.sub_diag.
  cbn [skipn app].
  replace (S (S n) + List.length rest)%nat
    with (S (List.length rest) + S n)%nat by lia.
  apply ReceiveData_loop_more_fuel. exact E.
Qed.

Lemma frames_back_to_back_witness :
  ReceiveData Reference.IsValidEncoding
    ([u8 0x81; u8 0x02; u8 0x68; u8 0x69] ++ [u8 0x8A; u8 0x00])
    (Example.opened Role.Client)
  = Ok tt
      (state_of
         (bind (ReceiveData Reference.IsValidEncoding
                  [u8 0x81; u8 0x02; u8 0x68; u8 0x69])
               (fun _ => ReceiveData Reference.IsValidEncoding
                           [u8 0x8A; u8 0x00])
               (Example.opened Role.Client))
         (Example.opened Role.Client)).
Proof.
  apply (frames_back_to_back Reference.IsValidEncoding
           (Example.opened Role.Client) _ Example.peer
           [u8 0x81; u8 0x02; u8 0x68; u8 0x69] [u8 0x8A; u8 0x00] 2 2);
    try reflexivity.
  vm_compute. discriminate.
Defined.

(** ** Before the engine is opened *)

Lemma unopened_locked IsValidEncoding (op : Operation) (s : Impl) :
  connection s = None -> perform_locked IsValidEncoding op s = Ok tt s.
Proof.
  intro Hc.
  destruct op; cbn [perform_locked];
    unfold WebSocket_Close_locked, Ping_locked, Pong_locked, SendText_locked,
      SendBinary_locked, ReceiveData, ConnectionBroken; run; rewrite Hc;
    reflexivity.
Qed.

Lemma unopened_perform IsValidEncoding (delegates : Delegates)
      (op : Operation) (s : Impl) :
  connection s = None ->
  perform IsValidEncoding delegates op s
  = if negb (by_application op) && delegatesSet s
    then Ok (deliver delegates (eventQueue s)) (set_eventQueue [] s)
    else Ok [] s.
Proof.
  intro Hc.
  rewrite (perform_outcome _ delegates _ _ _
             (unopened_locked IsValidEncoding op s Hc)).
  unfold dispatches. rewrite Hc. destruct op; reflexivity.
Qed.

Lemma unopened_quiet IsValidEncoding (delegates : Delegates)
      (ops : list Operation) (s : Impl) :
  connection s = None ->
  forallb by_application ops = true \/ delegatesSet s = false ->
  perform_all IsValidEncoding delegates ops s = Ok [] s.
Proof.
  intros Hc H. induction ops as [|op ops IH]; [reflexivity|].
  assert (E : perform IsValidEncoding delegates op s = Ok [] s).
  { rewrite (unopened_perform _ _ _ _ Hc).
    destruct H as [H|H].
    - cbn [forallb] in H. apply andb_true_iff in H. destruct H as [H _].
      rewrite H. reflexivity.
    - rewrite H, andb_false_r. reflexivity. }
  cbn [perform_all]. unfold bind at 1. rewrite E. unfold bind.
  rewrite IH; [reflexivity|].
  destruct H as [H|H]; [left|right; exact H].
  cbn [forallb] in H. apply andb_true_iff in H. apply H.
Qed.

Lemma unopened_trace IsValidEncoding (delegates : Delegates)
      (ops : list Operation) :
  forall s,
    connection s = None ->
    exists handed s',
      perform_all IsValidEncoding delegates ops s = Ok handed s'
      /\ dispatched delegates s handed s'.
Proof.
  induction ops as [|op ops IH]; intros s Hc.
  - exists [], s. split; [reflexivity|apply dispatched_refl].
  - cbn [perform_all]. unfold bind at 1.
    rewrite (unopened_perform _ _ _ _ Hc).
    destruct (negb (by_application op) && delegatesSet s) eqn:Hd.
    + apply andb_true_iff in Hd. destruct Hd as [_ Hd].
      destruct (IH (set_eventQueue [] s) Hc) as (handed & s' & E & D).
      unfold bind. rewrite E. unfold ret.
      exists (deliver delegates (eventQueue s) ++ handed), s'.
      split; [reflexivity|]. right.
      assert (Hs' : handed = [] /\ s' = set_eventQueue [] s).
      { destruct D as [[-> ->]|(_ & -> & ->)]; split; reflexivity. }
      destruct Hs' as [-> ->]. rewrite app_nil_r. repeat split. exact Hd.
    + destruct (IH s Hc) as (handed & s' & E & D).
      unfold bind. rewrite E. unfold ret.
      exists handed, s'. split; [reflexivity|exact D].
Qed.

(** An engine that was never opened ignores everything.  Every call of
    the application returns at once and leaves the engine exactly as it
    is, and so do [ReceiveData] and [ConnectionBroken]; a trace of calls
    of the application, and any trace while [delegatesSet] is false,
    leaves the engine as it is; and the only thing any trace can do is the
    dispatch in the delegates registered on a connection, which hands the
    queued events over. *)
Theorem unopened_engine_ignores_everything (IsValidEncoding : bytes -> bool)
        (delegates : Delegates) (ops : list Operation) (s : Impl) :
  connection s = None ->
  (forall op, by_application op = true ->
              perform IsValidEncoding delegates op s = Ok [] s)
  /\ (forall data, ReceiveData IsValidEncoding data s = Ok tt s)
  /\ ConnectionBroken s = Ok tt s
  /\ (forallb by_application ops = true \/ delegatesSet s = false ->
      perform_all IsValidEncoding delegates ops s = Ok [] s)
  /\ exists handed s',
      perform_all IsValidEncoding delegates ops s = Ok handed s'
      /\ dispatched delegates s handed s'.
Proof.
  intro Hc. split; [|split; [|split; [|split]]].
  - intros op Hop. rewrite (unopened_perform _ _ _ _ Hc), Hop. reflexivity.
  - intro data.
    exact (unopened_locked IsValidEncoding (DataReceived data) s Hc).
  - exact (unopened_locked IsValidEncoding Broken s Hc).
  - exact (unopened_quiet IsValidEncoding delegates ops s Hc).
  - exact (unopened_trace IsValidEncoding delegates ops s Hc).
Qed.

(** ** The closing handshake *)

(** The closing handshake runs to its end.  One engine closes; the other
    reports that close, and closes in turn; the first reports the answer.
    Each call of [WebSocket::Close] ends with the dispatch: with delegates
    set it hands over what was queued, for the second engine the Close
    event of the first among it, and leaves the queue empty.  Each side
    has then sent and received a close, has queued one Close event with
    the code and reason of the other side, and has broken its transport:
    the side which answered with [Break(true)] after its close frame, the
    side which started with [Break(false)]. *)
Theorem closing_handshake (IsValidEncoding : bytes -> bool)
        (delegates_a delegates_b : Delegates)
        (a b : Impl) (to_b to_a : Connection)
        (code : N) (reason : bytes) (code' : N) (reason' : bytes) :
  connection a = Some to_b ->
  connection b = Some to_a ->
  Role.eqb (role a) (role b) = false ->
  closeSent a = false -> closeReceived a = false ->
  closeSent b = false -> closeReceived b = false ->
  frameReassemblyBuffer a = [] -> frameReassemblyBuffer b = [] ->
  too_large b (next_frame a true OPCODE_CLOSE (close_payload code reason))
  = false ->
  too_large a (next_frame b true OPCODE_CLOSE (close_payload code' reason'))
  = false ->
  code < 65536 -> code <> 1005 -> code <> 1006 ->
  code' < 65536 -> code' <> 1005 -> code' <> 1006 ->
  size reason + 16 < 2 ^ 64 -> size reason' + 16 < 2 ^ 64 ->
  IsValidEncoding reason = true -> IsValidEncoding reason' = true ->
  exists handed_a a1 b1 handed_b b2 a2,
    WebSocket_Close delegates_a code reason a = Ok handed_a a1
    /\ handed_a = (if delegatesSet a
                  then deliver delegates_a (eventQueue a) else [])
    /\ eventQueue a1 = (if delegatesSet a then [] else eventQueue a)
    /\ ReceiveData IsValidEncoding
         (next_frame a true OPCODE_CLOSE (close_payload code reason)) b
       = Ok tt b1
    /\ eventQueue b1
       = eventQueue b ++ [Event.Build Event.Close reason (Some code)]
    /\ WebSocket_Close delegates_b code' reason' b1 = Ok handed_b b2
    /\ handed_b
       = (if delegatesSet b
          then deliver delegates_b
                 (eventQueue b ++ [Event.Build Event.Close reason (Some code)])
          else [])
    /\ eventQueue b2
       = (if delegatesSet b then []
          else eventQueue b ++ [Event.Build Event.Close reason (Some code)])
    /\ ReceiveData IsValidEncoding
         (next_frame b true OPCODE_CLOSE (close_payload code' reason')) a1
       = Ok tt a2
    /\ eventQueue a2
       = eventQueue a1 ++ [Event.Build Event.Close reason' (Some code')]
    /\ calls_of a2
       = calls to_b
         ++ [SendData (next_frame a true OPCODE_CLOSE
                                  (close_payload code reason));
             Break false]
    /\ calls_of b2
       = calls to_a
         ++ [SendData (next_frame b true OPCODE_CLOSE
                                  (close_payload code' reason'));
             Break true]
    /\ closeSent a2 = true /\ closeReceived a2 = true
    /\ closeSent b2 = true /\ closeReceived b2 = true.
Proof.
  intros Hca Hcb Hroles Hsa Hra Hsb Hrb Hba Hbb Htb Hta
         Hcode H5 H6 Hcode' H5' H6' HL HL' Hvalid Hvalid'.
  set (fa := next_frame a true OPCODE_CLOSE (close_payload code reason)) in *.
  set (fb := next_frame b true OPCODE_CLOSE (close_payload code' reason'))
    in *.
  assert (E6 : (code =? 1006) = false) by (apply N.eqb_neq; exact H6).
  assert (E6' : (code' =? 1006) = false) by (apply N.eqb_neq; exact H6').
  destruct (received_close_payload code reason Hcode H5) as (Hrc & H2 & Hsk).
  destruct (received_close_payload code' reason' Hcode' H5')
    as (Hrc' & H2' & Hsk').
  assert (Hsz : size (close_payload code reason) + 14 < 2 ^ 64).
  { unfold close_payload. apply N.eqb_neq in H5. rewrite H5.
    rewrite !size_cons. lia. }
  assert (Hsz' : size (close_payload code' reason') + 14 < 2 ^ 64).
  { unfold close_payload. apply N.eqb_neq in H5'. rewrite H5'.
    rewrite !size_cons. lia. }
  (* the first engine closes *)
  set (a0 := after_Close code reason false a).
  assert (Ea0 : perform_locked IsValidEncoding (DoClose code reason) a
                = Ok tt a0).
  { cbn [perform_locked]. unfold WebSocket_Close_locked. run.
    rewrite Hca. cbv iota. rewrite Close_run, Hsa, Hca. reflexivity. }
  destruct (after_SendFrame_fields true OPCODE_CLOSE
              (close_payload code reason) (set_closeSent true a) to_b Hca)
    as (Fc & Fs & Fr & Fe & _).
  destruct (after_SendFrame_assembly true OPCODE_CLOSE
              (close_payload code reason) (set_closeSent true a))
    as (_ & _ & Fb & Fconf & Frole & _).
  destruct (after_SendFrame_dispatch true OPCODE_CLOSE
              (close_payload code reason) (set_closeSent true a))
    as (Fd & _).
  fields_in Fs. fields_in Fr. fields_in Fe. fields_in Fb. fields_in Fconf.
  fields_in Frole. fields_in Fd. rewrite Hra in Fr.
  assert (Fa0 : connection a0
                = Some {| peerId := peerId to_b;
                          calls := calls to_b ++ [SendData fa] |}
                /\ closeSent a0 = true /\ closeReceived a0 = false
                /\ eventQueue a0 = eventQueue a
                /\ frameReassemblyBuffer a0 = []
                /\ configuration a0 = configuration a
                /\ role a0 = role a
                /\ delegatesSet a0 = delegatesSet a).
  { unfold a0, after_Close. rewrite E6. cbv iota zeta. rewrite Fr. fields.
    rewrite Fc, Fs, Fr, Fe, Fb, Fconf, Frole, Fd, Hba. repeat split. }
  destruct Fa0 as (Ca0 & Sa0 & Ra0 & Qa0 & Ba0 & Confa0 & Rolea0 & Da0).
  destruct (perform_returns IsValidEncoding delegates_a (DoClose code reason)
              a a0 Ea0) as (handed_a & a1 & Ea1 & Da & Hha & Hqa).
  unfold dispatches in Hha, Hqa. rewrite Hca, Da0, Qa0 in Hha, Hqa.
  cbn [andb] in Hha, Hqa.
  destruct (dispatched_fields delegates_a a0 handed_a a1 Da) as (Heq & _).
  remember (eventQueue a1) as qa eqn:Hq1 in Heq.
  assert (Fa1 : connection a1
                = Some {| peerId := peerId to_b;
                          calls := calls to_b ++ [SendData fa] |}
                /\ closeSent a1 = true /\ closeReceived a1 = false
                /\ frameReassemblyBuffer a1 = []
                /\ configuration a1 = configuration a
                /\ role a1 = role a).
  { rewrite Heq. fields. rewrite Ca0, Sa0, Ra0, Ba0, Confa0, Rolea0.
    repeat split. }
  destruct Fa1 as (Ca1 & Sa1 & Ra1 & Ba1 & Confa1 & Rolea1).
  (* the second engine receives the close *)
  destruct (frame_received_whole IsValidEncoding a b to_b to_a true
              OPCODE_CLOSE (close_payload code reason) Hca Hcb Hroles Hrb Hbb
              Htb ltac:(vm_compute; reflexivity) Hsz) as (_ & _ & Eb1).
  fold fa in Eb1.
  rewrite (switch_close _ _ _ _ to_a) in Eb1 by (fields; exact Hcb).
  rewrite H2, Hsk, Hvalid, Hrc in Eb1. cbn [negb andb fst snd map_state] in Eb1.
  match type of Eb1 with _ = Ok tt ?st => set (b1 := st) in * end.
  assert (Fb1 : connection b1 = Some to_a
                /\ closeSent b1 = false /\ closeReceived b1 = true
                /\ eventQueue b1
                   = eventQueue b ++ [Event.Build Event.Close reason
                                                   (Some code)]
                /\ role b1 = role b /\ rng b1 = rng b
                /\ delegatesSet b1 = delegatesSet b).
  { unfold b1, after_OnClose. fields. rewrite Hsb. fields.
    rewrite Hcb, Hsb. repeat split. }
  destruct Fb1 as (Cb1 & Sb1 & Rb1 & Qb1 & Roleb1 & Rngb1 & Db1).
  (* the second engine closes *)
  set (b0 := after_Close code' reason' false b1).
  assert (Eb0 : perform_locked IsValidEncoding (DoClose code' reason') b1
                = Ok tt b0).
  { cbn [perform_locked]. unfold WebSocket_Close_locked. run.
    rewrite Cb1. cbv iota. rewrite Close_run, Sb1, Cb1. reflexivity. }
  assert (Hfb : next_frame (set_closeSent true b1) true OPCODE_CLOSE
                           (close_payload code' reason') = fb).
  { unfold fb, next_frame, next_key. fields. rewrite Roleb1, Rngb1.
    reflexivity. }
  destruct (after_SendFrame_fields true OPCODE_CLOSE
              (close_payload code' reason') (set_closeSent true b1) to_a Cb1)
    as (Gc & Gs & Gr & Ge & _).
  destruct (after_SendFrame_dispatch true OPCODE_CLOSE
              (close_payload code' reason') (set_closeSent true b1))
    as (Gd & _).
  fields_in Gs. fields_in Gr. fields_in Ge. fields_in Gd. rewrite Hfb in Gc.
  rewrite Rb1 in Gr.
  assert (Fb0 : calls_of b0 = calls to_a ++ [SendData fb; Break true]
                /\ eventQueue b0 = eventQueue b1
                /\ closeSent b0 = true /\ closeReceived b0 = true
                /\ delegatesSet b0 = delegatesSet b1).
  { unfold b0, after_Close. rewrite E6'. cbv iota zeta. rewrite Gr.
    unfold calls_of, after_Break. rewrite Gc. fields.
    rewrite Gs, Gr, Ge, Gd, <- app_assoc. repeat split. }
  destruct Fb0 as (Kb0 & Qb0 & Sb0 & Rb0 & Db0).
  destruct (perform_returns IsValidEncoding delegates_b
              (DoClose code' reason') b1 b0 Eb0)
    as (handed_b & b2 & Eb2 & Db & Hhb & Hqb).
  unfold dispatches in Hhb, Hqb. rewrite Cb1, Db0, Db1, Qb0, Qb1 in Hhb, Hqb.
  cbn [andb] in Hhb, Hqb.
  destruct (dispatched_fields delegates_b b0 handed_b b2 Db)
    as (_ & _ & Kb2 & Sb2 & Rb2 & _).
  rewrite Kb0 in Kb2. rewrite Sb0 in Sb2. rewrite Rb0 in Rb2.
  (* the first engine receives the answer *)
  assert (Hroles' : Role.eqb (role b) (role a1) = false).
  { rewrite Rolea1. destruct (role a), (role b); try discriminate Hroles;
      reflexivity. }
  assert (Hta1 : too_large a1 fb = false).
  { unfold too_large in *. rewrite Confa1, Ba1, <- Hba. exact Hta. }
  destruct (frame_received_whole IsValidEncoding b a1 to_a _ true
              OPCODE_CLOSE (close_payload code' reason') Hcb Ca1 Hroles' Ra1
              Ba1 Hta1 ltac:(vm_compute; reflexivity) Hsz') as (_ & _ & Ea2).
  fold fb in Ea2.
  rewrite (switch_close _ _ _ (set_frameReassemblyBuffer fb a1) _ Ca1)
    in Ea2.
  rewrite H2', Hsk', Hvalid', Hrc' in Ea2.
  cbn [negb andb fst snd map_state] in Ea2.
  match type of Ea2 with _ = Ok tt ?st => set (a2 := st) in * end.
  assert (Fa2 : calls_of a2 = calls to_b ++ [SendData fa; Break false]
                /\ eventQueue a2
                   = eventQueue a1 ++ [Event.Build Event.Close reason'
                                                    (Some code')]
                /\ closeSent a2 = true /\ closeReceived a2 = true).
  { unfold a2, after_OnClose, calls_of, after_Break. fields.
    rewrite Sa1. fields. rewrite Ca1. fields.
    rewrite Sa1, <- app_assoc. repeat split. }
  destruct Fa2 as (Ka2 & Qa2 & Sa2 & Ra2).
  exists handed_a, a1, b1, handed_b, b2, a2.
  split; [exact Ea1|]. split; [exact Hha|]. split; [exact Hqa|].
  split; [exact Eb1|]. split; [exact Qb1|].
  split; [exact Eb2|]. split; [exact Hhb|]. split; [exact Hqb|].
  split; [exact Ea2|]. split; [exact Qa2|].
  split; [exact Ka2|]. split; [exact Kb2|].
  repeat split; assumption.
Qed.

(** ** Text is always valid UTF-8 *)

Section WellFormed.

Variable IsValidEncoding : bytes -> bool.

Lemma qwf_refl (s : Impl) : queues_well_formed IsValidEncoding s s.
Proof. exists []. split; [symmetry; apply app_nil_r|reflexivity]. Qed.

Lemma qwf_trans (s1 s2 s3 : Impl) :
  queues_well_formed IsValidEncoding s1 s2 ->
  queues_well_formed IsValidEncoding s2 s3 ->
  queues_well_formed IsValidEncoding s1 s3.
Proof.
  intros (e1 & E1 & F1) (e2 & E2 & F2). exists (e1 ++ e2). split.
  - rewrite E2, E1, app_assoc. reflexivity.
  - rewrite forallb_app, F1, F2. reflexivity.
Qed.

Lemma qwf_set_messageReassemblyBuffer v :
  forall s, queues_well_formed IsValidEncoding s
                               (set_messageReassemblyBuffer v s).
Proof. intro s. exists []. split; [symmetry; apply app_nil_r|reflexivity]. Qed.

Lemma qwf_set_frameReassemblyBuffer v :
  forall s, queues_well_formed IsValidEncoding s
                               (set_frameReassemblyBuffer v s).
Proof. intro s. exists []. split; [symmetry; apply app_nil_r|reflexivity]. Qed.

Lemma qwf_set_receiving v :
  forall s, queues_well_formed IsValidEncoding s (set_receiving v s).
Proof. intro s. exists []. split; [symmetry; apply app_nil_r|reflexivity]. Qed.

Lemma qwf_set_sending v :
  forall s, queues_well_formed IsValidEncoding s (set_sending v s).
Proof. intro s. exists []. split; [symmetry; apply app_nil_r|reflexivity]. Qed.

Lemma qwf_set_rng v :
  forall s, queues_well_formed IsValidEncoding s (set_rng v s).
Proof. intro s. exists []. split; [symmetry; apply app_nil_r|reflexivity]. Qed.

Lemma qwf_set_closeSent v :
  forall s, queues_well_formed IsValidEncoding s (set_closeSent v s).
Proof. intro s. exists []. split; [symmetry; apply app_nil_r|reflexivity]. Qed.

Lemma qwf_set_closeReceived v :
  forall s, queues_well_formed IsValidEncoding s (set_closeReceived v s).
Proof. intro s. exists []. split; [symmetry; apply app_nil_r|reflexivity]. Qed.

Lemma qwf_set_connection v :
  forall s, queues_well_formed IsValidEncoding s (set_connection v s).
Proof. intro s. exists []. split; [symmetry; apply app_nil_r|reflexivity]. Qed.

Lemma qwf_set_diagnosticsSender v :
  forall s, queues_well_formed IsValidEncoding s (set_diagnosticsSender v s).
Proof. intro s. exists []. split; [symmetry; apply app_nil_r|reflexivity]. Qed.

Lemma qwf_push (event : Event.t) :
  well_formed IsValidEncoding event = true ->
  preserves (queues_well_formed IsValidEncoding) (eventQueue_push event).
Proof.
  intro H. unfold eventQueue_push. apply preserves_modify. intro s.
  exists [event]. split; [reflexivity|]. cbn [forallb]. rewrite H.
  reflexivity.
Qed.

Lemma qwf_push_close reason code :
  preserves (queues_well_formed IsValidEncoding)
            (eventQueue_push (Event.Build Event.Close reason code)).
Proof. apply qwf_push. reflexivity. Qed.

Lemma qwf_push_binary data :
  preserves (queues_well_formed IsValidEncoding)
            (eventQueue_push (Event.Build Event.Binary data None)).
Proof. apply qwf_push. reflexivity. Qed.

Lemma qwf_push_ping data :
  preserves (queues_well_formed IsValidEncoding)
            (eventQueue_push (Event.Build Event.Ping data None)).
Proof. apply qwf_push. reflexivity. Qed.

Lemma qwf_push_pong data :
  preserves (queues_well_formed IsValidEncoding)
            (eventQueue_push (Event.Build Event.Pong data None)).
Proof. apply qwf_push. reflexivity. Qed.

End WellFormed.

#[global] Hint Resolve qwf_set_messageReassemblyBuffer
  qwf_set_frameReassemblyBuffer qwf_set_receiving qwf_set_sending qwf_set_rng
  qwf_set_closeSent qwf_set_closeReceived qwf_set_connection
  qwf_set_diagnosticsSender qwf_push_close qwf_push_binary qwf_push_ping
  qwf_push_pong : keeps.

Ltac qwf :=
  repeat match goal with
         | |- preserves (queues_well_formed ?valid) _ =>
             preserves_step (qwf_refl valid) (qwf_trans valid)
         | |- forall _, _ => intro
         | |- queues_well_formed _ _ _ => solve [auto with keeps]
         end.

Lemma qwf_connection_SendData IsValidEncoding frame :
  preserves (queues_well_formed IsValidEncoding) (connection_SendData frame).
Proof. unfold connection_SendData. qwf. Qed.

Lemma qwf_connection_Break IsValidEncoding clean :
  preserves (queues_well_formed IsValidEncoding) (connection_Break clean).
Proof. unfold connection_Break. qwf. Qed.

Lemma qwf_connection_GetPeerId IsValidEncoding :
  preserves (queues_well_formed IsValidEncoding) connection_GetPeerId.
Proof. unfold connection_GetPeerId. qwf. Qed.

Lemma qwf_publish IsValidEncoding level message :
  preserves (queues_well_formed IsValidEncoding)
            (SendDiagnosticInformationFormatted level message).
Proof. unfold SendDiagnosticInformationFormatted. qwf. Qed.

Lemma qwf_rng_Generate IsValidEncoding n :
  preserves (queues_well_formed IsValidEncoding) (rng_Generate n).
Proof. unfold rng_Generate. qwf. Qed.

#[global] Hint Resolve qwf_connection_SendData qwf_connection_Break
  qwf_connection_GetPeerId qwf_publish qwf_rng_Generate : keeps.

Lemma qwf_OnClose IsValidEncoding code reason :
  preserves (queues_well_formed IsValidEncoding) (OnClose code reason).
Proof. unfold OnClose. qwf. Qed.

Lemma qwf_SendFrame IsValidEncoding fin opcode payload :
  preserves (queues_well_formed IsValidEncoding)
            (SendFrame fin opcode payload).
Proof. unfold SendFrame. cbv zeta. qwf. Qed.

#[global] Hint Resolve qwf_OnClose qwf_SendFrame : keeps.

Lemma qwf_Close IsValidEncoding code reason fail :
  preserves (queues_well_formed IsValidEncoding) (Close code reason fail).
Proof. unfold Close. cbv zeta. qwf. Qed.

#[global] Hint Resolve qwf_Close : keeps.

Lemma qwf_OnTextMessage IsValidEncoding message :
  preserves (queues_well_formed IsValidEncoding)
            (OnTextMessage IsValidEncoding message).
Proof.
  unfold OnTextMessage.
  destruct (IsValidEncoding message) eqn:Hvalid.
  - apply qwf_push. exact Hvalid.
  - apply qwf_Close.
Qed.

Lemma qwf_OnBinaryMessage IsValidEncoding message :
  preserves (queues_well_formed IsValidEncoding) (OnBinaryMessage message).
Proof. unfold OnBinaryMessage. qwf. Qed.

#[global] Hint Resolve qwf_OnTextMessage qwf_OnBinaryMessage : keeps.

Lemma qwf_ReceiveFrame_switch IsValidEncoding fin opcode data :
  preserves (queues_well_formed IsValidEncoding)
            (ReceiveFrame_switch IsValidEncoding fin opcode data).
Proof. unfold ReceiveFrame_switch. cbv zeta. qwf. Qed.

#[global] Hint Resolve qwf_ReceiveFrame_switch : keeps.

Lemma qwf_ReceiveFrame IsValidEncoding hl pl :
  preserves (queues_well_formed IsValidEncoding)
            (ReceiveFrame IsValidEncoding hl pl).
Proof. unfold ReceiveFrame. cbv zeta. qwf. Qed.

#[global] Hint Resolve qwf_ReceiveFrame : keeps.

Lemma qwf_ReceiveData_loop IsValidEncoding fuel :
  preserves (queues_well_formed IsValidEncoding)
            (ReceiveData_loop IsValidEncoding fuel).
Proof. induction fuel as [|fuel IH]; cbn [ReceiveData_loop]; qwf. Qed.

#[global] Hint Resolve qwf_ReceiveData_loop : keeps.

Lemma qwf_perform IsValidEncoding op :
  preserves (queues_well_formed IsValidEncoding) (perform_locked IsValidEncoding op).
Proof.
  destruct op; cbn [perform_locked];
    unfold WebSocket_Close_locked, Ping_locked, Pong_locked, SendText_locked,
      SendBinary_locked, ReceiveData,
      ConnectionBroken; cbv zeta; qwf.
Qed.

Lemma deliver_text (delegates : Delegates) (events : list Event.t)
      (data : bytes) :
  In (CallText data) (deliver delegates events) ->
  exists event,
    In event events /\ Event.type event = Event.Text
    /\ Event.content event = data.
Proof.
  induction events as [|event rest IH]; intro Hin; [destruct Hin|].
  cbn [deliver] in Hin. apply in_app_or in Hin. destruct Hin as [Hin|Hin].
  - exists event. split; [left; reflexivity|].
    destruct (Event.type event);
      match type of Hin with
      | In _ (if ?flag then _ else _) => destruct flag
      | _ => idtac
      end;
      try (destruct Hin as [Hin|[]]; try discriminate Hin);
      try (destruct Hin; fail).
    injection Hin as <-. split; reflexivity.
  - destruct (IH Hin) as (event' & Hin' & Ht & Hc).
    exists event'. split; [right; exact Hin'|]. split; assumption.
Qed.

(** The engine never reports text that is not valid UTF-8: whatever is
    called and whatever arrives, in any order and cut into frames and
    fragments in any way, every Text event added to the queue carries
    content which the validator accepts.  The events added and those
    already queued are handed to the delegates in order by the dispatches
    along the way; so if the Text events queued at the start are valid,
    every call of the text delegate is made with valid text, and what is
    still queued at the end is valid. *)
Theorem text_events_are_valid (IsValidEncoding : bytes -> bool)
        (delegates : Delegates) (ops : list Operation) (s : Impl)
        (handed : list DelegateCall) (s' : Impl) :
  perform_all IsValidEncoding delegates ops s = Ok handed s' ->
  exists events,
    delivers delegates s events handed s'
    /\ (forall event,
           In event events -> Event.type event = Event.Text ->
           IsValidEncoding (Event.content event) = true)
    /\ ((forall event,
            In event (eventQueue s) -> Event.type event = Event.Text ->
            IsValidEncoding (Event.content event) = true) ->
        (forall data, In (CallText data) handed ->
                      IsValidEncoding data = true)
        /\ (forall event,
               In event (eventQueue s') -> Event.type event = Event.Text ->
               IsValidEncoding (Event.content event) = true)).
Proof.
  intro E.
  destruct (trace_events IsValidEncoding delegates
              (well_formed IsValidEncoding) (fun _ => True)
              (fun _ _ => I)
              (fun op s0 s1 _ E0 =>
                 conj I (qwf_perform IsValidEncoding op s0 tt s1 E0))
              ops s handed s' I E) as (_ & events & D & Hall).
  assert (Hnew : forall event,
             In event events -> Event.type event = Event.Text ->
             IsValidEncoding (Event.content event) = true).
  { intros event Hin Htext. rewrite forallb_forall in Hall.
    specialize (Hall event Hin). unfold well_formed in Hall.
    rewrite Htext in Hall. exact Hall. }
  exists events. split; [exact D|]. split; [exact Hnew|].
  intro Hold. destruct D as (delivered & Hq & Hc & _).
  assert (Hany : forall event,
             In event (delivered ++ eventQueue s') ->
             Event.type event = Event.Text ->
             IsValidEncoding (Event.content event) = true).
  { intros event Hin. rewrite Hq in Hin. apply in_app_or in Hin.
    destruct Hin as [Hin|Hin]; [apply Hold|apply Hnew]; exact Hin. }
  split.
  - intros data Hin. rewrite Hc in Hin.
    destruct (deliver_text delegates delivered data Hin)
      as (event & Hin' & Ht & <-).
    apply Hany; [apply in_or_app; left; exact Hin'|exact Ht].
  - intros event Hin. apply Hany. apply in_or_app. right. exact Hin.
Qed.

(** ** After the engine's own close *)

Lemma aoc_refl (s : Impl) : after_own_close s s.
Proof.
  intro H. split; [exact H|]. exists []. split; [symmetry; apply app_nil_r|].
  reflexivity.
Qed.

Lemma aoc_trans (s1 s2 s3 : Impl) :
  after_own_close s1 s2 -> after_own_close s2 s3 -> after_own_close s1 s3.
Proof.
  intros A B H. destruct (A H) as (H2 & e1 & E1 & F1).
  destruct (B H2) as (H3 & e2 & E2 & F2).
  split; [exact H3|]. exists (e1 ++ e2). split.
  - rewrite E2, E1, app_assoc. reflexivity.
  - rewrite forallb_app, F1, F2. reflexivity.
Qed.

Ltac aoc_fields :=
  intro; unfold after_own_close, calls_of; fields; intro; split; auto;
  exists []; split; [symmetry; apply app_nil_r|reflexivity].

Lemma aoc_set_messageReassemblyBuffer v :
  forall s, after_own_close s (set_messageReassemblyBuffer v s).
Proof. aoc_fields. Qed.

Lemma aoc_set_frameReassemblyBuffer v :
  forall s, after_own_close s (set_frameReassemblyBuffer v s).
Proof. aoc_fields. Qed.

Lemma aoc_set_receiving v : forall s, after_own_close s (set_receiving v s).
Proof. aoc_fields. Qed.

Lemma aoc_set_closeReceived v :
  forall s, after_own_close s (set_closeReceived v s).
Proof. aoc_fields. Qed.

Lemma aoc_push event : preserves after_own_close (eventQueue_push event).
Proof. unfold eventQueue_push. apply preserves_modify. aoc_fields. Qed.

Lemma aoc_publish level message :
  preserves after_own_close (SendDiagnosticInformationFormatted level message).
Proof.
  unfold SendDiagnosticInformationFormatted. apply preserves_modify.
  aoc_fields.
Qed.

Lemma aoc_connection_GetPeerId : preserves after_own_close connection_GetPeerId.
Proof.
  intros s a s' E. unfold connection_GetPeerId in E. revert E. run.
  destruct (connection s); [|discriminate].
  intro E. state_eq E s. subst s'. apply aoc_refl.
Qed.

Lemma aoc_connection_Break :
  preserves after_own_close (connection_Break false).
Proof.
  intros s a s' E. unfold connection_Break in E. revert E. run.
  destruct (connection s) as [c|] eqn:Hc; [|discriminate].
  intro E. state_eq E s. subst s'. intro Hs.
  unfold calls_of. fields. rewrite Hc. split; [exact Hs|].
  exists [Break false]. split; reflexivity.
Qed.

Lemma aoc_Close code reason fail :
  preserves after_own_close (Close code reason fail).
Proof.
  intros s a s' E Hs. rewrite (Close_again _ _ _ _ Hs) in E.
  state_eq E s. subst s'. apply aoc_refl. exact Hs.
Qed.

Lemma aoc_SendFrame_pong data :
  preserves after_own_close (SendFrame true OPCODE_PONG data).
Proof.
  intros s a s' E Hs.
  destruct (connection s) as [c|] eqn:Hc.
  - rewrite (SendFrame_spec _ _ _ _ c Hc) in E. state_eq E s. subst s'.
    destruct (after_SendFrame_fields true OPCODE_PONG data s c Hc)
      as (Hc' & Hs' & _).
    unfold calls_of. rewrite Hc', Hc, Hs'. fields. split; [exact Hs|].
    exists [SendData (next_frame s true OPCODE_PONG data)].
    split; reflexivity.
  - rewrite (SendFrame_null _ _ _ _ Hc) in E. discriminate E.
Qed.

#[global] Hint Resolve aoc_set_messageReassemblyBuffer
  aoc_set_frameReassemblyBuffer aoc_set_receiving aoc_set_closeReceived
  aoc_push aoc_publish aoc_connection_GetPeerId aoc_connection_Break
  aoc_Close aoc_SendFrame_pong : keeps.

Ltac aoc := repeat preserves_step aoc_refl aoc_trans.

Lemma aoc_OnClose code reason : preserves after_own_close (OnClose code reason).
Proof. unfold OnClose. aoc. Qed.

#[global] Hint Resolve aoc_OnClose : keeps.

Lemma aoc_OnTextMessage IsValidEncoding message :
  preserves after_own_close (OnTextMessage IsValidEncoding message).
Proof. unfold OnTextMessage. aoc. Qed.

Lemma aoc_OnBinaryMessage message :
  preserves after_own_close (OnBinaryMessage message).
Proof. unfold OnBinaryMessage. aoc. Qed.

#[global] Hint Resolve aoc_OnTextMessage aoc_OnBinaryMessage : keeps.

Lemma aoc_ReceiveFrame_switch IsValidEncoding fin opcode data :
  preserves after_own_close
            (ReceiveFrame_switch IsValidEncoding fin opcode data).
Proof. unfold ReceiveFrame_switch. cbv zeta. aoc. Qed.

#[global] Hint Resolve aoc_ReceiveFrame_switch : keeps.

Lemma aoc_ReceiveFrame IsValidEncoding hl pl :
  preserves after_own_close (ReceiveFrame IsValidEncoding hl pl).
Proof. unfold ReceiveFrame. cbv zeta. aoc. Qed.

#[global] Hint Resolve aoc_ReceiveFrame : keeps.

Lemma aoc_ReceiveData_loop IsValidEncoding fuel :
  preserves after_own_close (ReceiveData_loop IsValidEncoding fuel).
Proof. induction fuel as [|fuel IH]; cbn [ReceiveData_loop]; aoc. Qed.

#[global] Hint Resolve aoc_ReceiveData_loop : keeps.

Lemma aoc_perform IsValidEncoding op :
  preserves after_own_close (perform_locked IsValidEncoding op).
Proof.
  destruct (by_application op) eqn:Hop.
  - intros s a s' E Hs.
    rewrite (application_after_close IsValidEncoding op s Hs Hop) in E.
    state_eq E s. subst s'. apply aoc_refl. exact Hs.
  - destruct op; try discriminate Hop; cbn [perform_locked];
      unfold ReceiveData, ConnectionBroken; cbv zeta; aoc.
Qed.

(** Once the engine has sent its close it sends no message, no ping and
    no second close, whatever is called and whatever arrives: the only
    frames it still sends are pongs in answer to pings, and the only other
    call it makes on the connection is [Break(false)]. *)
Theorem after_close_only_pongs (IsValidEncoding : bytes -> bool)
        (delegates : Delegates) (ops : list Operation) (s : Impl)
        (handed : list DelegateCall) (s' : Impl) :
  closeSent s = true ->
  perform_all IsValidEncoding delegates ops s = Ok handed s' ->
  closeSent s' = true
  /\ exists made,
      calls_of s' = calls_of s ++ made
      /\ forallb pong_or_break made = true.
Proof.
  intros Hs E.
  refine (trace_states IsValidEncoding delegates after_own_close
            aoc_refl aoc_trans (aoc_perform IsValidEncoding) _
            ops s handed s' E Hs).
  intros s0 Hs0. unfold calls_of. fields. split; [exact Hs0|].
  exists []. split; [symmetry; apply app_nil_r|reflexivity].
Qed.
(** ** Worked instances *)


Lemma closed_engine_is_silent_witness :
  perform Reference.IsValidEncoding Example.all_delegates
          (DoPing (str "abc")) (set_closeSent true (Example.listening Role.Client))
  = Ok [] (set_closeSent true (Example.listening Role.Client))
  /\ perform Reference.IsValidEncoding Example.all_delegates
             (DoClose 1000 (str "bye"))
             (set_closeSent true (Example.listening Role.Client))
     = Ok [CallText (str "hi")]
          (set_eventQueue []
             (set_closeSent true (Example.listening Role.Client))).
Proof.
  split.
  - destruct (closed_engine_is_silent Reference.IsValidEncoding
                Example.all_delegates (DoPing (str "abc"))
                (set_closeSent true (Example.listening Role.Client))
                eq_refl eq_refl) as (H & _).
    exact H.
  - destruct (closed_engine_is_silent Reference.IsValidEncoding
                Example.all_delegates (DoClose 1000 (str "bye"))
                (set_closeSent true (Example.listening Role.Client))
                eq_refl eq_refl) as (H & _).
    exact H.
Defined.

Lemma only_close_events_after_peer_close_witness :
  closeReceived
    (state_of (perform_all Reference.IsValidEncoding Example.all_delegates
                 Example.late_session
                 (set_closeReceived true (Example.listening Role.Server)))
              (Example.listening Role.Server)) = true
  /\ exists events,
      delivers Example.all_delegates
        (set_closeReceived true (Example.listening Role.Server)) events
        (value_of (perform_all Reference.IsValidEncoding
                     Example.all_delegates Example.late_session
                     (set_closeReceived true (Example.listening Role.Server)))
                  [])
        (state_of (perform_all Reference.IsValidEncoding
                     Example.all_delegates Example.late_session
                     (set_closeReceived true (Example.listening Role.Server)))
                  (Example.listening Role.Server))
      /\ forallb is_close events = true.
Proof.
  apply (only_close_events_after_peer_close Reference.IsValidEncoding
           Example.all_delegates Example.late_session
           (set_closeReceived true (Example.listening Role.Server))).
  - reflexivity.
  - vm_compute. reflexivity.
Defined.

Lemma ReceiveData_in_two_chunks_witness :
  ReceiveData Reference.IsValidEncoding [u8 0x81] (Example.opened Role.Client)
  = Ok tt (set_frameReassemblyBuffer
             (frameReassemblyBuffer (Example.opened Role.Client) ++ [u8 0x81])
             (Example.opened Role.Client))
  /\ bind (ReceiveData Reference.IsValidEncoding [u8 0x81])
          (fun _ => ReceiveData Reference.IsValidEncoding
                      [u8 0x02; u8 0x68; u8 0x69])
          (Example.opened Role.Client)
     = ReceiveData Reference.IsValidEncoding
         ([u8 0x81] ++ [u8 0x02; u8 0x68; u8 0x69])
         (Example.opened Role.Client).
Proof.
  apply (ReceiveData_in_two_chunks Reference.IsValidEncoding
           (Example.opened Role.Client) Example.peer
           [u8 0x81] [u8 0x02; u8 0x68; u8 0x69]); reflexivity.
Defined.

Lemma frame_cut_anywhere_witness :
  ReceiveData Reference.IsValidEncoding
    (firstn 3 (next_frame (Example.opened Role.Client) true OPCODE_TEXT
                          (str "hello")))
    (Example.opened Role.Server)
  = Ok tt (set_frameReassemblyBuffer
             (firstn 3 (next_frame (Example.opened Role.Client) true
                                   OPCODE_TEXT (str "hello")))
             (Example.opened Role.Server))
  /\ bind (ReceiveData Reference.IsValidEncoding
             (firstn 3 (next_frame (Example.opened Role.Client) true
                                   OPCODE_TEXT (str "hello"))))
          (fun _ =>
             ReceiveData Reference.IsValidEncoding
               (skipn 3 (next_frame (Example.opened Role.Client) true
                                    OPCODE_TEXT (str "hello"))))
          (Example.opened Role.Server)
     = ReceiveData Reference.IsValidEncoding
         (next_frame (Example.opened Role.Client) true OPCODE_TEXT
                     (str "hello"))
         (Example.opened Role.Server).
Proof.
  apply (frame_cut_anywhere Reference.IsValidEncoding
           (Example.opened Role.Server) Example.peer
           (Example.opened Role.Client) true OPCODE_TEXT (str "hello") 3);
    try reflexivity.
  vm_compute. lia.
Defined.

Lemma frame_round_trip_witness :
  SendFrame true OPCODE_TEXT (str "hello") (Example.opened Role.Client)
  = Ok tt (after_SendFrame true OPCODE_TEXT (str "hello")
                           (Example.opened Role.Client))
  /\ calls_of (after_SendFrame true OPCODE_TEXT (str "hello")
                               (Example.opened Role.Client))
     = calls Example.peer
       ++ [SendData (next_frame (Example.opened Role.Client) true OPCODE_TEXT
                                (str "hello"))]
  /\ ReceiveData Reference.IsValidEncoding
       (next_frame (Example.opened Role.Client) true OPCODE_TEXT (str "hello"))
       (Example.opened Role.Server)
     = map_state (set_frameReassemblyBuffer [])
         (ReceiveFrame_switch Reference.IsValidEncoding true OPCODE_TEXT
            (str "hello")
            (set_frameReassemblyBuffer
               (next_frame (Example.opened Role.Client) true OPCODE_TEXT
                           (str "hello"))
               (Example.opened Role.Server))).
Proof.
  apply (frame_round_trip Reference.IsValidEncoding
           (Example.opened Role.Client) (Example.opened Role.Server)
           Example.peer Example.peer true OPCODE_TEXT (str "hello"));
    reflexivity.
Defined.

Lemma message_round_trip_witness :
  exists handed sender' receiver',
    SendText Example.all_delegates (str "hello") true
             (Example.listening Role.Client) = Ok handed sender'
    /\ handed = [CallText (str "hi")]
    /\ calls_of sender'
       = calls Example.peer
         ++ [SendData (next_frame (Example.listening Role.Client) true
                                  OPCODE_TEXT (str "hello"))]
    /\ sending sender' = FragmentedMessageType.None
    /\ ReceiveData Reference.IsValidEncoding
         (next_frame (Example.listening Role.Client) true OPCODE_TEXT
                     (str "hello"))
         (Example.opened Role.Server)
       = Ok tt receiver'
    /\ eventQueue receiver'
       = eventQueue (Example.opened Role.Server)
         ++ [Event.Build Event.Text (str "hello") None]
    /\ calls_of receiver' = calls Example.peer
    /\ frameReassemblyBuffer receiver' = []
    /\ receiving receiver' = FragmentedMessageType.None.
Proof.
  apply (message_round_trip Reference.IsValidEncoding Example.all_delegates
           (Example.listening Role.Client) (Example.opened Role.Server)
           Example.peer Example.peer true (str "hello"));
    reflexivity.
Defined.

Lemma close_round_trip_witness :
  exists handed sender' receiver',
    WebSocket_Close Example.all_delegates 1000 (str "bye")
                    (Example.listening Role.Client)
    = Ok handed sender'
    /\ handed = [CallText (str "hi")]
    /\ closeSent sender' = true
    /\ (exists rest,
           calls_of sender'
           = calls Example.peer
             ++ SendData (next_frame (Example.listening Role.Client) true
                                     OPCODE_CLOSE
                                     (close_payload 1000 (str "bye")))
                :: rest)
    /\ ReceiveData Reference.IsValidEncoding
         (next_frame (Example.listening Role.Client) true OPCODE_CLOSE
                     (close_payload 1000 (str "bye")))
         (Example.opened Role.Server)
       = Ok tt receiver'
    /\ eventQueue receiver'
       = eventQueue (Example.opened Role.Server)
         ++ [Event.Build Event.Close (str "bye") (Some 1000)]
    /\ closeReceived receiver' = true
    /\ closeSent receiver' = closeSent (Example.opened Role.Server)
    /\ calls_of receiver'
       = calls Example.peer
         ++ (if closeSent (Example.opened Role.Server) then [Break false]
             else []).
Proof.
  apply (close_round_trip Reference.IsValidEncoding Example.all_delegates
           (Example.listening Role.Client) (Example.opened Role.Server)
           Example.peer Example.peer 1000 (str "bye"));
    try reflexivity; discriminate.
Defined.

Lemma send_state_machine_witness :
  (sending (Example.listening Role.Client) = FragmentedMessageType.Binary ->
   SendText Example.all_delegates (str "Hel") false
            (Example.listening Role.Client)
   = Ok [] (Example.listening Role.Client))
  /\ (sending (Example.listening Role.Client)
      <> FragmentedMessageType.Binary ->
      exists handed s',
        SendText Example.all_delegates (str "Hel") false
                 (Example.listening Role.Client) = Ok handed s'
        /\ handed = [CallText (str "hi")]
        /\ eventQueue s' = []
        /\ calls_of s'
           = calls Example.peer
             ++ [SendData
                   (next_frame (Example.listening Role.Client) false
                      (match sending (Example.listening Role.Client) with
                       | FragmentedMessageType.None => OPCODE_TEXT
                       | _ => OPCODE_CONTINUATION
                       end) (str "Hel"))]
        /\ sending s' = FragmentedMessageType.Text).
Proof.
  apply (send_state_machine Example.all_delegates
           (Example.listening Role.Client) Example.peer true
           (str "Hel") false); reflexivity.
Defined.

Lemma control_frames_are_short_witness :
  (125 < size (str "abc") ->
   Ping Example.all_delegates (str "abc") (Example.listening Role.Client)
   = Ok [] (Example.listening Role.Client))
  /\ (size (str "abc") <= 125 ->
      exists handed s',
        Ping Example.all_delegates (str "abc") (Example.listening Role.Client)
        = Ok handed s'
        /\ handed = [CallText (str "hi")]
        /\ eventQueue s' = []
        /\ calls_of s'
           = calls Example.peer
             ++ [SendData (next_frame (Example.listening Role.Client) true
                                      OPCODE_PING (str "abc"))]
        /\ next_frame (Example.listening Role.Client) true OPCODE_PING
                      (str "abc")
           = u8 0x89
             :: u8 ((if Role.eqb (role (Example.listening Role.Client))
                                 Role.Client then 0x80 else 0)
                    + size (str "abc"))
             :: (if Role.eqb (role (Example.listening Role.Client))
                             Role.Client
                 then next_key (Example.listening Role.Client)
                      ++ mask_payload
                           (next_key (Example.listening Role.Client))
                           0 (str "abc")
                 else str "abc")).
Proof.
  apply (control_frames_are_short Example.all_delegates
           (Example.listening Role.Client) Example.peer
           true (str "abc")); reflexivity.
Defined.

Lemma abnormal_closure_witness :
  exists s',
    ConnectionBroken (Example.opened Role.Client) = Ok tt s'
    /\ calls_of s' = calls Example.peer ++ [Break false]
    /\ eventQueue s'
       = eventQueue (Example.opened Role.Client)
         ++ [Event.Build Event.Close (str "connection broken by peer")
                         (Some 1006)]
    /\ closeSent s' = true
    /\ closeReceived s' = true.
Proof.
  destruct (abnormal_closure (Example.opened Role.Client) Example.peer
              eq_refl) as (H & _).
  apply H. reflexivity.
Defined.

Lemma header_errors_witness :
  ReceiveFrame Reference.IsValidEncoding 2 0
               (Example.holding Role.Client [0xF1; 0x00])
  = Close 1002 (str "reserved bits set") true
          (Example.holding Role.Client [0xF1; 0x00]).
Proof.
  destruct (header_errors Reference.IsValidEncoding
              (Example.holding Role.Client [0xF1; 0x00]) 2 0
              (u8 0xF1) (u8 0x00) [] eq_refl eq_refl) as (H & _).
  apply H. vm_compute. discriminate.
Defined.


Lemma fragments_reassembled_witness :
  receive_frames Reference.IsValidEncoding
    (fragmented true (str "Hel") [str "lo, "; str "wor"] (str "ld"))
    (Example.opened Role.Client)
  = Ok tt (set_messageReassemblyBuffer []
             (set_receiving FragmentedMessageType.None
                (set_eventQueue
                   (eventQueue (Example.opened Role.Client)
                    ++ [Event.Build Event.Text
                          (str "Hel" ++ List.concat [str "lo, "; str "wor"]
                           ++ str "ld") None])
                   (Example.opened Role.Client)))).
Proof.
  destruct (fragments_reassembled Reference.IsValidEncoding
              (Example.opened Role.Client) true (str "Hel")
              [str "lo, "; str "wor"] (str "ld") eq_refl) as (H & _).
  apply H. right. reflexivity.
Defined.

Lemma control_frames_interleave_witness :
  exists s',
    ReceiveFrame_switch Reference.IsValidEncoding true OPCODE_PING (str "abc")
                        Example.mid_text = Ok tt s'
    /\ receiving s' = receiving Example.mid_text
    /\ messageReassemblyBuffer s' = messageReassemblyBuffer Example.mid_text
    /\ eventQueue s'
       = eventQueue Example.mid_text
         ++ [Event.Build Event.Ping (str "abc") None]
    /\ calls_of s'
       = calls Example.peer
         ++ [SendData (next_frame Example.mid_text true OPCODE_PONG
                                  (str "abc"))].
Proof.
  apply (control_frames_interleave Reference.IsValidEncoding Example.mid_text
           Example.peer true true (str "abc")).
  reflexivity.
Defined.

Lemma ping_is_echoed_witness :
  exists handed a1 b1 a2,
    Ping Example.all_delegates (str "abc") (Example.listening Role.Client)
    = Ok handed a1
    /\ handed = [CallText (str "hi")]
    /\ eventQueue a1 = []
    /\ calls_of a1
       = calls Example.peer
         ++ [SendData (next_frame (Example.listening Role.Client) true
                                  OPCODE_PING (str "abc"))]
    /\ ReceiveData Reference.IsValidEncoding
         (next_frame (Example.listening Role.Client) true OPCODE_PING
                     (str "abc"))
         (Example.opened Role.Server)
       = Ok tt b1
    /\ eventQueue b1
       = eventQueue (Example.opened Role.Server)
         ++ [Event.Build Event.Ping (str "abc") None]
    /\ calls_of b1
       = calls Example.peer
         ++ [SendData (next_frame (Example.opened Role.Server) true
                                  OPCODE_PONG (str "abc"))]
    /\ ReceiveData Reference.IsValidEncoding
         (next_frame (Example.opened Role.Server) true OPCODE_PONG (str "abc"))
         a1
       = Ok tt a2
    /\ eventQueue a2
       = eventQueue a1 ++ [Event.Build Event.Pong (str "abc") None]
    /\ calls_of a2 = calls_of a1.
Proof.
  apply (ping_is_echoed Reference.IsValidEncoding Example.all_delegates
           (Example.listening Role.Client) (Example.opened Role.Server)
           Example.peer Example.peer (str "abc"));
    try reflexivity.
  vm_compute. discriminate.
Defined.

Lemma frame_in_buffer_is_handled_witness :
  exists s', ReceiveFrame Reference.IsValidEncoding 2 2 Example.closing
             = Ok tt s'.
Proof.
  apply (frame_in_buffer_is_handled Reference.IsValidEncoding Example.closing
           Example.peer 2 2); try reflexivity; vm_compute; discriminate.
Defined.

Lemma wrapped_length_never_returns_witness :
  ReceiveData Reference.IsValidEncoding (wrapping_header (u8 0xF1))
              (Example.opened Role.Server) = OutOfFuel
  /\ forall fuel,
       ReceiveData_loop Reference.IsValidEncoding fuel
         (set_frameReassemblyBuffer (wrapping_header (u8 0xF1))
                                    (Example.opened Role.Server))
       = OutOfFuel.
Proof.
  apply (wrapped_length_never_returns Reference.IsValidEncoding
           (Example.opened Role.Server) Example.peer (u8 0xF1));
    try reflexivity.
  vm_compute. discriminate.
Defined.

Lemma wrapped_length_is_undefined_witness :
  ReceiveData Reference.IsValidEncoding
    (u8 0x82 :: u8 0x7F :: big_endian 8 (2 ^ 64 - 1))
    (Example.opened Role.Client)
  = Undefined.
Proof.
  apply (wrapped_length_is_undefined Reference.IsValidEncoding
           (Example.opened Role.Client) Example.peer (u8 0x82) (2 ^ 64 - 1));
    try reflexivity.
  split; vm_compute; [discriminate|reflexivity].
Defined.

Lemma unopened_engine_ignores_everything_witness :
  (forall op, by_application op = true ->
              perform Reference.IsValidEncoding Example.all_delegates op
                      (set_connection None (Example.listening Role.Server))
              = Ok [] (set_connection None (Example.listening Role.Server)))
  /\ (forall data,
         ReceiveData Reference.IsValidEncoding data
                     (set_connection None (Example.listening Role.Server))
         = Ok tt (set_connection None (Example.listening Role.Server)))
  /\ ConnectionBroken (set_connection None (Example.listening Role.Server))
     = Ok tt (set_connection None (Example.listening Role.Server))
  /\ (forallb by_application Example.session = true
      \/ delegatesSet (set_connection None (Example.listening Role.Server))
         = false ->
      perform_all Reference.IsValidEncoding Example.all_delegates
                  Example.session
                  (set_connection None (Example.listening Role.Server))
      = Ok [] (set_connection None (Example.listening Role.Server)))
  /\ exists handed s',
      perform_all Reference.IsValidEncoding Example.all_delegates
                  Example.session
                  (set_connection None (Example.listening Role.Server))
      = Ok handed s'
      /\ dispatched Example.all_delegates
                    (set_connection None (Example.listening Role.Server))
                    handed s'.
Proof.
  apply (unopened_engine_ignores_everything Reference.IsValidEncoding
           Example.all_delegates Example.session
           (set_connection None (Example.listening Role.Server))).
  reflexivity.
Defined.

Lemma closing_handshake_witness :
  exists handed_a a1 b1 handed_b b2 a2,
    WebSocket_Close Example.all_delegates 1000 (str "bye")
                    (Example.opened Role.Client) = Ok handed_a a1
    /\ handed_a = []
    /\ eventQueue a1 = []
    /\ ReceiveData Reference.IsValidEncoding
         (next_frame (Example.opened Role.Client) true OPCODE_CLOSE
                     (close_payload 1000 (str "bye")))
         (Example.listening Role.Server)
       = Ok tt b1
    /\ eventQueue b1
       = [Event.Build Event.Text (str "hi") None;
          Event.Build Event.Close (str "bye") (Some 1000)]
    /\ WebSocket_Close Example.all_delegates 1001 (str "going") b1
       = Ok handed_b b2
    /\ handed_b = [CallText (str "hi"); CallClose (Some 1000) (str "bye")]
    /\ eventQueue b2 = []
    /\ ReceiveData Reference.IsValidEncoding
         (next_frame (Example.listening Role.Server) true OPCODE_CLOSE
                     (close_payload 1001 (str "going"))) a1
       = Ok tt a2
    /\ eventQueue a2
       = eventQueue a1 ++ [Event.Build Event.Close (str "going") (Some 1001)]
    /\ calls_of a2
       = calls Example.peer
         ++ [SendData (next_frame (Example.opened Role.Client) true
                                  OPCODE_CLOSE
                                  (close_payload 1000 (str "bye")));
             Break false]
    /\ calls_of b2
       = calls Example.peer
         ++ [SendData (next_frame (Example.listening Role.Server) true
                                  OPCODE_CLOSE
                                  (close_payload 1001 (str "going")));
             Break true]
    /\ closeSent a2 = true /\ closeReceived a2 = true
    /\ closeSent b2 = true /\ closeReceived b2 = true.
Proof.
  apply (closing_handshake Reference.IsValidEncoding
           Example.all_delegates Example.all_delegates
           (Example.opened Role.Client) (Example.listening Role.Server)
           Example.peer Example.peer 1000 (str "bye") 1001 (str "going"));
    try reflexivity; discriminate.
Defined.

Lemma text_events_are_valid_witness :
  exists events,
    delivers Example.all_delegates (Example.listening Role.Client) events
      [CallText (str "hi"); CallText (str "hi");
       CallClose (Some 1007)
         (str "invalid UTF-8 encoding in text message")]
      (state_of (perform_all Reference.IsValidEncoding Example.all_delegates
                             Example.chat (Example.listening Role.Client))
                (Example.listening Role.Client))
    /\ (forall event,
           In event events -> Event.type event = Event.Text ->
           Reference.IsValidEncoding (Event.content event) = true)
    /\ ((forall event,
            In event (eventQueue (Example.listening Role.Client)) ->
            Event.type event = Event.Text ->
            Reference.IsValidEncoding (Event.content event) = true) ->
        (forall data,
            In (CallText data)
               [CallText (str "hi"); CallText (str "hi");
                CallClose (Some 1007)
                  (str "invalid UTF-8 encoding in text message")] ->
            Reference.IsValidEncoding data = true)
        /\ (forall event,
               In event
                  (eventQueue
                     (state_of
                        (perform_all Reference.IsValidEncoding
                           Example.all_delegates Example.chat
                           (Example.listening Role.Client))
                        (Example.listening Role.Client))) ->
               Event.type event = Event.Text ->
               Reference.IsValidEncoding (Event.content event) = true)).
Proof.
  apply (text_events_are_valid Reference.IsValidEncoding
           Example.all_delegates Example.chat).
  vm_compute. reflexivity.
Defined.

Lemma after_close_only_pongs_witness :
  closeSent
    (state_of (perform_all Reference.IsValidEncoding Example.all_delegates
                 Example.closed_session
                 (set_closeSent true (Example.listening Role.Client)))
              Example.closed) = true
  /\ exists made,
      calls_of
        (state_of (perform_all Reference.IsValidEncoding
                     Example.all_delegates Example.closed_session
                     (set_closeSent true (Example.listening Role.Client)))
                  Example.closed)
      = calls_of (set_closeSent true (Example.listening Role.Client)) ++ made
      /\ forallb pong_or_break made = true.
Proof.
  apply (after_close_only_pongs Reference.IsValidEncoding
           Example.all_delegates Example.closed_session
           (set_closeSent true (Example.listening Role.Client))
           (value_of (perform_all Reference.IsValidEncoding
                        Example.all_delegates Example.closed_session
                        (set_closeSent true (Example.listening Role.Client)))
                     [])).
  - reflexivity.
  - vm_compute. reflexivity.
Defined.
